(** * nanoGPTMS2: a shallow embedding of [model.py]

    The encoder / bottleneck / decoder transformer of [model.py], its loss,
    its status logging and its sampling loop, written as Rocq functions;
    after the model, the data scripts [data/ms2/prepare.py] and
    [data/ms2/create_real.py].

    Conventions of the embedding.
    - A float tensor is a nested list of real numbers ([R] of the Standard
      Library): the development checks the mathematical contract of the
      model, not IEEE rounding.  The one non-real value the code writes,
      [float('-inf')], is the constructor [NegInf] of [ext].
    - A Python exception is [Raise e]; a normal return is [Ok v].
    - Every random draw of the code (torch.randint, dropout masks,
      random.random(), torch.multinomial) is an explicit argument holding
      the outcome of the draw.
    - A module class is a record [t_ M V] over the type [M] of its matrix
      parameters and the type [V] of its vector parameters: [t] holds the
      tensors themselves (what [forward] computes with), [obj] holds
      references into the heap of parameter objects (what [__init__]
      builds, where two modules may share one parameter). *)

From Stdlib Require Import Reals Lra Lia ZArith.

From stdpp Require Import base list strings sorting gmap.

(** ** Exceptions and results *)

Inductive exn :=
| AssertionError | RuntimeError | IndexError | TypeError
| UnboundLocalError | ValueError | KeyError | ZeroDivisionError | OverflowError.

Inductive result (A : Type) :=
| Ok (a : A)
| Raise (e : exn).
Arguments Ok {A} a.
Arguments Raise {A} e.

Definition bind {A B} (m : result A) (f : A → result B) : result B :=
  match m with Ok a => f a | Raise e => Raise e end.

Notation "x <- m ;; k" := (bind m (λ x, k))
  (at level 100, m at next level, right associativity).

(** [[f(x) for x in l]], stopping at the first exception. *)
Fixpoint mapR {A B} (f : A → result B) (l : list A) : result (list B) :=
  match l with
  | [] => Ok []
  | x :: l' => y <- f x;; ys <- mapR f l';; Ok (y :: ys)
  end.

(** ** Tensors *)

Abbreviation Vec := (list R).
Abbreviation Mat := (list (list R)).
Abbreviation Tensor3 := (list (list (list R))).

(** [x.size() == (b, n)] and [x.size() == (b, t, c)] for nested lists. *)
Definition has_shape2 {A} (x : list (list A)) (b n : nat) : Prop :=
  length x = b ∧ Forall (λ r, length r = n) x.
Definition has_shape3 {A} (x : list (list (list A))) (b t c : nat) : Prop :=
  length x = b ∧ Forall (λ m, has_shape2 m t c) x.

Definition rsum (l : Vec) : R := foldr Rplus 0%R l.
Definition dot (x y : Vec) : R := rsum (zip_with Rmult x y).
Definition vadd (x y : Vec) : Vec := zip_with Rplus x y.
Definition madd (x y : Mat) : Mat := zip_with vadd x y.
Definition tadd (x y : Tensor3) : Tensor3 := zip_with madd x y.
Definition mean (x : Vec) : R := (rsum x / INR (length x))%R.

(** A float that may be [-inf] (written by [masked_fill] and by top-k). *)
Inductive ext :=
| Fin (r : R)
| NegInf.

Definition exp_ext (e : ext) : R :=
  match e with Fin r => exp r | NegInf => 0%R end.

(** [F.softmax(row, dim=-1)]: [exp(x_i) / sum_j exp(x_j)], with
    [exp(-inf) = 0]. *)
Definition softmax (row : list ext) : Vec :=
  let es := exp_ext <$> row in (λ e, e / rsum es)%R <$> es.

(** ** Parameter objects

    [nn.Parameter] objects live in a heap, in the order they are created; a
    module holds references to them, so that two modules can hold the same
    parameter.  The state of construction is the heap together with the
    random generator: [gen] is the sequence of samples it will deliver and
    [pos] the number of samples already taken.  A constructor returns its
    object and the new state, or raises. *)
Inductive tensor :=
| T1 (v : Vec)
| T2 (m : Mat).

Abbreviation ref := nat.

Record state := { heap : list tensor; gen : nat → R; pos : nat }.

Definition Init (A : Type) : Type := state → result (A * state).

Definition ret {A} (a : A) : Init A := λ s, Ok (a, s).

Definition raise {A} (e : exn) : Init A := λ _, Raise e.

Definition bindI {A B} (m : Init A) (f : A → Init B) : Init B :=
  λ s, match m s with
       | Ok (a, s') => f a s'
       | Raise e => Raise e
       end.

Notation "x <~ m ;; k" := (bindI m (λ x, k))
  (at level 100, m at next level, right associativity).

(** [nn.Parameter(t)]: a new object, at the next free address. *)
Definition nn_Parameter (t : tensor) : Init ref :=
  λ s, Ok (length (heap s), {| heap := heap s ++ [t]; gen := gen s; pos := pos s |}).

(** A fresh [rows x cols] matrix of samples. *)
Definition sample_mat (rows cols : nat) : Init Mat :=
  λ s, Ok ((λ i, (λ j, gen s (pos s + i * cols + j)) <$> seq 0 cols) <$> seq 0 rows,
           {| heap := heap s; gen := gen s; pos := pos s + rows * cols |}).

Definition sample_vec (n : nat) : Init Vec :=
  λ s, Ok ((λ i, gen s (pos s + i)) <$> seq 0 n,
           {| heap := heap s; gen := gen s; pos := pos s + n |}).

Definition numel (t : tensor) : nat :=
  match t with T1 v => length v | T2 m => length (concat m) end.

(** [torch.nn.init.normal_(p, mean, std)]: every entry of the object at
    [r] is overwritten in place; the object and its shape stay. *)
Definition normal_ (r : ref) (mean std : R) : Init unit :=
  λ s, match heap s !! r with
       | Some t =>
           let fill (k : nat) := (mean + std * gen s (pos s + k))%R in
           let t' := match t with
                     | T1 v => T1 (imap (λ i _, fill i) v)
                     | T2 m => T2 (imap (λ i row, imap (λ j _, fill (i * length row + j)) row) m)
                     end in
           Ok (tt, {| heap := <[r := t']> (heap s); gen := gen s; pos := pos s + numel t |})
       | None => Ok (tt, s)
       end.

(** [torch.nn.init.zeros_(p)] *)
Definition zeros_ (r : ref) : Init unit :=
  λ s, match heap s !! r with
       | Some t =>
           let t' := match t with
                     | T1 v => T1 ((λ _, 0%R) <$> v)
                     | T2 m => T2 (fmap (M:=list) (fmap (λ _, 0%R)) m)
                     end in
           Ok (tt, {| heap := <[r := t']> (heap s); gen := gen s; pos := pos s |})
       | None => Ok (tt, s)
       end.

(** Reading a parameter object. *)
Definition get_vec (h : list tensor) (r : ref) : option Vec :=
  match h !! r with Some (T1 v) => Some v | _ => None end.
Definition get_mat (h : list tensor) (r : ref) : option Mat :=
  match h !! r with Some (T2 m) => Some m | _ => None end.
Definition get_bias (h : list tensor) (b : option ref) : option (option Vec) :=
  match b with
  | None => Some None
  | Some r => match get_vec h r with Some v => Some (Some v) | None => None end
  end.

(** ** Dropout

    [keep] is the outcome of the Bernoulli draws of one call, read at the
    multi-index of each element.  ATen returns the input itself when
    [p == 0] or the module is in eval mode, and zeros when [p == 1]. *)
Abbreviation Mask := (list nat → bool).

Definition dropout_elem (p : R) (training : bool) (keep : bool) (v : R) : R :=
  if training then
    if Req_dec_T p 0 then v
    else if Req_dec_T p 1 then 0%R
    else if keep then (v / (1 - p))%R else 0%R
  else v.

(** [nn.Dropout(p)]: the constructor refuses a probability outside
    [0, 1]; the module made holds [p]. *)
Definition nn_Dropout (p : R) : Init R :=
  if Rlt_dec p 0 then raise ValueError
  else if Rlt_dec 1 p then raise ValueError
  else ret p.

Definition dropout1 (p : R) (training : bool) (keep : Mask) (ix : list nat) (x : Vec) : Vec :=
  imap (λ c v, dropout_elem p training (keep (ix ++ [c])) v) x.
Definition dropout2 (p : R) (training : bool) (keep : Mask) (ix : list nat) (x : Mat) : Mat :=
  imap (λ i r, dropout1 p training keep (ix ++ [i]) r) x.
Definition dropout3 (p : R) (training : bool) (keep : Mask) (x : Tensor3) : Tensor3 :=
  imap (λ b m, dropout2 p training keep [b] m) x.

(** ** GELU

    [nn.GELU()] is the exact form [x * Phi(x)] with
    [Phi(x) = (1 + erf(x / sqrt 2)) / 2]; [erf] is the integral of the
    Gaussian density. *)
Definition gauss (t : R) : R := exp (- (t * t)).

Lemma gauss_continuous : continuity gauss.
Proof. unfold gauss. reg. Qed.

Lemma gauss_integrable (a b : R) : (a <= b)%R → Riemann_integrable gauss a b.
Proof.
  intros Hab. apply continuity_implies_RiemannInt; [exact Hab|].
  intros x _. apply gauss_continuous.
Qed.

Definition erf (x : R) : R :=
  (2 / sqrt PI *
   match Rle_dec 0 x with
   | left H => RiemannInt (gauss_integrable 0 x H)
   | right H =>
       - RiemannInt (gauss_integrable x 0 (Rlt_le _ _ (Rnot_le_lt _ _ H)))
   end)%R.

Definition gelu (x : R) : R := (x * (1 / 2) * (1 + erf (x / sqrt 2)))%R.

(** ** @dataclass GPTConfig *)
Module GPTConfig.

Record t := {
  block_size : nat;
  vocab_size : nat;
  n_layer : nat;
  n_head : nat;
  n_embd : nat;
  dropout : R;
  bias : bool;
  n_bottleneck : nat;
}.

End GPTConfig.

(** ** class LayerNorm *)
Module LayerNorm.

Record t_ (M V : Type) := { weight : V; bias : option V }.
Arguments weight {M V} _.
Arguments bias {M V} _.
Abbreviation t := (t_ Mat Vec).

Definition eps : R := (1 / 100000)%R.

(** [F.layer_norm(input, self.weight.shape, self.weight, self.bias, 1e-5)]
    on one feature vector. *)
Definition forward1 (ln : t) (x : Vec) : result Vec :=
  if decide (length x = length (weight ln)) then
    let mu := mean x in
    let var := mean ((λ v, (v - mu) * (v - mu))%R <$> x) in
    let xhat := (λ v, (v - mu) / sqrt (var + eps))%R <$> x in
    let y := zip_with Rmult xhat (weight ln) in
    Ok (match bias ln with Some b => vadd y b | None => y end)
  else Raise RuntimeError.

Definition forward (ln : t) (x : Tensor3) : result Tensor3 :=
  mapR (mapR (forward1 ln)) x.

Definition wf (ndim : nat) (ln : t) : Prop :=
  length (weight ln) = ndim ∧ ∀ b, bias ln = Some b → length b = ndim.

Abbreviation obj := (t_ ref ref).

(** def __init__(self, ndim, bias) *)
Definition __init__ (ndim : nat) (with_bias : bool) : Init obj :=
  w <~ nn_Parameter (T1 (replicate ndim 1%R));;
  b <~ (if with_bias then r <~ nn_Parameter (T1 (replicate ndim 0%R));; ret (Some r)
        else ret None);;
  ret {| weight := w; bias := b |}.

Definition resolve (h : list tensor) (o : obj) : option t :=
  match get_vec h (weight o), get_bias h (bias o) with
  | Some w, Some b => Some {| weight := w; bias := b |}
  | _, _ => None
  end.

End LayerNorm.

(** ** nn.Linear *)
Module Linear.

Record t_ (M V : Type) := {
  in_features : nat;
  out_features : nat;
  weight : M;              (* out_features rows of in_features entries *)
  bias : option V;
}.
Arguments in_features {M V} _.
Arguments out_features {M V} _.
Arguments weight {M V} _.
Arguments bias {M V} _.
Abbreviation t := (t_ Mat Vec).

(** [F.linear(x, weight, bias)] on one feature vector: [x @ W^T + b]. *)
Definition forward1 (l : t) (x : Vec) : result Vec :=
  if decide (length x = in_features l) then
    let y := dot x <$> weight l in
    Ok (match bias l with Some b => vadd y b | None => y end)
  else Raise RuntimeError.

Definition forward2 (l : t) (x : Mat) : result Mat := mapR (forward1 l) x.
Definition forward (l : t) (x : Tensor3) : result Tensor3 := mapR (forward2 l) x.

Definition wf (n_in n_out : nat) (l : t) : Prop :=
  in_features l = n_in ∧ out_features l = n_out ∧
  has_shape2 (weight l) n_out n_in ∧
  ∀ b, bias l = Some b → length b = n_out.

Abbreviation obj := (t_ ref ref).

(** nn.Linear(n_in, n_out, bias): the default initialisation draws the
    entries uniformly between [-1/sqrt(n_in)] and [1/sqrt(n_in)]. *)
Definition __init__ (n_in n_out : nat) (with_bias : bool) : Init obj :=
  let scale (u : R) := ((2 * u - 1) / sqrt (INR n_in))%R in
  w <~ sample_mat n_out n_in;;
  w <~ nn_Parameter (T2 (fmap (M:=list) (fmap scale) w));;
  b <~ (if with_bias then
          v <~ sample_vec n_out;;
          r <~ nn_Parameter (T1 (scale <$> v));;
          ret (Some r)
        else ret None);;
  ret {| in_features := n_in; out_features := n_out; weight := w; bias := b |}.

(** The [nn.Linear] case of [GPT._init_weights]. *)
Definition _init_weights (l : obj) : Init unit :=
  _ <~ normal_ (weight l) 0 (2 / 100);;
  match bias l with
  | Some b => zeros_ b
  | None => ret tt
  end.

Definition resolve (h : list tensor) (o : obj) : option t :=
  match get_mat h (weight o), get_bias h (bias o) with
  | Some w, Some b =>
      Some {| in_features := in_features o; out_features := out_features o;
              weight := w; bias := b |}
  | _, _ => None
  end.

End Linear.

(** ** nn.Embedding *)
Module Embedding.

Record t_ (M V : Type) := { weight : M }.
Arguments weight {M V} _.
Abbreviation t := (t_ Mat Vec).

(** Row [i] of the table; an index outside [0, num_embeddings) raises. *)
Definition forward1 (e : t) (i : Z) : result Vec :=
  if decide (0 ≤ i)%Z then
    match weight e !! Z.to_nat i with
    | Some row => Ok row
    | None => Raise IndexError
    end
  else Raise IndexError.

Definition forward (e : t) (idx : list Z) : result Mat := mapR (forward1 e) idx.

Definition wf (num dim : nat) (e : t) : Prop := has_shape2 (weight e) num dim.

Abbreviation obj := (t_ ref ref).

(** nn.Embedding(num, dim, padding_idx): a positive padding index is
    asserted to be below [num]; the entries are standard normal, and
    [weight[padding_idx].fill_(0)] zeroes the row of the padding index,
    an IndexError when the table has no such row (an empty table with
    [padding_idx=0]). *)
Definition __init__ (num dim padding_idx : nat) : Init obj :=
  if decide (0 < padding_idx ∧ num ≤ padding_idx) then raise AssertionError
  else
    w <~ sample_mat num dim;;
    if decide (padding_idx < num) then
      w <~ nn_Parameter (T2 (<[padding_idx := replicate dim 0%R]> w));;
      ret {| weight := w |}
    else raise IndexError.

(** The [nn.Embedding] case of [GPT._init_weights]. *)
Definition _init_weights (e : obj) : Init unit := normal_ (weight e) 0 (2 / 100).

Definition resolve (h : list tensor) (o : obj) : option t :=
  match get_mat h (weight o) with
  | Some w => Some {| weight := w |}
  | None => None
  end.

End Embedding.

(** ** class CausalSelfAttention *)
Module CausalSelfAttention.

Record t_ (M V : Type) := {
  c_attn : Linear.t_ M V;
  c_proj : Linear.t_ M V;
  n_head : nat;
  n_embd : nat;
  dropout : R;
  flash : bool;
  (* side of the registered lower-triangular buffer [bias]
     (config.block_size); the buffer is read only when [flash] is false *)
  bias_size : nat;
}.
Arguments c_attn {M V} _.
Arguments c_proj {M V} _.
Arguments n_head {M V} _.
Arguments n_embd {M V} _.
Arguments dropout {M V} _.
Arguments flash {M V} _.
Arguments bias_size {M V} _.
Abbreviation t := (t_ Mat Vec).

(** Columns of head [h] after [view(B, T, n_head, hs).transpose(1, 2)]. *)
Definition head_slice (hs h : nat) (v : Vec) : Vec := take hs (drop (h * hs) v).

(** [(q @ k.transpose(-2, -1)) * (1.0 / math.sqrt(k.size(-1)))], row [i]. *)
Definition scores (hs : nat) (qi : Vec) (k : Mat) : Vec :=
  (λ kj, dot qi kj * (1 / sqrt (INR hs)))%R <$> k.

(** [att.masked_fill(self.bias[:,:,:T,:T] == 0, float('-inf'))], row [i]:
    the buffer is [tril(ones)], so entry [(i, j)] is kept iff [j ≤ i]. *)
Definition masked_fill (i : nat) (s : Vec) : list ext :=
  imap (λ j x, if decide (j ≤ i) then Fin x else NegInf) s.

(** Row [i] of [att @ v]: [sum_j att[i][j] * v[j][c]] for each column [c]. *)
Definition matmul_row (hs : nat) (arow : Vec) (v : Mat) : Vec :=
  (λ c, dot arow ((λ vj, default 0%R (vj !! c)) <$> v)) <$> seq 0 hs.

(** The manual implementation of attention (lines 71-75), for row [i] of
    head [h] of batch element [b]. *)
Definition attend_row (p : R) (training : bool) (keep : Mask)
    (hs b h i : nat) (qi : Vec) (k v : Mat) : Vec :=
  let att := scores hs qi k in
  let att := masked_fill i att in
  let att := softmax att in
  let att := dropout1 p training keep [b; h; i] att in
  matmul_row hs att v.

(** [F.scaled_dot_product_attention(q, k, v, attn_mask=None, dropout_p,
    is_causal=True)]: by its documentation the result of the computation
    above (lower-triangular mask, softmax, dropout, product with [v]). *)
Definition scaled_dot_product_attention (p : R) (training : bool) (keep : Mask)
    (hs b h i : nat) (qi : Vec) (k v : Mat) : Vec :=
  matmul_row hs
    (dropout1 p training keep [b; h; i]
       (softmax (masked_fill i (scores hs qi k)))) v.

(** Row [i] of [y.transpose(1, 2).contiguous().view(B, T, C)]: the outputs
    of all heads side by side. *)
Definition heads_row (a : t) (training : bool) (keep : Mask)
    (b i : nat) (qi : Vec) (k v : Mat) : Vec :=
  let hs := n_embd a / n_head a in
  concat ((λ h,
    (if flash a then scaled_dot_product_attention else attend_row)
      (dropout a) training keep hs b h i
      (head_slice hs h qi) (head_slice hs h <$> k) (head_slice hs h <$> v))
    <$> seq 0 (n_head a)).

Definition heads (a : t) (training : bool) (keep : Mask) (b : nat) (qkv : Mat) : Mat :=
  let n := n_embd a in
  (* q, k, v = self.c_attn(x).split(self.n_embd, dim=2) *)
  let q := take n <$> qkv in
  let k := (λ r, take n (drop n r)) <$> qkv in
  let v := (λ r, take n (drop (2 * n) r)) <$> qkv in
  imap (λ i qi, heads_row a training keep b i qi k v) q.

(** The manual implementation when the buffer has the single entry 1
    ([block_size] 1) and the sequence is longer: the slice
    [bias[:,:,:T,:T]] is that entry, [== 0] is [False] at it, and
    [masked_fill] broadcasts it over [att], so no score is replaced. *)
Definition attend_row_unmasked (p : R) (training : bool) (keep : Mask)
    (hs b h i : nat) (qi : Vec) (k v : Mat) : Vec :=
  let att := scores hs qi k in
  let att := Fin <$> att in
  let att := softmax att in
  let att := dropout1 p training keep [b; h; i] att in
  matmul_row hs att v.

Definition heads_row_unmasked (a : t) (training : bool) (keep : Mask)
    (b i : nat) (qi : Vec) (k v : Mat) : Vec :=
  let hs := n_embd a / n_head a in
  concat ((λ h,
    attend_row_unmasked (dropout a) training keep hs b h i
      (head_slice hs h qi) (head_slice hs h <$> k) (head_slice hs h <$> v))
    <$> seq 0 (n_head a)).

Definition heads_unmasked (a : t) (training : bool) (keep : Mask) (b : nat) (qkv : Mat)
    : Mat :=
  let n := n_embd a in
  let q := take n <$> qkv in
  let k := (λ r, take n (drop n r)) <$> qkv in
  let v := (λ r, take n (drop (2 * n) r)) <$> qkv in
  imap (λ i qi, heads_row_unmasked a training keep b i qi k v) q.

(** def forward(self, x).  A batch is the list of its sequences, so a
    batch of no sequence has no length [T] of its own: it is read as one
    with [T ≤ block_size]. *)
Definition forward (a : t) (training : bool) (attn_keep resid_keep : Mask)
    (x : Tensor3) : result Tensor3 :=
  qkv <- Linear.forward (c_attn a) x;;
  (* k.view(B, T, self.n_head, C // self.n_head) *)
  if decide (n_head a * (n_embd a / n_head a) = n_embd a) then
    (* the slice bias[:,:,:T,:T] covers att only when T ≤ block_size *)
    if decide (flash a = true ∨ Forall (λ xb, length xb ≤ bias_size a) x) then
      let y := imap (heads a training attn_keep) qkv in
      o <- Linear.forward (c_proj a) y;;
      Ok (dropout3 (dropout a) training resid_keep o)
    else if decide (bias_size a = 1) then
      (* a slice of one row and one column is broadcast *)
      let y := imap (heads_unmasked a training attn_keep) qkv in
      o <- Linear.forward (c_proj a) y;;
      Ok (dropout3 (dropout a) training resid_keep o)
    else Raise RuntimeError
  else Raise RuntimeError.

Definition wf (n_embd' block_size : nat) (a : t) : Prop :=
  n_embd a = n_embd' ∧ 0 < n_head a ∧
  n_head a * (n_embd a / n_head a) = n_embd a ∧
  bias_size a = block_size ∧
  Linear.wf n_embd' (3 * n_embd') (c_attn a) ∧
  Linear.wf n_embd' n_embd' (c_proj a).

Abbreviation obj := (t_ ref ref).

(** [assert config.n_embd % config.n_head == 0]: Python's [%] by zero
    raises before the comparison is made. *)
Definition assert_heads (config : GPTConfig.t) : Init unit :=
  if decide (GPTConfig.n_head config = 0) then raise ZeroDivisionError
  else if decide (GPTConfig.n_embd config `mod` GPTConfig.n_head config = 0) then ret tt
  else raise AssertionError.

(** def __init__(self, config); [has_flash] says whether torch provides
    [scaled_dot_product_attention]. *)
Definition __init__ (config : GPTConfig.t) (has_flash : bool) : Init obj :=
  let n := GPTConfig.n_embd config in
  _ <~ assert_heads config;;
  c_attn <~ Linear.__init__ n (3 * n) (GPTConfig.bias config);;
  c_proj <~ Linear.__init__ n n (GPTConfig.bias config);;
  attn_dropout <~ nn_Dropout (GPTConfig.dropout config);;
  resid_dropout <~ nn_Dropout (GPTConfig.dropout config);;
  ret {| c_attn := c_attn; c_proj := c_proj;
         n_head := GPTConfig.n_head config; n_embd := n;
         dropout := GPTConfig.dropout config;
         flash := has_flash; bias_size := GPTConfig.block_size config |}.

Definition resolve (h : list tensor) (o : obj) : option t :=
  match Linear.resolve h (c_attn o), Linear.resolve h (c_proj o) with
  | Some a, Some p =>
      Some {| c_attn := a; c_proj := p; n_head := n_head o; n_embd := n_embd o;
              dropout := dropout o; flash := flash o; bias_size := bias_size o |}
  | _, _ => None
  end.

End CausalSelfAttention.

(** ** class MLP *)
Module MLP.

Record t_ (M V : Type) := {
  c_fc : Linear.t_ M V;
  c_proj : Linear.t_ M V;
  dropout : R;
}.
Arguments c_fc {M V} _.
Arguments c_proj {M V} _.
Arguments dropout {M V} _.
Abbreviation t := (t_ Mat Vec).

Definition gelu3 (x : Tensor3) : Tensor3 := fmap (M:=list) (fmap (M:=list) (fmap gelu)) x.

Definition forward (m : t) (training : bool) (keep : Mask) (x : Tensor3) : result Tensor3 :=
  h <- Linear.forward (c_fc m) x;;
  o <- Linear.forward (c_proj m) (gelu3 h);;
  Ok (dropout3 (dropout m) training keep o).

Definition wf (n_embd : nat) (m : t) : Prop :=
  Linear.wf n_embd (4 * n_embd) (c_fc m) ∧ Linear.wf (4 * n_embd) n_embd (c_proj m).

Abbreviation obj := (t_ ref ref).

(** def __init__(self, config) *)
Definition __init__ (config : GPTConfig.t) : Init obj :=
  let n := GPTConfig.n_embd config in
  c_fc <~ Linear.__init__ n (4 * n) (GPTConfig.bias config);;
  c_proj <~ Linear.__init__ (4 * n) n (GPTConfig.bias config);;
  dropout <~ nn_Dropout (GPTConfig.dropout config);;
  ret {| c_fc := c_fc; c_proj := c_proj; dropout := dropout |}.

Definition resolve (h : list tensor) (o : obj) : option t :=
  match Linear.resolve h (c_fc o), Linear.resolve h (c_proj o) with
  | Some f, Some p => Some {| c_fc := f; c_proj := p; dropout := dropout o |}
  | _, _ => None
  end.

End MLP.

(** ** class Block *)
Module Block.

Record t_ (M V : Type) := {
  ln_1 : LayerNorm.t_ M V;
  attn : CausalSelfAttention.t_ M V;
  ln_2 : LayerNorm.t_ M V;
  mlp : MLP.t_ M V;
}.
Arguments ln_1 {M V} _.
Arguments attn {M V} _.
Arguments ln_2 {M V} _.
Arguments mlp {M V} _.
Abbreviation t := (t_ Mat Vec).

(** The Bernoulli outcomes of the three dropout calls of one block. *)
Record Masks := { attn_keep : Mask; resid_keep : Mask; mlp_keep : Mask }.

Definition forward (blk : t) (training : bool) (mk : Masks) (x : Tensor3) : result Tensor3 :=
  n1 <- LayerNorm.forward (ln_1 blk) x;;
  a <- CausalSelfAttention.forward (attn blk) training (attn_keep mk) (resid_keep mk) n1;;
  let x := tadd x a in
  n2 <- LayerNorm.forward (ln_2 blk) x;;
  f <- MLP.forward (mlp blk) training (mlp_keep mk) n2;;
  Ok (tadd x f).

Definition wf (n_embd block_size : nat) (blk : t) : Prop :=
  LayerNorm.wf n_embd (ln_1 blk) ∧ CausalSelfAttention.wf n_embd block_size (attn blk) ∧
  LayerNorm.wf n_embd (ln_2 blk) ∧ MLP.wf n_embd (mlp blk).

(** [for block in stack: z = block(z)], layer [l] drawing the masks [mk l]. *)
Fixpoint forward_stack (stack : list t) (training : bool) (mk : nat → Masks)
    (l : nat) (z : Tensor3) : result Tensor3 :=
  match stack with
  | [] => Ok z
  | blk :: rest =>
      z <- forward blk training (mk l) z;;
      forward_stack rest training mk (S l) z
  end.

Abbreviation obj := (t_ ref ref).

(** def __init__(self, config) *)
Definition __init__ (config : GPTConfig.t) (has_flash : bool) : Init obj :=
  let n := GPTConfig.n_embd config in
  ln_1 <~ LayerNorm.__init__ n (GPTConfig.bias config);;
  attn <~ CausalSelfAttention.__init__ config has_flash;;
  ln_2 <~ LayerNorm.__init__ n (GPTConfig.bias config);;
  mlp <~ MLP.__init__ config;;
  ret {| ln_1 := ln_1; attn := attn; ln_2 := ln_2; mlp := mlp |}.

(** [[Block(config) for _ in range(n)]] *)
Fixpoint init_stack (config : GPTConfig.t) (has_flash : bool) (n : nat) : Init (list obj) :=
  match n with
  | 0 => ret []
  | S n' =>
      blk <~ __init__ config has_flash;;
      rest <~ init_stack config has_flash n';;
      ret (blk :: rest)
  end.

(** [module.apply(self._init_weights)] on one block: its four linear
    layers ([LayerNorm] is neither Linear nor Embedding). *)
Definition apply_init_weights (blk : obj) : Init unit :=
  _ <~ Linear._init_weights (CausalSelfAttention.c_attn (attn blk));;
  _ <~ Linear._init_weights (CausalSelfAttention.c_proj (attn blk));;
  _ <~ Linear._init_weights (MLP.c_fc (mlp blk));;
  Linear._init_weights (MLP.c_proj (mlp blk)).

(** Lines 240-242 on one block: the two parameters named
    [...c_proj.weight]. *)
Definition scaled_init (std : R) (blk : obj) : Init unit :=
  _ <~ normal_ (Linear.weight (CausalSelfAttention.c_proj (attn blk))) 0 std;;
  normal_ (Linear.weight (MLP.c_proj (mlp blk))) 0 std.

(** [for x in l: f(x)] *)
Fixpoint for_each {A} (f : A → Init unit) (l : list A) : Init unit :=
  match l with
  | [] => ret tt
  | x :: l' => _ <~ f x;; for_each f l'
  end.

Definition resolve (h : list tensor) (o : obj) : option t :=
  match LayerNorm.resolve h (ln_1 o), CausalSelfAttention.resolve h (attn o),
        LayerNorm.resolve h (ln_2 o), MLP.resolve h (mlp o) with
  | Some l1, Some a, Some l2, Some m =>
      Some {| ln_1 := l1; attn := a; ln_2 := l2; mlp := m |}
  | _, _, _, _ => None
  end.

Fixpoint resolve_stack (h : list tensor) (l : list obj) : option (list t) :=
  match l with
  | [] => Some []
  | o :: l' =>
      match resolve h o, resolve_stack h l' with
      | Some b, Some bs => Some (b :: bs)
      | _, _ => None
      end
  end.

End Block.

(** ** Integer tensors

    [idx] and [targets] are LongTensors of shape [(size0, size1)]; the shape
    is kept beside the rows because [idx.size()] is defined for an empty
    batch too. *)
Record LongTensor := { size0 : nat; size1 : nat; data : list (list Z) }.

Definition wf_long (x : LongTensor) : Prop := has_shape2 (data x) (size0 x) (size1 x).

(** ** Library functions used by the losses, the logging and the sampler *)

(** Python's [round(x, 3)]: to the nearest multiple of 1/1000, ties to even. *)
Definition round_half_even (y : R) : Z :=
  let f := Int_part y in
  let r := (y - IZR f)%R in
  if Rlt_dec r (1 / 2) then f
  else if Rlt_dec (1 / 2) r then (f + 1)%Z
  else if Z.even f then f else (f + 1)%Z.

Definition round3 (x : R) : R := (IZR (round_half_even (x * 1000)) / 1000)%R.

(** [torch.argmax(row)]: position of the first largest entry. *)
Fixpoint argmax_from (best : R) (bi i : nat) (l : Vec) : nat :=
  match l with
  | [] => bi
  | x :: l' =>
      if Rlt_dec best x then argmax_from x i (S i) l'
      else argmax_from best bi (S i) l'
  end.

Definition argmax (l : Vec) : nat :=
  match l with [] => 0 | x :: l' => argmax_from x 0 1 l' end.

(** The values of [torch.topk]: the row sorted from largest to smallest. *)
Fixpoint insert_desc (x : R) (l : Vec) : Vec :=
  match l with
  | [] => [x]
  | y :: l' => if Rle_dec y x then x :: l else y :: insert_desc x l'
  end.

Definition sort_desc (l : Vec) : Vec := foldr insert_desc [] l.

(** [torch.multinomial(probs, num_samples=1)] on one row.  The row is a
    vector of non-negative weights; a row of total weight zero raises.  The
    draw behind the sample is a uniform number [u] of [0, 1): the sample is
    the index whose interval of the cumulative weights holds
    [u * sum(probs)]. *)
Fixpoint inverse_cdf (probs : Vec) (u : R) : nat :=
  match probs with
  | [] => 0
  | p :: ps => if Rlt_dec u p then 0 else S (inverse_cdf ps (u - p))
  end.

Definition multinomial (probs : Vec) (u : R) : result nat :=
  if Rlt_dec 0 (rsum probs) then Ok (inverse_cdf probs (u * rsum probs))
  else Raise RuntimeError.

(** [torch.bincount(x, minlength=n)]: negative entries are refused; the
    result has [max(n, max(x) + 1)] bins. *)
Definition bincount (x : list Z) (minlength : nat) : result (list nat) :=
  if decide (Forall (λ v, 0 ≤ v)%Z x) then
    let bins := foldr Nat.max minlength ((λ v, S (Z.to_nat v)) <$> x) in
    Ok ((λ c, length (filter (λ v, Z.to_nat v = c) x)) <$> seq 0 bins)
  else Raise RuntimeError.

(** [F.cross_entropy(input, target, ignore_index)] with the default mean
    reduction: the mean of [-log_softmax(input[n])[target[n]]] over the
    rows whose target is not [ignore_index]. *)
Definition nll (row : Vec) (c : nat) : R :=
  (- ln (default 0 (softmax (Fin <$> row) !! c)))%R.

Definition cross_entropy_term (ignore_index : Z) (row : Vec) (tg : Z) : result (option R) :=
  if decide (tg = ignore_index) then Ok None
  else if decide (0 ≤ tg < Z.of_nat (length row))%Z then Ok (Some (nll row (Z.to_nat tg)))
  else Raise IndexError.

Definition cross_entropy (input : Mat) (target : list Z) (ignore_index : Z) : result R :=
  if decide (length input = length target) then
    terms <- mapR (λ rt, cross_entropy_term ignore_index rt.1 rt.2) (zip input target);;
    let kept := omap (λ o : option R, o) terms in
    Ok (rsum kept / INR (length kept))%R
  else Raise ValueError.

(** Elementwise product of a row vector with a row under broadcasting:
    equal sizes, or one of the two of size one. *)
Definition broadcast_mul (h row : Vec) : result Vec :=
  if decide (length h = length row) then Ok (zip_with Rmult h row)
  else match h, row with
       | [h0], _ => Ok (Rmult h0 <$> row)
       | _, [r0] => Ok ((λ x, x * r0)%R <$> h)
       | _, _ => Raise RuntimeError
       end.

(** [logits2.size(-1)] *)
Definition size_last (x : Tensor3) : nat :=
  match x with (row :: _) :: _ => length row | _ => 0 end.

(** [F.softmax(logits2, dim=-1).mean(dim=1)] for one batch element: the
    mean over the positions of the softmax rows, column by column. *)
Definition softmax_mean (n : nat) (m : Mat) : Vec :=
  (λ c, mean ((λ row, default 0%R (softmax (Fin <$> row) !! c)) <$> m)) <$> seq 0 n.

(** def _custom_loss(logits2, targets) *)
Definition _custom_loss (logits2 : Tensor3) (targets : LongTensor) : result R :=
  let targets_1d := concat (data targets) in
  target_hist <- bincount targets_1d (size_last logits2);;
  let target_hist := INR <$> target_hist in
  let target_hist := (λ x, x / rsum target_hist)%R <$> target_hist in
  let softmax_logits_mean := softmax_mean (size_last logits2) <$> logits2 in
  (* loss = -(target_hist.unsqueeze(0) * torch.log(softmax_logits_mean + 1e-12)) *)
  loss <- mapR (λ sm,
            prod <- broadcast_mul target_hist
                      ((λ x, ln (x + 1 / 1000000000000))%R <$> sm);;
            Ok (Ropp <$> prod)) softmax_logits_mean;;
  Ok (mean (mean <$> loss)).

(** ** class GPT *)
Module GPT.

(** [self.transformer.wte] is the field [transformer_wte], and so on. *)
Record t_ (M V : Type) := {
  config : GPTConfig.t;
  training : bool;
  transformer_wte : Embedding.t_ M V;
  transformer_wpe : Embedding.t_ M V;
  transformer_drop : R;
  transformer_h : list (Block.t_ M V);
  transformer_ln_f : LayerNorm.t_ M V;
  NUM_INTENSITIES : nat;
  encoder_wte : Embedding.t_ M V;
  encoder_wpe : Embedding.t_ M V;
  encoder_wie : Embedding.t_ M V;
  encoder_drop : R;
  encoder_h : list (Block.t_ M V);
  encoder_ln_f : LayerNorm.t_ M V;
  encoder_bottleneck : Linear.t_ M V;
  decoder_unbottleneck : Linear.t_ M V;
  decoder_h : list (Block.t_ M V);
  decoder_drop : R;
  decoder_ln_f : LayerNorm.t_ M V;
  lm_head : Linear.t_ M V;
}.
Arguments config {M V} _.
Arguments training {M V} _.
Arguments transformer_wte {M V} _.
Arguments transformer_wpe {M V} _.
Arguments transformer_drop {M V} _.
Arguments transformer_h {M V} _.
Arguments transformer_ln_f {M V} _.
Arguments NUM_INTENSITIES {M V} _.
Arguments encoder_wte {M V} _.
Arguments encoder_wpe {M V} _.
Arguments encoder_wie {M V} _.
Arguments encoder_drop {M V} _.
Arguments encoder_h {M V} _.
Arguments encoder_ln_f {M V} _.
Arguments encoder_bottleneck {M V} _.
Arguments decoder_unbottleneck {M V} _.
Arguments decoder_h {M V} _.
Arguments decoder_drop {M V} _.
Arguments decoder_ln_f {M V} _.
Arguments lm_head {M V} _.
Abbreviation t := (t_ Mat Vec).

(** The outcomes of the random draws of one call of [forward], in the
    order the code makes them. *)
Record Draws := {
  ins : list nat;                        (* torch.randint(0, NUM_INTENSITIES, (t,)) *)
  encoder_drop_keep : Mask;              (* self.encoder.drop *)
  decoder_h_keep : nat → Block.Masks;    (* the blocks of self.decoder.h *)
  encoder_h_keep : nat → Block.Masks;    (* the blocks of self.encoder.h *)
  decoder_drop_keep : Mask;              (* self.decoder.drop *)
  u_status : R;                          (* random.random() of line 346 *)
  u_log : R;                             (* random.random() of line 352 *)
}.

(** What [forward] prints and writes. *)
Inductive event :=
| Print_TTT1 (tokens : list string)
| Print_TTT2 (tokens : list string)
| Print_TTT3 (loss2 alt_loss2 : R)
| Append_loss_vs_alt (loss2 : option R) (alt_loss2 : R)
| Print_LLL (loss2 : option R) (alt_loss2 : R).

(** What [forward] returns: [z_bottleneck], or the pair [(logits2, loss2)]. *)
Inductive output :=
| Bottleneck (z_bottleneck : Mat)
| Logits (logits2 : Tensor3) (loss2 : option R).

(** [z.view(z.size(0), -1)]: with no row at all the size [-1] stands for
    is ambiguous, and torch refuses. *)
Definition view_flat (z : Tensor3) : result Mat :=
  if decide (length z = 0) then Raise RuntimeError else Ok (@concat R <$> z).

(** [z_flat.view(z_flat.size(0), block_size, n_embd)] *)
Definition view_blocks (block_size n_embd : nat) (z_flat : Mat) : result Tensor3 :=
  if decide (Forall (λ r, length r = block_size * n_embd) z_flat) then
    Ok ((λ r, (λ i, take n_embd (drop (i * n_embd) r)) <$> seq 0 block_size) <$> z_flat)
  else Raise RuntimeError.

(** Lines 302-310: the encoder activations after the final normalisation. *)
Definition encoder_states (m : t) (d : Draws) (idx : LongTensor) : result Tensor3 :=
  let t := size1 idx in
  let pos := Z.of_nat <$> seq 0 t in
  let ins := Z.of_nat <$> ins d in
  tok_emb <- mapR (Embedding.forward (encoder_wte m)) (data idx);;
  pos_emb <- Embedding.forward (encoder_wpe m) pos;;
  ins_emb <- Embedding.forward (encoder_wie m) ins;;
  let z := dropout3 (encoder_drop m) (training m) (encoder_drop_keep d)
             ((λ e, madd e pos_emb) <$> tok_emb) in
  z <- Block.forward_stack (decoder_h m) (training m) (decoder_h_keep d) 0 z;;
  LayerNorm.forward (encoder_ln_f m) z.

(** Lines 311-314: the flat representation of one block and its
    projection to the bottleneck. *)
Definition encode (m : t) (d : Draws) (idx : LongTensor) : result Mat :=
  z <- encoder_states m d idx;;
  z_flat <- view_flat z;;
  Linear.forward2 (encoder_bottleneck m) z_flat.

(** Lines 320-329: the decoder path, from the bottleneck to the logits. *)
Definition decode (m : t) (d : Draws) (z_bottleneck : Mat) : result Tensor3 :=
  z_flat <- Linear.forward2 (decoder_unbottleneck m) z_bottleneck;;
  z <- view_blocks (GPTConfig.block_size (config m)) (GPTConfig.n_embd (config m)) z_flat;;
  z <- Block.forward_stack (encoder_h m) (training m) (encoder_h_keep d) 0 z;;
  let z := dropout3 (decoder_drop m) (training m) (decoder_drop_keep d) z in
  z <- LayerNorm.forward (decoder_ln_f m) z;;
  Linear.forward (lm_head m) z.

(** Lines 330-341.  [loss2] is [None] for Python's [None]; [alt_loss2] is
    [None] while the local variable is unbound. *)
Definition losses (logits2 : Tensor3) (targets : option LongTensor)
    : result (option R * option R) :=
  match targets with
  | None => Ok (None, None)
  | Some targets =>
      loss2 <- cross_entropy (concat logits2) (concat (data targets)) (-1);;
      alt_loss2 <- _custom_loss logits2 targets;;
      Ok (Some loss2, Some alt_loss2)
  end.

(** [float(loss2)]: [float(None)] is a TypeError. *)
Definition float_of (v : option R) : result R :=
  match v with Some x => Ok x | None => Raise TypeError end.

(** Reading the local variable [alt_loss2]. *)
Definition read_local (v : option R) : result R :=
  match v with Some x => Ok x | None => Raise UnboundLocalError end.

(** [[itos[int(t)] for t in row]]; a missing key is a KeyError. *)
Definition decode_tokens (itos : list string) (row : list Z) : result (list string) :=
  mapR (λ t, if decide (0 ≤ t)%Z then
               match itos !! Z.to_nat t with
               | Some s => Ok s
               | None => Raise KeyError
               end
             else Raise KeyError) row.

Definition first_row {A} (x : list A) : result A :=
  match x with r :: _ => Ok r | [] => Raise IndexError end.

(** Lines 346-354: the two status-logging branches. *)
Definition status (itos : list string) (d : Draws) (idx : LongTensor)
    (logits2 : Tensor3) (loss2 alt_loss2 : option R) : result (list event) :=
  ev1 <- (if Rlt_dec (u_status d) (5 / 10000) then
            l <- float_of loss2;;
            a <- read_local alt_loss2;;
            if Req_dec_T (round3 l) (round3 a) then Ok []
            else
              let most_likely_tokens :=
                fmap (M:=list) (fmap (M:=list) (λ row, Z.of_nat (argmax row))) logits2 in
              row1 <- first_row (data idx);;
              s1 <- decode_tokens itos row1;;
              row2 <- first_row most_likely_tokens;;
              s2 <- decode_tokens itos row2;;
              Ok [Print_TTT1 s1; Print_TTT2 s2; Print_TTT3 l a]
          else Ok []);;
  ev2 <- (if Rlt_dec (u_log d) (5 / 1000) then
            a <- read_local alt_loss2;;
            Ok [Append_loss_vs_alt loss2 a; Print_LLL loss2 a]
          else Ok []);;
  Ok (ev1 ++ ev2).

(** def forward(self, idx, targets=None, embedding=False); [itos] is the
    module-level table loaded from [data/ms2/meta.pkl]. *)
Definition forward (m : t) (itos : list string) (d : Draws)
    (idx : LongTensor) (targets : option LongTensor) (embedding : bool)
    : result (output * list event) :=
  let t := size1 idx in
  if decide (t ≤ GPTConfig.block_size (config m)) then
    z_bottleneck <- encode m d idx;;
    if embedding then Ok (Bottleneck z_bottleneck, [])
    else
      logits2 <- decode m d z_bottleneck;;
      ls <- losses logits2 targets;;
      ev <- status itos d idx logits2 ls.1 ls.2;;
      Ok (Logits logits2 ls.1, ev)
  else Raise AssertionError.

(** *** generate *)

Definition END_OF_SENTENCE_IDX : Z := 2.

(** The draws of one iteration of the sampling loop: those of the forward
    call, and the uniform number behind [torch.multinomial] for each row. *)
Record StepDraws := { forward_draws : Draws; u_sample : nat → R }.

(** [idx if idx.size(1) <= block_size else idx[:, -block_size:]]
    (the slice [-0:] is the whole row). *)
Definition crop (block_size : nat) (idx : LongTensor) : LongTensor :=
  if decide (size1 idx ≤ block_size) then idx
  else if decide (block_size = 0) then idx
  else {| size0 := size0 idx; size1 := block_size;
          data := (λ r, drop (length r - block_size) r) <$> data idx |}.

(** [logits[:, -1, :]] *)
Definition last_position (logits : Tensor3) : result Mat :=
  mapR (λ m, match last m with Some r => Ok r | None => Raise IndexError end) logits.

(** Lines 500-502 on one row: [torch.topk] refuses a negative [k],
    [v[:, [-1]]] refuses an empty [v], and every logit below the [k]-th
    largest becomes [-inf]. *)
Definition top_k_filter (top_k : option Z) (row : Vec) : result (list ext) :=
  match top_k with
  | None => Ok (Fin <$> row)
  | Some top_k =>
      let k := Z.min top_k (Z.of_nat (length row)) in
      if decide (k < 0)%Z then Raise RuntimeError
      else if decide (k = 0)%Z then Raise IndexError
      else
        let kth := default 0%R (sort_desc row !! (Z.to_nat k - 1)) in
        Ok ((λ x, if Rlt_dec x kth then NegInf else Fin x) <$> row)
  end.

(** Lines 498-506 on one row.  A zero temperature leaves no finite logit:
    softmax then yields nan and [torch.multinomial] refuses the row. *)
Definition sample_row (temperature : R) (top_k : option Z) (u : R) (row : Vec) : result Z :=
  let logits := (λ x, x / temperature)%R <$> row in
  logits <- top_k_filter top_k logits;;
  let probs := softmax logits in
  if Req_dec_T temperature 0 then Raise RuntimeError
  else
    idx_next <- multinomial probs u;;
    Ok (Z.of_nat idx_next).

(** [torch.cat((idx, idx_next), dim=1)] *)
Definition cat (idx : LongTensor) (idx_next : list Z) : LongTensor :=
  {| size0 := size0 idx; size1 := S (size1 idx);
     data := zip_with (λ r x, r ++ [x]) (data idx) idx_next |}.

(** [if idx_next == END_OF_SENTENCE_IDX]: the truth value of a tensor
    exists only when it has exactly one element. *)
Definition is_end (idx_next : list Z) : result bool :=
  match idx_next with
  | [x] => Ok (bool_decide (x = END_OF_SENTENCE_IDX))
  | _ => Raise RuntimeError
  end.

(** One iteration of the loop of lines 492-512: the extended sequence and
    whether the loop breaks. *)
Definition sample_step (m : t) (itos : list string) (d : StepDraws)
    (temperature : R) (top_k : option Z) (idx : LongTensor)
    : result (LongTensor * bool) :=
  let idx_cond := crop (GPTConfig.block_size (config m)) idx in
  out <- forward m itos (forward_draws d) idx_cond None false;;
  match out.1 with
  | Logits logits _ =>
      logits <- last_position logits;;
      idx_next <- mapR (λ x, x)
                    (imap (λ b row, sample_row temperature top_k (u_sample d b) row) logits);;
      let idx := cat idx idx_next in
      stop <- is_end idx_next;;
      Ok (idx, stop)
  | Bottleneck _ => Raise ValueError   (* not returned when embedding is False *)
  end.

(** [for _ in range(n)]: iteration [step] uses the draws [draws step]. *)
Fixpoint generate_loop (m : t) (itos : list string) (draws : nat → StepDraws)
    (temperature : R) (top_k : option Z) (n step : nat) (idx : LongTensor)
    : result LongTensor :=
  match n with
  | 0 => Ok idx
  | S n' =>
      r <- sample_step m itos (draws step) temperature top_k idx;;
      if r.2 then Ok r.1
      else generate_loop m itos draws temperature top_k n' (S step) r.1
  end.

(** def generate(self, idx, max_new_tokens, temperature=1.0, top_k=None) *)
Definition generate (m : t) (itos : list string) (draws : nat → StepDraws)
    (idx : LongTensor) (max_new_tokens : Z) (temperature : R) (top_k : option Z)
    : result LongTensor :=
  generate_loop m itos draws temperature top_k (Z.to_nat max_new_tokens) 0 idx.

(** *** Construction *)

Abbreviation obj := (t_ ref ref).

(** [module.weight = p]: the module now holds the parameter object [p]. *)
Definition set_weight (e : Embedding.obj) (p : ref) : Embedding.obj :=
  {| Embedding.weight := p |}.

(** [self.apply(self._init_weights)]: the children in the order of their
    registration. *)
Definition apply_init_weights (self : obj) : Init unit :=
  _ <~ Embedding._init_weights (transformer_wte self);;
  _ <~ Embedding._init_weights (transformer_wpe self);;
  _ <~ Block.for_each Block.apply_init_weights (transformer_h self);;
  _ <~ Embedding._init_weights (encoder_wte self);;
  _ <~ Embedding._init_weights (encoder_wpe self);;
  _ <~ Embedding._init_weights (encoder_wie self);;
  _ <~ Block.for_each Block.apply_init_weights (encoder_h self);;
  _ <~ Linear._init_weights (encoder_bottleneck self);;
  _ <~ Linear._init_weights (decoder_unbottleneck self);;
  _ <~ Block.for_each Block.apply_init_weights (decoder_h self);;
  Linear._init_weights (lm_head self).

(** def __init__(self, config) *)
Definition __init__ (config : GPTConfig.t) (has_flash : bool) : Init obj :=
  let n := GPTConfig.n_embd config in
  let bs := GPTConfig.block_size config in
  let bias := GPTConfig.bias config in
  t_wte <~ Embedding.__init__ (GPTConfig.vocab_size config) n 0;;
  t_wpe <~ Embedding.__init__ bs n 0;;
  t_drop <~ nn_Dropout (GPTConfig.dropout config);;
  t_h <~ Block.init_stack config has_flash (GPTConfig.n_layer config);;
  t_ln_f <~ LayerNorm.__init__ n bias;;
  e_wte <~ Embedding.__init__ (GPTConfig.vocab_size config) n 0;;
  e_wpe <~ Embedding.__init__ bs n 0;;
  e_wie <~ Embedding.__init__ 10 n 0;;
  e_drop <~ nn_Dropout (GPTConfig.dropout config);;
  e_h <~ Block.init_stack config has_flash (GPTConfig.n_layer config);;
  e_ln_f <~ LayerNorm.__init__ n bias;;
  e_bottleneck <~ Linear.__init__ (bs * n) (GPTConfig.n_bottleneck config) true;;
  d_unbottleneck <~ Linear.__init__ (GPTConfig.n_bottleneck config) (bs * n) true;;
  d_h <~ Block.init_stack config has_flash (GPTConfig.n_layer config);;
  d_drop <~ nn_Dropout (GPTConfig.dropout config);;
  d_ln_f <~ LayerNorm.__init__ n bias;;
  head <~ Linear.__init__ n (GPTConfig.vocab_size config) false;;
  (* self.transformer.wte.weight = self.lm_head.weight
     self.encoder.wte.weight = self.lm_head.weight *)
  let t_wte := set_weight t_wte (Linear.weight head) in
  let e_wte := set_weight e_wte (Linear.weight head) in
  let self :=
    {| config := config; training := true;
       transformer_wte := t_wte; transformer_wpe := t_wpe;
       transformer_drop := t_drop;
       transformer_h := t_h; transformer_ln_f := t_ln_f;
       NUM_INTENSITIES := 10;
       encoder_wte := e_wte; encoder_wpe := e_wpe; encoder_wie := e_wie;
       encoder_drop := e_drop;
       encoder_h := e_h; encoder_ln_f := e_ln_f; encoder_bottleneck := e_bottleneck;
       decoder_unbottleneck := d_unbottleneck; decoder_h := d_h;
       decoder_drop := d_drop; decoder_ln_f := d_ln_f;
       lm_head := head |} in
  _ <~ apply_init_weights self;;
  let std := (2 / 100 / sqrt (2 * INR (GPTConfig.n_layer config)))%R in
  _ <~ Block.for_each (Block.scaled_init std) (transformer_h self);;
  _ <~ Block.for_each (Block.scaled_init std) (encoder_h self);;
  _ <~ Block.for_each (Block.scaled_init std) (decoder_h self);;
  ret self.

(** The tensors a module graph denotes in a heap. *)
Definition resolve (h : list tensor) (o : obj) : option t :=
  t_wte ← Embedding.resolve h (transformer_wte o);
  t_wpe ← Embedding.resolve h (transformer_wpe o);
  t_h ← Block.resolve_stack h (transformer_h o);
  t_ln_f ← LayerNorm.resolve h (transformer_ln_f o);
  e_wte ← Embedding.resolve h (encoder_wte o);
  e_wpe ← Embedding.resolve h (encoder_wpe o);
  e_wie ← Embedding.resolve h (encoder_wie o);
  e_h ← Block.resolve_stack h (encoder_h o);
  e_ln_f ← LayerNorm.resolve h (encoder_ln_f o);
  e_bottleneck ← Linear.resolve h (encoder_bottleneck o);
  d_unbottleneck ← Linear.resolve h (decoder_unbottleneck o);
  d_h ← Block.resolve_stack h (decoder_h o);
  d_ln_f ← LayerNorm.resolve h (decoder_ln_f o);
  head ← Linear.resolve h (lm_head o);
  Some {| config := config o; training := training o;
          transformer_wte := t_wte; transformer_wpe := t_wpe;
          transformer_drop := transformer_drop o;
          transformer_h := t_h; transformer_ln_f := t_ln_f;
          NUM_INTENSITIES := NUM_INTENSITIES o;
          encoder_wte := e_wte; encoder_wpe := e_wpe; encoder_wie := e_wie;
          encoder_drop := encoder_drop o;
          encoder_h := e_h; encoder_ln_f := e_ln_f; encoder_bottleneck := e_bottleneck;
          decoder_unbottleneck := d_unbottleneck; decoder_h := d_h;
          decoder_drop := decoder_drop o; decoder_ln_f := d_ln_f;
          lm_head := head |}.

(** [self(idx, targets, embedding)] on the module graph: [forward] reads
    the parameters and assigns none, so the heap and the graph are handed
    back as they came.  (A reference to no object cannot be built by
    [__init__]; reading one is answered with a RuntimeError.) *)
Definition call (h : list tensor) (self : obj) (itos : list string) (d : Draws)
    (idx : LongTensor) (targets : option LongTensor) (embedding : bool)
    : result (output * list event) * list tensor * obj :=
  (match resolve h self with
   | Some m => forward m itos d idx targets embedding
   | None => Raise RuntimeError
   end, h, self).

(** The three places of the tied weight hold one parameter object. *)
Definition tied (self : obj) : Prop :=
  Embedding.weight (transformer_wte self) = Linear.weight (lm_head self) ∧
  Embedding.weight (encoder_wte self) = Linear.weight (lm_head self).

(** The parameter shapes [__init__] creates for a configuration. *)
Definition wf (m : t) : Prop :=
  let c := config m in
  let C := GPTConfig.n_embd c in
  let bs := GPTConfig.block_size c in
  NUM_INTENSITIES m = 10 ∧
  Embedding.wf (GPTConfig.vocab_size c) C (encoder_wte m) ∧
  Embedding.wf bs C (encoder_wpe m) ∧
  Embedding.wf (NUM_INTENSITIES m) C (encoder_wie m) ∧
  Forall (Block.wf C bs) (encoder_h m) ∧
  LayerNorm.wf C (encoder_ln_f m) ∧
  Linear.wf (bs * C) (GPTConfig.n_bottleneck c) (encoder_bottleneck m) ∧
  Linear.wf (GPTConfig.n_bottleneck c) (bs * C) (decoder_unbottleneck m) ∧
  Forall (Block.wf C bs) (decoder_h m) ∧
  LayerNorm.wf C (decoder_ln_f m) ∧
  Linear.wf C (GPTConfig.vocab_size c) (lm_head m).

End GPT.

(** Token ids accepted by an embedding table of [vocab_size] rows. *)
Definition valid_ids (vocab_size : nat) (idx : LongTensor) : Prop :=
  Forall (Forall (λ i, 0 ≤ i < Z.of_nat vocab_size)%Z) (data idx).

(** The contract of [torch.randint(0, NUM_INTENSITIES, (t,))]. *)
Definition valid_ins (m : GPT.t) (d : GPT.Draws) : Prop :=
  Forall (λ i, i < GPT.NUM_INTENSITIES m) (GPT.ins d).

(** ** _intensity_penalty *)

(** def _intensity_penalty(intensity, inflection_point=5.5, steepness=2.0):
    a sigmoid of the intensity, element by element.  Over the reals the
    sigmoid never reaches 0 or 1; float32 rounds it to exactly 0.0 or 1.0
    far from the inflection point, so the statements about the penalty
    keep to what rounding preserves. *)
Definition _intensity_penalty (intensity : Vec) (inflection_point steepness : R) : Vec :=
  let adjusted_intensity := (λ x, (x - inflection_point) * steepness)%R <$> intensity in
  let penalty := (λ a, 1 / (1 + exp (- a)))%R <$> adjusted_intensity in
  penalty.

(** ** GPT.crop_block_size *)

(** [self.config.block_size = block_size] *)
Definition set_block_size (c : GPTConfig.t) (block_size : nat) : GPTConfig.t :=
  {| GPTConfig.block_size := block_size;
     GPTConfig.vocab_size := GPTConfig.vocab_size c;
     GPTConfig.n_layer := GPTConfig.n_layer c;
     GPTConfig.n_head := GPTConfig.n_head c;
     GPTConfig.n_embd := GPTConfig.n_embd c;
     GPTConfig.dropout := GPTConfig.dropout c;
     GPTConfig.bias := GPTConfig.bias c;
     GPTConfig.n_bottleneck := GPTConfig.n_bottleneck c |}.

(** [if hasattr(block.attn, 'bias'):
       block.attn.bias = block.attn.bias[:,:,:block_size,:block_size]]:
    the buffer exists only without flash attention. *)
Definition crop_bias {M V} (block_size : nat) (a : CausalSelfAttention.t_ M V)
    : CausalSelfAttention.t_ M V :=
  if CausalSelfAttention.flash a then a
  else {| CausalSelfAttention.c_attn := CausalSelfAttention.c_attn a;
          CausalSelfAttention.c_proj := CausalSelfAttention.c_proj a;
          CausalSelfAttention.n_head := CausalSelfAttention.n_head a;
          CausalSelfAttention.n_embd := CausalSelfAttention.n_embd a;
          CausalSelfAttention.dropout := CausalSelfAttention.dropout a;
          CausalSelfAttention.flash := CausalSelfAttention.flash a;
          CausalSelfAttention.bias_size := CausalSelfAttention.bias_size a `min` block_size |}.

Definition crop_block {M V} (block_size : nat) (blk : Block.t_ M V) : Block.t_ M V :=
  {| Block.ln_1 := Block.ln_1 blk;
     Block.attn := crop_bias block_size (Block.attn blk);
     Block.ln_2 := Block.ln_2 blk;
     Block.mlp := Block.mlp blk |}.

(** The module graph after the three assignments of [crop_block_size]:
    the new block size, the new position table [wpe] of the primary path
    and its cropped mask buffers.  Nothing of the encoder and the decoder
    is assigned. *)
Definition cropped {M V} (self : GPT.t_ M V) (block_size : nat) (wpe : M) : GPT.t_ M V :=
  {| GPT.config := set_block_size (GPT.config self) block_size;
     GPT.training := GPT.training self;
     GPT.transformer_wte := GPT.transformer_wte self;
     GPT.transformer_wpe := {| Embedding.weight := wpe |};
     GPT.transformer_drop := GPT.transformer_drop self;
     GPT.transformer_h := crop_block block_size <$> GPT.transformer_h self;
     GPT.transformer_ln_f := GPT.transformer_ln_f self;
     GPT.NUM_INTENSITIES := GPT.NUM_INTENSITIES self;
     GPT.encoder_wte := GPT.encoder_wte self;
     GPT.encoder_wpe := GPT.encoder_wpe self;
     GPT.encoder_wie := GPT.encoder_wie self;
     GPT.encoder_drop := GPT.encoder_drop self;
     GPT.encoder_h := GPT.encoder_h self;
     GPT.encoder_ln_f := GPT.encoder_ln_f self;
     GPT.encoder_bottleneck := GPT.encoder_bottleneck self;
     GPT.decoder_unbottleneck := GPT.decoder_unbottleneck self;
     GPT.decoder_h := GPT.decoder_h self;
     GPT.decoder_drop := GPT.decoder_drop self;
     GPT.decoder_ln_f := GPT.decoder_ln_f self;
     GPT.lm_head := GPT.lm_head self |}.

(** def crop_block_size(self, block_size).  The slice [weight[:block_size]]
    reads the parameter object of [transformer.wpe]; [nn.Parameter] makes
    a new object of it.  (A reference to no object cannot be built by
    [__init__]; reading one is answered with a RuntimeError.) *)
Definition crop_block_size (self : GPT.obj) (block_size : nat) : Init GPT.obj :=
  if decide (block_size ≤ GPTConfig.block_size (GPT.config self)) then
    λ s, match get_mat (heap s) (Embedding.weight (GPT.transformer_wpe self)) with
         | Some w =>
             (p <~ nn_Parameter (T2 (take block_size w));;
              ret (cropped self block_size p)) s
         | None => Raise RuntimeError
         end
  else raise AssertionError.

(** ** Parameters of a module graph

    [module.parameters()] yields the parameter objects of a module and of
    its children in the order of registration; the buffer [attn.bias] is
    no parameter. *)
Definition LayerNorm_parameters (o : LayerNorm.obj) : list ref :=
  LayerNorm.weight o :: option_list (LayerNorm.bias o).

Definition Linear_parameters (o : Linear.obj) : list ref :=
  Linear.weight o :: option_list (Linear.bias o).

Definition Embedding_parameters (o : Embedding.obj) : list ref := [Embedding.weight o].

Definition Attention_parameters (o : CausalSelfAttention.obj) : list ref :=
  Linear_parameters (CausalSelfAttention.c_attn o) ++
  Linear_parameters (CausalSelfAttention.c_proj o).

Definition MLP_parameters (o : MLP.obj) : list ref :=
  Linear_parameters (MLP.c_fc o) ++ Linear_parameters (MLP.c_proj o).

Definition Block_parameters (o : Block.obj) : list ref :=
  LayerNorm_parameters (Block.ln_1 o) ++ Attention_parameters (Block.attn o) ++
  LayerNorm_parameters (Block.ln_2 o) ++ MLP_parameters (Block.mlp o).

Definition Stack_parameters (os : list Block.obj) : list ref :=
  concat (Block_parameters <$> os).

(** Every place of the module graph that holds a parameter, in the order
    of registration: [transformer], [encoder], [decoder], [lm_head]. *)
Definition parameter_places (self : GPT.obj) : list ref :=
  Embedding_parameters (GPT.transformer_wte self) ++
  Embedding_parameters (GPT.transformer_wpe self) ++
  Stack_parameters (GPT.transformer_h self) ++
  LayerNorm_parameters (GPT.transformer_ln_f self) ++
  Embedding_parameters (GPT.encoder_wte self) ++
  Embedding_parameters (GPT.encoder_wpe self) ++
  Embedding_parameters (GPT.encoder_wie self) ++
  Stack_parameters (GPT.encoder_h self) ++
  LayerNorm_parameters (GPT.encoder_ln_f self) ++
  Linear_parameters (GPT.encoder_bottleneck self) ++
  Linear_parameters (GPT.decoder_unbottleneck self) ++
  Stack_parameters (GPT.decoder_h self) ++
  LayerNorm_parameters (GPT.decoder_ln_f self) ++
  Linear_parameters (GPT.lm_head self).

(** A parameter object held in several places is yielded once, at its
    first place ([remove_duplicate=True]). *)
Fixpoint unique (seen l : list ref) : list ref :=
  match l with
  | [] => []
  | r :: l' => if decide (r ∈ seen) then unique seen l' else r :: unique (r :: seen) l'
  end.

(** [self.parameters()] *)
Definition parameters (self : GPT.obj) : list ref := unique [] (parameter_places self).

(** [p.numel()] and [p.dim()] of the object at a reference. *)
Definition dim (t : tensor) : nat :=
  match t with T1 _ => 1 | T2 _ => 2 end.
Definition numel_at (h : list tensor) (r : ref) : nat := from_option numel 0 (h !! r).

(** def get_num_params(self, non_embedding=True) *)
Definition get_num_params (h : list tensor) (self : GPT.obj) (non_embedding : bool) : Z :=
  let n_params := Z.of_nat (sum_list_with (numel_at h) (parameters self)) in
  if non_embedding then
    (n_params - Z.of_nat (numel_at h (Embedding.weight (GPT.transformer_wpe self))))%Z
  else n_params.

(** ** GPT.configure_optimizers *)




(** ** GPT.estimate_mfu *)

(** def estimate_mfu(self, fwdbwd_per_iter, dt).  [dt] is a float;
    [n_embd // n_head] and [1.0 / dt] raise ZeroDivisionError on a zero
    divisor. *)
Definition estimate_mfu (h : list tensor) (self : GPT.obj) (fwdbwd_per_iter dt : R)
    : result R :=
  let N := get_num_params h self true in
  let cfg := GPT.config self in
  let L := Z.of_nat (GPTConfig.n_layer cfg) in
  let H := Z.of_nat (GPTConfig.n_head cfg) in
  Q <- (if decide (GPTConfig.n_head cfg = 0) then Raise ZeroDivisionError
        else Ok (Z.of_nat (GPTConfig.n_embd cfg / GPTConfig.n_head cfg))) ;;
  let T := Z.of_nat (GPTConfig.block_size cfg) in
  let flops_per_token := (6 * N + 12 * L * H * Q * T)%Z in
  let flops_per_fwdbwd := (flops_per_token * T)%Z in
  let flops_per_iter := (IZR flops_per_fwdbwd * fwdbwd_per_iter)%R in
  inverse <- (if Req_dec_T dt 0 then Raise ZeroDivisionError else Ok (1 / dt)%R) ;;
  let flops_achieved := (flops_per_iter * inverse)%R in
  let flops_promised := 312e12%R in
  let mfu := (flops_achieved / flops_promised)%R in
  Ok mfu.

(** ** Rank of a logit

    [count_greater x l] is the number of entries of [l] strictly above [x]:
    [x] is among the [k] highest entries of [l] when fewer than [k] entries
    are strictly above it. *)
Fixpoint count_greater (x : R) (l : Vec) : nat :=
  match l with
  | [] => 0
  | y :: l' => (if Rlt_dec x y then 1 else 0) + count_greater x l'
  end.

(** The running sequence after the tokens [toks] were appended one by one
    (batch of one sequence: [torch.cat] with a one-element column). *)
Definition append_tokens (idx : LongTensor) (toks : list Z) : LongTensor :=
  foldl (λ i c, GPT.cat i [c]) idx toks.

(** ** A model with constant parameters

    Every matrix entry holds [w], the normalisation scales hold one and the
    biases zero: a model of the shapes [__init__] creates, used to run the
    code on concrete inputs. *)
Definition const_linear (n_in n_out : nat) (bias : bool) (w : R) : Linear.t :=
  {| Linear.in_features := n_in; Linear.out_features := n_out;
     Linear.weight := replicate n_out (replicate n_in w);
     Linear.bias := if bias then Some (replicate n_out 0%R) else None |}.

Definition const_layer_norm (ndim : nat) (bias : bool) : LayerNorm.t :=
  {| LayerNorm.weight := replicate ndim 1%R;
     LayerNorm.bias := if bias then Some (replicate ndim 0%R) else None |}.

Definition const_embedding (num dim : nat) (w : R) : Embedding.t :=
  {| Embedding.weight := replicate num (replicate dim w) |}.

Definition const_block (c : GPTConfig.t) (flash : bool) (w : R) : Block.t :=
  let n := GPTConfig.n_embd c in
  let bias := GPTConfig.bias c in
  {| Block.ln_1 := const_layer_norm n bias;
     Block.attn :=
       {| CausalSelfAttention.c_attn := const_linear n (3 * n) bias w;
          CausalSelfAttention.c_proj := const_linear n n bias w;
          CausalSelfAttention.n_head := GPTConfig.n_head c;
          CausalSelfAttention.n_embd := n;
          CausalSelfAttention.dropout := GPTConfig.dropout c;
          CausalSelfAttention.flash := flash;
          CausalSelfAttention.bias_size := GPTConfig.block_size c |};
     Block.ln_2 := const_layer_norm n bias;
     Block.mlp :=
       {| MLP.c_fc := const_linear n (4 * n) bias w;
          MLP.c_proj := const_linear (4 * n) n bias w;
          MLP.dropout := GPTConfig.dropout c |} |}.

Definition const_model (c : GPTConfig.t) (flash training : bool) (w : R) : GPT.t :=
  let n := GPTConfig.n_embd c in
  let bs := GPTConfig.block_size c in
  let bias := GPTConfig.bias c in
  let lm_head := const_linear n (GPTConfig.vocab_size c) false w in
  {| GPT.config := c;
     GPT.training := training;
     GPT.transformer_wte := {| Embedding.weight := Linear.weight lm_head |};
     GPT.transformer_wpe := const_embedding bs n w;
     GPT.transformer_drop := GPTConfig.dropout c;
     GPT.transformer_h := replicate (GPTConfig.n_layer c) (const_block c flash w);
     GPT.transformer_ln_f := const_layer_norm n bias;
     GPT.NUM_INTENSITIES := 10;
     GPT.encoder_wte := {| Embedding.weight := Linear.weight lm_head |};
     GPT.encoder_wpe := const_embedding bs n w;
     GPT.encoder_wie := const_embedding 10 n w;
     GPT.encoder_drop := GPTConfig.dropout c;
     GPT.encoder_h := replicate (GPTConfig.n_layer c) (const_block c flash w);
     GPT.encoder_ln_f := const_layer_norm n bias;
     GPT.encoder_bottleneck := const_linear (bs * n) (GPTConfig.n_bottleneck c) true w;
     GPT.decoder_unbottleneck := const_linear (GPTConfig.n_bottleneck c) (bs * n) true w;
     GPT.decoder_h := replicate (GPTConfig.n_layer c) (const_block c flash w);
     GPT.decoder_drop := GPTConfig.dropout c;
     GPT.decoder_ln_f := const_layer_norm n bias;
     GPT.lm_head := lm_head |}.

(** The configuration of the example scenario of the specification:
    vocabulary [0 = PAD, 1 = START, 2 = END, 3, 4] and blocks of four. *)
Definition tiny_config : GPTConfig.t :=
  {| GPTConfig.block_size := 4; GPTConfig.vocab_size := 5; GPTConfig.n_layer := 1;
     GPTConfig.n_head := 1; GPTConfig.n_embd := 2; GPTConfig.dropout := 0%R;
     GPTConfig.bias := true; GPTConfig.n_bottleneck := 3 |}.

Definition tiny_model : GPT.t := const_model tiny_config true false (1 / 50)%R.

Definition no_masks : Block.Masks :=
  {| Block.attn_keep := λ _, true; Block.resid_keep := λ _, true; Block.mlp_keep := λ _, true |}.

(** Draws of one forward call on four positions; [u1] and [u2] are the two
    outcomes of [random.random()]. *)
Definition draws_with (u1 u2 : R) : GPT.Draws :=
  {| GPT.ins := [0; 0; 0; 0];
     GPT.encoder_drop_keep := λ _, true;
     GPT.decoder_h_keep := λ _, no_masks;
     GPT.encoder_h_keep := λ _, no_masks;
     GPT.decoder_drop_keep := λ _, true;
     GPT.u_status := u1; GPT.u_log := u2 |}.

Definition tiny_itos : list string :=
  ["[PAD]"; "[START]"; "[END]"; "m-1"; "m-2"]%string.

Definition long_tensor (rows : list (list Z)) (t : nat) : LongTensor :=
  {| size0 := length rows; size1 := t; data := rows |}.

(** The example scenario of the specification: the input [1,3,4,0] and
    the targets [3,4,2,-1], whose last position carries the ignore
    sentinel. *)
Definition example_input : LongTensor := long_tensor [[1; 3; 4; 0]]%Z 4.
Definition example_targets : LongTensor := long_tensor [[3; 4; 2; -1]]%Z 4.

(** The draws of one iteration of [generate] on the example model: the
    logging draws [u1], [u2] and the sampling draw [u]. *)
Definition step_draws (u1 u2 u : R) : GPT.StepDraws :=
  {| GPT.forward_draws := draws_with u1 u2; GPT.u_sample := λ _, u |}.

(** The conditioning prefix [1]: a single start token. *)
Definition start_prefix : LongTensor := long_tensor [[1]]%Z 1.

(** Draws for a forward call on one position. *)
Definition start_draws (u1 u2 u : R) : GPT.StepDraws :=
  {| GPT.forward_draws :=
       {| GPT.ins := [0];
          GPT.encoder_drop_keep := λ _, true;
          GPT.decoder_h_keep := λ _, no_masks;
          GPT.encoder_h_keep := λ _, no_masks;
          GPT.decoder_drop_keep := λ _, true;
          GPT.u_status := u1; GPT.u_log := u2 |};
     GPT.u_sample := λ _, u |}.

(** An interpreter that has built no parameter yet; [generator] is the
    stream its random number generator will give. *)
Definition fresh_state (generator : nat → R) : state :=
  {| heap := []; gen := generator; pos := 0 |}.


(** * data/ms2/prepare.py

    The script that turns the lines of [input_spectra.all.txt] into the
    token ids of [train.bin] and [val.bin] and into the tables of
    [meta.pkl] that [model.py] loads.  A line is given as the list of its
    tokens, [line.rstrip().split()]. *)
Module prepare.

Definition BLOCK_SIZE : nat := 128.
Definition PAD : string := "[PAD]".
Definition BOS : string := "[START]".
Definition EOS : string := "[END]".

(** Lines 24-28: every line is cut to [BLOCK_SIZE] tokens and filled up
    with [PAD]; the [assert] checks the length of the row just added. *)
Definition pad_line (tokens : list string) : result (list string) :=
  let d := take BLOCK_SIZE tokens in
  let row := d ++ replicate (BLOCK_SIZE - length d) PAD in
  if decide (length row = BLOCK_SIZE) then Ok row else Raise AssertionError.

Definition pad_lines (lines : list (list string)) : result (list (list string)) :=
  mapR pad_line lines.

(** [sorted(...)] on strings: Python compares strings code point by code
    point; the sort is a stable merge sort. *)
Definition sorted (l : list string) : list string :=
  @merge_sort string (λ a b, String.leb a b = true)
    (λ a b, decide (String.leb a b = true)) l.

(** Line 34: [PAD] first, then the other tokens of the data, each once,
    in sorted order. *)
Definition chars (data : list (list string)) : list string :=
  PAD :: sorted (remove_dups (filter (λ d, d ≠ PAD) (concat data))).

(** A dict built from a sequence of items: a later item replaces an
    earlier one with the same key. *)
Definition dict {K V} `{Countable K} (items : list (K * V)) : gmap K V :=
  foldl (λ m kv, <[kv.1 := kv.2]> m) ∅ items.

Definition enumerate {A} (l : list A) : list (nat * A) := imap pair l.

(** Lines 39-40 *)
Definition stoi (chars : list string) : gmap string nat :=
  dict ((λ ich : nat * string, (ich.2, ich.1)) <$> enumerate chars).
Definition itos (chars : list string) : gmap nat string :=
  dict (enumerate chars).

(** def encode(s): a token that is no key of [stoi] is a KeyError *)
Definition encode (stoi : gmap string nat) (s : list string) : result (list nat) :=
  mapR (λ c, match stoi !! c with Some i => Ok i | None => Raise KeyError end) s.

(** def decode(l) *)
Definition decode (itos : gmap nat string) (l : list nat) : result string :=
  toks <- mapR (λ i, match itos !! i with Some ch => Ok ch | None => Raise KeyError end) l;;
  Ok (String.concat " " toks).

(** [int(n*0.9)]: for every length a list can have, the product of [n]
    with the double nearest to 0.9 is truncated to the integer part of
    [9n/10]. *)
Definition split_point (n : nat) : nat := 9 * n / 10.

(** [np.array(ids, dtype=np.uint16)] on a list of Python integers: an
    integer that does not fit 16 bits is refused (the OverflowError of
    NumPy 2; older releases wrapped the value around). *)
Definition to_uint16 (ids : list nat) : result (list nat) :=
  if decide (Forall (λ i, Z.of_nat i < 65536)%Z ids) then Ok ids else Raise OverflowError.

(** What the script writes: the ids of the two files and the dictionary
    [meta]. *)
Record output := {
  train_ids : list nat;
  val_ids : list nat;
  meta_vocab_size : nat;
  meta_itos : gmap nat string;
  meta_stoi : gmap string nat;
  meta_block_size : nat;
}.

(** The script, from the lines read to the values written. *)
Definition main (lines : list (list string)) : result output :=
  data <- pad_lines lines;;
  let chars := chars data in
  let vocab_size := length chars in
  let stoi := stoi chars in
  let itos := itos chars in
  let n := length data in
  let train_data := take (split_point n) data in
  let val_data := drop (split_point n) data in
  train_ids <- encode stoi (concat train_data);;
  val_ids <- encode stoi (concat train_data);;
  train_ids <- to_uint16 train_ids;;
  val_ids <- to_uint16 val_ids;;
  Ok {| train_ids := train_ids; val_ids := val_ids;
        meta_vocab_size := vocab_size; meta_itos := itos; meta_stoi := stoi;
        meta_block_size := BLOCK_SIZE |}.

End prepare.

(** * data/ms2/create_real.py

    The part of the script that collects the spectra, from the table
    [spectra] on.  A row of the table has the columns the script reads;
    [spectra.groupby] yields the non-empty groups of rows of one
    spectrum. *)
Module create_real.

Record row := { precursor_mz : R; intensity : R; mz : R }.

(** for n, row in rows.iterrows(): the peaks below the threshold are
    skipped by [continue]; the [data.append] under it is never reached,
    and there is no other branch. *)
Definition collect_rows (data : list (list R)) (rows : list row) : list (list R) :=
  foldl (λ data row, if Rlt_dec (intensity row) 1e3 then data else data) data rows.

(** for spectra_id, rows in spectra.groupby(...) *)
Definition collect (groups : list (Z * (row * list row))) : list (list R) :=
  foldl (λ data g,
           let rows := g.2.1 :: g.2.2 in
           let first := g.2.1 in
           if Rlt_dec 200 (precursor_mz first) then
             if Rlt_dec (precursor_mz first) 1000 then collect_rows (data ++ [[]]) rows
             else data
           else data)
        [] groups.

(** data = [d for d in data if len(d) > 0] *)
Definition data (groups : list (Z * (row * list row))) : list (list R) :=
  filter (λ d, 0 < length d) (collect groups).

End create_real.

(** * Vocabulary of the statements *)

(** ** Calls

    A call that does not end in an AssertionError. *)
Definition never_asserts {A} (r : result A) : Prop := r ≠ Raise AssertionError.

(** One block of padding tokens. *)
Definition padding : LongTensor := long_tensor [[0; 0; 0; 0]]%Z 4.


(** Sorted from largest to smallest. *)
Definition descending (l : Vec) : Prop := StronglySorted (λ a b, b <= a)%R l.

(** The conditions under which one iteration runs to its end: a
    well-shaped model, one sequence of valid ids at least as long as the
    block, a temperature other than zero, a top-k of at least one, draws
    within their contracts, and no logging draw below its threshold. *)
Definition step_ready (m : GPT.t) (d : GPT.StepDraws) (temperature : R) (top_k : option Z) : Prop :=
  GPT.wf m ∧ 0 < GPTConfig.block_size (GPT.config m) ∧ 0 < GPTConfig.vocab_size (GPT.config m) ∧
  valid_ins m (GPT.forward_draws d) ∧
  ¬ (GPT.u_status (GPT.forward_draws d) < 5 / 10000)%R ∧
  ¬ (GPT.u_log (GPT.forward_draws d) < 5 / 1000)%R ∧
  temperature ≠ 0%R ∧ (∀ k, top_k = Some k → 1 ≤ k)%Z ∧
  (0 <= GPT.u_sample d 0 < 1)%R.

(** A running sequence the loop of [generate] can be entered with. *)
Definition sequence_ready (m : GPT.t) (idx : LongTensor) : Prop :=
  wf_long idx ∧ valid_ids (GPTConfig.vocab_size (GPT.config m)) idx ∧
  size0 idx = 1 ∧ GPTConfig.block_size (GPT.config m) ≤ size1 idx.


(** ** Heaps of parameter objects

    Two tensors of the same shape. *)
Definition same_shape (t t' : tensor) : Prop :=
  match t, t' with
  | T1 v, T1 v' => length v = length v'
  | T2 m, T2 m' => length <$> m = length <$> m'
  | _, _ => False
  end.

(** Every object of [h] is still in [h'], with its shape: objects are
    only added to a heap or overwritten in place. *)
Definition heap_le (h h' : list tensor) : Prop :=
  ∀ r t, h !! r = Some t → ∃ t', h' !! r = Some t' ∧ same_shape t t'.

(** A property of heaps that allocation and writing in place keep. *)
Definition mono (P : list tensor → Prop) : Prop := ∀ h h', heap_le h h' → P h → P h'.

(** From a heap satisfying [P] the constructor [m] returns an object [a]
    and a heap satisfying [Q a] in which every older object still has its
    shape. *)
Definition builds {A} (P : list tensor → Prop) (m : Init A) (Q : A → list tensor → Prop) : Prop :=
  ∀ s, P (heap s) →
    ∃ a s', m s = Ok (a, s') ∧ heap_le (heap s) (heap s') ∧ Q a (heap s').

(** A vector of length [n], a matrix of [rows] by [cols], an optional
    bias of length [n] at a reference. *)
Definition vec_at (n : nat) (r : ref) (h : list tensor) : Prop :=
  ∃ v, get_vec h r = Some v ∧ length v = n.

Definition mat_at (rows cols : nat) (r : ref) (h : list tensor) : Prop :=
  ∃ m, get_mat h r = Some m ∧ has_shape2 m rows cols.

Definition bias_at (n : nat) (b : option ref) (h : list tensor) : Prop :=
  match b with Some r => vec_at n r h | None => True end.

(** ** Module objects whose parameters have the shapes of their class *)

Definition LayerNorm_ok (n : nat) (o : LayerNorm.obj) (h : list tensor) : Prop :=
  vec_at n (LayerNorm.weight o) h ∧ bias_at n (LayerNorm.bias o) h.

Definition Linear_ok (n_in n_out : nat) (o : Linear.obj) (h : list tensor) : Prop :=
  Linear.in_features o = n_in ∧ Linear.out_features o = n_out ∧
  mat_at n_out n_in (Linear.weight o) h ∧ bias_at n_out (Linear.bias o) h.

Definition Embedding_ok (num dim : nat) (o : Embedding.obj) (h : list tensor) : Prop :=
  mat_at num dim (Embedding.weight o) h.

Definition Attention_ok (C bs : nat) (o : CausalSelfAttention.obj) (h : list tensor) : Prop :=
  CausalSelfAttention.n_embd o = C ∧ 0 < CausalSelfAttention.n_head o ∧
  CausalSelfAttention.n_head o * (CausalSelfAttention.n_embd o / CausalSelfAttention.n_head o)
    = CausalSelfAttention.n_embd o ∧
  CausalSelfAttention.bias_size o = bs ∧
  Linear_ok C (3 * C) (CausalSelfAttention.c_attn o) h ∧
  Linear_ok C C (CausalSelfAttention.c_proj o) h.

Definition MLP_ok (C : nat) (o : MLP.obj) (h : list tensor) : Prop :=
  Linear_ok C (4 * C) (MLP.c_fc o) h ∧ Linear_ok (4 * C) C (MLP.c_proj o) h.

Definition Block_ok (C bs : nat) (o : Block.obj) (h : list tensor) : Prop :=
  LayerNorm_ok C (Block.ln_1 o) h ∧ Attention_ok C bs (Block.attn o) h ∧
  LayerNorm_ok C (Block.ln_2 o) h ∧ MLP_ok C (Block.mlp o) h.

Definition Stack_ok (C bs : nat) (os : list Block.obj) (h : list tensor) : Prop :=
  Forall (λ o, Block_ok C bs o h) os.

(** A pass allocates nothing that is kept and changes no shape. *)
Definition keeps (m : Init unit) : Prop := builds (λ _, True) m (λ _ _, True).

(** What the library constructors ask of a configuration: a row for the
    padding index in the token and position tables ([nn.Embedding]) and a
    dropout probability in [0, 1] ([nn.Dropout]). *)
Definition constructible (c : GPTConfig.t) : Prop :=
  0 < GPTConfig.vocab_size c ∧ 0 < GPTConfig.block_size c ∧
  (0 <= GPTConfig.dropout c <= 1)%R.

Definition GPT_ok (c : GPTConfig.t) (self : GPT.obj) (h : list tensor) : Prop :=
  let C := GPTConfig.n_embd c in
  let bs := GPTConfig.block_size c in
  let V := GPTConfig.vocab_size c in
  (GPT.config self = c ∧ GPT.training self = true ∧ GPT.NUM_INTENSITIES self = 10) ∧
  Embedding_ok V C (GPT.transformer_wte self) h ∧
  Embedding_ok bs C (GPT.transformer_wpe self) h ∧
  Stack_ok C bs (GPT.transformer_h self) h ∧
  LayerNorm_ok C (GPT.transformer_ln_f self) h ∧
  Embedding_ok V C (GPT.encoder_wte self) h ∧
  Embedding_ok bs C (GPT.encoder_wpe self) h ∧
  Embedding_ok 10 C (GPT.encoder_wie self) h ∧
  Stack_ok C bs (GPT.encoder_h self) h ∧
  LayerNorm_ok C (GPT.encoder_ln_f self) h ∧
  Linear_ok (bs * C) (GPTConfig.n_bottleneck c) (GPT.encoder_bottleneck self) h ∧
  Linear_ok (GPTConfig.n_bottleneck c) (bs * C) (GPT.decoder_unbottleneck self) h ∧
  Stack_ok C bs (GPT.decoder_h self) h ∧
  LayerNorm_ok C (GPT.decoder_ln_f self) h ∧
  Linear_ok C V (GPT.lm_head self) h.

(** ** Constructors that raise *)

(** A constructor that raises [e] in every state. *)
Definition raises {A} (e : exn) (m : Init A) : Prop := ∀ s, m s = Raise e.

(** ** Shapes of the objects a constructor allocates *)

(** The dimension and the number of entries of a tensor. *)
Definition shape_of (t : tensor) : nat * nat := (dim t, numel t).
Definition shape_at (h : list tensor) (r : ref) : option (nat * nat) := shape_of <$> h !! r.

(** [grows m Q]: from any state the constructor [m] returns; the objects
    it adds to the heap sit at the next free references and have the
    shapes the allocation list [al] pairs them with; every older object
    keeps its shape; and [Q a al] holds of the result [a]. *)
Definition grows {A} (m : Init A) (Q : A → list (ref * (nat * nat)) → Prop) : Prop :=
  ∀ s, ∃ a s' al,
    m s = Ok (a, s') ∧ heap_le (heap s) (heap s') ∧
    al.*1 = seq (length (heap s)) (length al) ∧
    length (heap s') = length (heap s) + length al ∧
    Forall (λ p, shape_at (heap s') p.1 = Some p.2) al ∧
    Q a al.

(** The allocation list of an object with the parameters [ps], of the
    shapes [sig]. *)
Definition holds (ps : list ref) (sig : list (nat * nat)) (al : list (ref * (nat * nat)))
    : Prop :=
  al.*1 = ps ∧ al.*2 = sig.

(** A pass that allocates nothing and changes no shape. *)
Definition keeps_len (m : Init unit) : Prop :=
  ∀ s, ∃ s', m s = Ok (tt, s') ∧ heap_le (heap s) (heap s') ∧
             length (heap s') = length (heap s).

(** The shapes of the parameters of each class, in the order of
    allocation. *)
Definition sig_LayerNorm (ndim : nat) (bias : bool) : list (nat * nat) :=
  (1, ndim) :: (if bias then [(1, ndim)] else []).
Definition sig_Linear (n_in n_out : nat) (bias : bool) : list (nat * nat) :=
  (2, n_out * n_in) :: (if bias then [(1, n_out)] else []).
Definition sig_Embedding (num dim : nat) : list (nat * nat) := [(2, num * dim)].
Definition sig_Attention (c : GPTConfig.t) : list (nat * nat) :=
  let n := GPTConfig.n_embd c in
  sig_Linear n (3 * n) (GPTConfig.bias c) ++ sig_Linear n n (GPTConfig.bias c).
Definition sig_MLP (c : GPTConfig.t) : list (nat * nat) :=
  let n := GPTConfig.n_embd c in
  sig_Linear n (4 * n) (GPTConfig.bias c) ++ sig_Linear (4 * n) n (GPTConfig.bias c).
Definition sig_Block (c : GPTConfig.t) : list (nat * nat) :=
  let n := GPTConfig.n_embd c in
  sig_LayerNorm n (GPTConfig.bias c) ++ sig_Attention c ++
  sig_LayerNorm n (GPTConfig.bias c) ++ sig_MLP c.
Fixpoint sig_Stack (c : GPTConfig.t) (n_layer : nat) : list (nat * nat) :=
  match n_layer with
  | 0 => []
  | S n => sig_Block c ++ sig_Stack c n
  end.
(** The parameters of the primary path after the token table, and those
    of the encoder after its token table together with the decoder. *)
Definition sig_primary (c : GPTConfig.t) : list (nat * nat) :=
  sig_Embedding (GPTConfig.block_size c) (GPTConfig.n_embd c) ++
  sig_Stack c (GPTConfig.n_layer c) ++
  sig_LayerNorm (GPTConfig.n_embd c) (GPTConfig.bias c).
Definition sig_coder (c : GPTConfig.t) : list (nat * nat) :=
  let n := GPTConfig.n_embd c in
  let bs := GPTConfig.block_size c in
  sig_Embedding bs n ++ sig_Embedding 10 n ++
  sig_Stack c (GPTConfig.n_layer c) ++ sig_LayerNorm n (GPTConfig.bias c) ++
  sig_Linear (bs * n) (GPTConfig.n_bottleneck c) true ++
  sig_Linear (GPTConfig.n_bottleneck c) (bs * n) true ++
  sig_Stack c (GPTConfig.n_layer c) ++ sig_LayerNorm n (GPTConfig.bias c).

(** What [GPT.__init__] has allocated and what the module graph holds
    after the weight tying: the two token tables [a] and [b] are dropped
    for the weight [rh] of [lm_head]. *)
Definition tied_allocation (c : GPTConfig.t) (self : GPT.obj)
    (al : list (ref * (nat * nat))) : Prop :=
  let sV := (2, GPTConfig.vocab_size c * GPTConfig.n_embd c) in
  ∃ a b rh X Y,
    al = [(a, sV)] ++ X ++ [(b, sV)] ++ Y ++ [(rh, sV)] ∧
    parameter_places self = [rh] ++ X.*1 ++ [rh] ++ Y.*1 ++ [rh] ∧
    X.*2 = sig_primary c ∧ Y.*2 = sig_coder c ∧
    X.*1 !! 0 = Some (Embedding.weight (GPT.transformer_wpe self)).
(** The number of entries of the parameters of each class, and of a
    model built for the configuration [c]: the tied token table counts
    once. *)
Definition numel_LayerNorm (ndim : nat) (bias : bool) : nat :=
  ndim + (if bias then ndim else 0).
Definition numel_Linear (n_in n_out : nat) (bias : bool) : nat :=
  n_out * n_in + (if bias then n_out else 0).
Definition numel_Block (c : GPTConfig.t) : nat :=
  let n := GPTConfig.n_embd c in
  let b := GPTConfig.bias c in
  numel_LayerNorm n b + (numel_Linear n (3 * n) b + numel_Linear n n b) +
  numel_LayerNorm n b + (numel_Linear n (4 * n) b + numel_Linear (4 * n) n b).
Definition numel_GPT (c : GPTConfig.t) : nat :=
  let n := GPTConfig.n_embd c in
  let bs := GPTConfig.block_size c in
  let b := GPTConfig.bias c in
  let blocks := GPTConfig.n_layer c * numel_Block c in
  (* lm_head.weight, which is also transformer.wte.weight and encoder.wte.weight *)
  GPTConfig.vocab_size c * n +
  (* transformer: wpe, h, ln_f *)
  (bs * n + blocks + numel_LayerNorm n b) +
  (* encoder: wpe, wie, h, ln_f, bottleneck *)
  (bs * n + 10 * n + blocks + numel_LayerNorm n b +
   numel_Linear (bs * n) (GPTConfig.n_bottleneck c) true) +
  (* decoder: unbottleneck, h, ln_f *)
  (numel_Linear (GPTConfig.n_bottleneck c) (bs * n) true + blocks + numel_LayerNorm n b).


(** * Properties *)

(** ** Results and [mapR] *)

Lemma bind_Ok {A B} (m : result A) (f : A → result B) (b : B) :
  (x <- m;; f x) = Ok b ↔ ∃ a, m = Ok a ∧ f a = Ok b.
Proof.
  destruct m as [a|e]; simpl; split.
  - intros H. exists a. split; [reflexivity | exact H].
  - intros (a' & Ha & H). injection Ha as <-. exact H.
  - discriminate.
  - intros (a' & Ha & _). discriminate.
Qed.

Lemma bind_Raise {A B} (m : result A) (f : A → result B) (e : exn) :
  (x <- m;; f x) = Raise e ↔ m = Raise e ∨ ∃ a, m = Ok a ∧ f a = Raise e.
Proof.
  destruct m as [a|e']; simpl; split.
  - intros H. right. exists a. split; [reflexivity | exact H].
  - intros [H | (a' & Ha & H)]; [discriminate|]. injection Ha as <-. exact H.
  - intros H. left. injection H as ->. reflexivity.
  - intros [H | (a' & Ha & _)]; [injection H as ->; reflexivity | discriminate].
Qed.

Lemma mapR_Ok {A B} (f : A → result B) (l : list A) (ys : list B) :
  mapR f l = Ok ys ↔ Forall2 (λ x y, f x = Ok y) l ys.
Proof.
  revert ys. induction l as [|x l IH]; intros ys; simpl.
  - split.
    + intros H. injection H as <-. constructor.
    + intros H. inversion H. reflexivity.
  - rewrite bind_Ok. split.
    + intros (y & Hy & H). apply bind_Ok in H as (ys' & Hys & H).
      injection H as <-. constructor; [exact Hy | apply IH, Hys].
    + intros H. inversion H as [|x' y l' ys' Hy Hys]; subst.
      exists y. split; [exact Hy|]. apply IH in Hys. rewrite Hys. reflexivity.
Qed.

Lemma mapR_length {A B} (f : A → result B) (l : list A) (ys : list B) :
  mapR f l = Ok ys → length ys = length l.
Proof. intros H. apply mapR_Ok in H. symmetry. eapply Forall2_length, H. Qed.



(** Success of every element gives success of the traversal, with the
    postcondition on every result. *)
Lemma mapR_success {A B} (f : A → result B) (P : A → Prop) (Q : B → Prop) (l : list A) :
  (∀ x, P x → ∃ y, f x = Ok y ∧ Q y) → Forall P l →
  ∃ ys, mapR f l = Ok ys ∧ length ys = length l ∧ Forall Q ys.
Proof.
  intros Hf Hl. induction Hl as [|x l Hx Hl IH].
  - exists []. simpl. repeat split. constructor.
  - destruct (Hf x Hx) as (y & Hy & HQ). destruct IH as (ys & Hys & Hlen & HQs).
    exists (y :: ys). simpl. rewrite Hy. simpl. rewrite Hys. simpl.
    repeat split; [congruence | constructor; assumption].
Qed.

Lemma mapR_post {A B} (f : A → result B) (Q : B → Prop) (l : list A) (ys : list B) :
  (∀ x y, x ∈ l → f x = Ok y → Q y) → mapR f l = Ok ys → Forall Q ys.
Proof.
  intros Hf H. apply mapR_Ok in H. induction H as [|x y l ys Hy _ IH].
  - constructor.
  - constructor.
    + apply (Hf x y); [left | exact Hy].
    + apply IH. intros x' y' Hin. apply Hf. right. exact Hin.
Qed.

Lemma mapR_ext {A B} (f g : A → result B) (l : list A) :
  (∀ x, x ∈ l → f x = g x) → mapR f l = mapR g l.
Proof.
  induction l as [|x l IH]; intros H; simpl; [reflexivity|].
  rewrite (H x) by left. rewrite IH; [reflexivity|].
  intros x' Hin. apply H. right. exact Hin.
Qed.

(** The exception of a traversal is the exception of one of its elements. *)
Lemma mapR_Raise {A B} (f : A → result B) (l : list A) (e : exn) :
  mapR f l = Raise e → ∃ x, x ∈ l ∧ f x = Raise e.
Proof.
  induction l as [|x l IH]; simpl; [discriminate|].
  intros H. apply bind_Raise in H as [H | (y & Hy & H)].
  - exists x. split; [left | exact H].
  - apply bind_Raise in H as [H | (ys & Hys & H)]; [|discriminate].
    destruct (IH H) as (x' & Hin & Hx'). exists x'. split; [right; exact Hin | exact Hx'].
Qed.

(** ** Shapes *)

Lemma has_shape2_lookup {A} (x : list (list A)) b n i r :
  has_shape2 x b n → x !! i = Some r → length r = n.
Proof. intros [_ H] Hi. exact (proj1 (Forall_lookup _ _) H i r Hi). Qed.

Lemma has_shape3_lookup {A} (x : list (list (list A))) b t c i m :
  has_shape3 x b t c → x !! i = Some m → has_shape2 m t c.
Proof. intros [_ H] Hi. exact (proj1 (Forall_lookup _ _) H i m Hi). Qed.

(** A row-wise fallible map that takes rows of length [n] to rows of
    length [k] takes shape [(t, n)] to shape [(t, k)], and one level up. *)
Lemma mapR_shape2 (f : Vec → result Vec) (n k t : nat) (x : Mat) :
  (∀ r, length r = n → ∃ y, f r = Ok y ∧ length y = k) →
  has_shape2 x t n → ∃ y, mapR f x = Ok y ∧ has_shape2 y t k.
Proof.
  intros Hf [Hlen Hrows].
  destruct (mapR_success f _ (λ y, length y = k) x Hf Hrows) as (y & Hy & Hl & HQ).
  exists y. split; [exact Hy|]. split; [congruence | exact HQ].
Qed.

Lemma mapR_shape3 (f : Vec → result Vec) (n k b t : nat) (x : Tensor3) :
  (∀ r, length r = n → ∃ y, f r = Ok y ∧ length y = k) →
  has_shape3 x b t n → ∃ y, mapR (mapR f) x = Ok y ∧ has_shape3 y b t k.
Proof.
  intros Hf [Hlen Hmats].
  destruct (mapR_success (mapR f) _ (λ y, has_shape2 y t k) x
              (λ m Hm, mapR_shape2 f n k t m Hf Hm) Hmats) as (y & Hy & Hl & HQ).
  exists y. split; [exact Hy|]. split; [congruence | exact HQ].
Qed.

Lemma vadd_length (x y : Vec) n : length x = n → length y = n → length (vadd x y) = n.
Proof. intros Hx Hy. unfold vadd. rewrite length_zip_with. lia. Qed.

Lemma madd_shape (x y : Mat) t c :
  has_shape2 x t c → has_shape2 y t c → has_shape2 (madd x y) t c.
Proof.
  intros [Hx Hxr] [Hy Hyr]. split.
  - unfold madd. rewrite length_zip_with. lia.
  - apply Forall_lookup. intros i r Hr. unfold madd in Hr.
    apply lookup_zip_with_Some in Hr as (rx & ry & -> & Hrx & Hry).
    apply vadd_length.
    + exact (proj1 (Forall_lookup _ _) Hxr i rx Hrx).
    + exact (proj1 (Forall_lookup _ _) Hyr i ry Hry).
Qed.

Lemma tadd_shape (x y : Tensor3) b t c :
  has_shape3 x b t c → has_shape3 y b t c → has_shape3 (tadd x y) b t c.
Proof.
  intros [Hx Hxr] [Hy Hyr]. split.
  - unfold tadd. rewrite length_zip_with. lia.
  - apply Forall_lookup. intros i r Hr. unfold tadd in Hr.
    apply lookup_zip_with_Some in Hr as (rx & ry & -> & Hrx & Hry).
    apply madd_shape.
    + exact (proj1 (Forall_lookup _ _) Hxr i rx Hrx).
    + exact (proj1 (Forall_lookup _ _) Hyr i ry Hry).
Qed.

Lemma dropout1_length p tr keep ix (x : Vec) : length (dropout1 p tr keep ix x) = length x.
Proof. unfold dropout1. apply length_imap. Qed.

Lemma dropout2_shape p tr keep ix (x : Mat) t c :
  has_shape2 x t c → has_shape2 (dropout2 p tr keep ix x) t c.
Proof.
  intros [Hx Hr]. split.
  - unfold dropout2. rewrite length_imap. exact Hx.
  - apply Forall_lookup. intros i r Hi. unfold dropout2 in Hi.
    rewrite list_lookup_imap in Hi.
    destruct (x !! i) as [r0|] eqn:Hr0; [|discriminate]. injection Hi as <-.
    rewrite dropout1_length. exact (proj1 (Forall_lookup _ _) Hr i r0 Hr0).
Qed.

Lemma dropout3_shape p tr keep (x : Tensor3) b t c :
  has_shape3 x b t c → has_shape3 (dropout3 p tr keep x) b t c.
Proof.
  intros [Hx Hr]. split.
  - unfold dropout3. rewrite length_imap. exact Hx.
  - apply Forall_lookup. intros i r Hi. unfold dropout3 in Hi.
    rewrite list_lookup_imap in Hi.
    destruct (x !! i) as [r0|] eqn:Hr0; [|discriminate]. injection Hi as <-.
    apply dropout2_shape. exact (proj1 (Forall_lookup _ _) Hr i r0 Hr0).
Qed.

(** With dropout disabled (eval mode, or [p = 0]) the masks are not read. *)
Lemma dropout_elem_disabled p tr keep v :
  tr = false ∨ p = 0%R → dropout_elem p tr keep v = v.
Proof.
  intros [-> | ->]; unfold dropout_elem; [reflexivity|].
  destruct tr; [|reflexivity]. destruct (Req_dec_T 0 0); [reflexivity | contradiction].
Qed.

Lemma imap_id_ext {A} (f : nat → A → A) (l : list A) :
  (∀ i x, f i x = x) → imap f l = l.
Proof.
  intros H. apply list_eq. intros i. rewrite list_lookup_imap.
  destruct (l !! i); simpl; [rewrite H|]; reflexivity.
Qed.

Lemma dropout3_disabled p tr keep (x : Tensor3) :
  tr = false ∨ p = 0%R → dropout3 p tr keep x = x.
Proof.
  intros H. unfold dropout3, dropout2, dropout1.
  apply imap_id_ext. intros b m. apply imap_id_ext. intros i r.
  apply imap_id_ext. intros c v. apply dropout_elem_disabled, H.
Qed.

Lemma Linear_forward1_ok (l : Linear.t) n_in n_out (x : Vec) :
  Linear.wf n_in n_out l → length x = n_in →
  ∃ y, Linear.forward1 l x = Ok y ∧ length y = n_out.
Proof.
  intros (Hin & Hout & [Hw _] & Hb) Hx. unfold Linear.forward1.
  destruct (decide (length x = Linear.in_features l)) as [_|Hne]; [|congruence].
  eexists. split; [reflexivity|].
  destruct (Linear.bias l) as [b|] eqn:Hbias.
  - apply vadd_length; [rewrite length_fmap; exact Hw | apply Hb; reflexivity].
  - rewrite length_fmap. exact Hw.
Qed.

Lemma Linear_forward1_inv (l : Linear.t) (x y : Vec) :
  Linear.forward1 l x = Ok y → length x = Linear.in_features l.
Proof.
  unfold Linear.forward1.
  destruct (decide (length x = Linear.in_features l)); [auto | discriminate].
Qed.

Lemma Linear_forward1_mismatch (l : Linear.t) (x : Vec) :
  length x ≠ Linear.in_features l → Linear.forward1 l x = Raise RuntimeError.
Proof.
  intros H. unfold Linear.forward1.
  destruct (decide (length x = Linear.in_features l)); [contradiction | reflexivity].
Qed.

Lemma Linear_forward2_ok (l : Linear.t) n_in n_out t (x : Mat) :
  Linear.wf n_in n_out l → has_shape2 x t n_in →
  ∃ y, Linear.forward2 l x = Ok y ∧ has_shape2 y t n_out.
Proof.
  intros Hwf. apply mapR_shape2. intros r. apply Linear_forward1_ok, Hwf.
Qed.

Lemma Linear_forward_ok (l : Linear.t) n_in n_out b t (x : Tensor3) :
  Linear.wf n_in n_out l → has_shape3 x b t n_in →
  ∃ y, Linear.forward l x = Ok y ∧ has_shape3 y b t n_out.
Proof.
  intros Hwf. apply mapR_shape3. intros r. apply Linear_forward1_ok, Hwf.
Qed.

Lemma LayerNorm_forward1_ok (ln : LayerNorm.t) n (x : Vec) :
  LayerNorm.wf n ln → length x = n →
  ∃ y, LayerNorm.forward1 ln x = Ok y ∧ length y = n.
Proof.
  intros [Hw Hb] Hx. unfold LayerNorm.forward1.
  destruct (decide (length x = length (LayerNorm.weight ln))) as [_|Hne]; [|congruence].
  eexists. split; [reflexivity|].
  assert (Hy : length (zip_with Rmult
            ((λ v, (v - mean x) / sqrt (mean ((λ v0, (v0 - mean x) * (v0 - mean x)) <$> x)
                                          + LayerNorm.eps)) <$> x)%R
            (LayerNorm.weight ln)) = n).
  { rewrite length_zip_with, length_fmap. lia. }
  destruct (LayerNorm.bias ln) as [b|] eqn:Hbias.
  - apply vadd_length; [exact Hy | apply Hb; reflexivity].
  - exact Hy.
Qed.

Lemma LayerNorm_forward_ok (ln : LayerNorm.t) n b t (x : Tensor3) :
  LayerNorm.wf n ln → has_shape3 x b t n →
  ∃ y, LayerNorm.forward ln x = Ok y ∧ has_shape3 y b t n.
Proof.
  intros Hwf. apply mapR_shape3. intros r. apply LayerNorm_forward1_ok, Hwf.
Qed.

Lemma concat_length_const {A} (ls : list (list A)) k :
  Forall (λ l, length l = k) ls → length (concat ls) = length ls * k.
Proof.
  induction 1 as [|l ls Hl _ IH]; simpl; [reflexivity|].
  rewrite length_app, IH, Hl. reflexivity.
Qed.

Lemma matmul_row_length hs arow v :
  length (CausalSelfAttention.matmul_row hs arow v) = hs.
Proof. unfold CausalSelfAttention.matmul_row. rewrite length_fmap. apply length_seq. Qed.

Lemma heads_row_length (a : CausalSelfAttention.t) tr keep b i qi k v :
  length (CausalSelfAttention.heads_row a tr keep b i qi k v)
  = CausalSelfAttention.n_head a * (CausalSelfAttention.n_embd a / CausalSelfAttention.n_head a).
Proof.
  unfold CausalSelfAttention.heads_row.
  rewrite (concat_length_const _ (CausalSelfAttention.n_embd a / CausalSelfAttention.n_head a)).
  - rewrite length_fmap, length_seq. reflexivity.
  - apply Forall_fmap, Forall_forall. intros h _. simpl.
    destruct (CausalSelfAttention.flash a); apply matmul_row_length.
Qed.

Lemma heads_shape (a : CausalSelfAttention.t) tr keep b (qkv : Mat) n :
  CausalSelfAttention.n_head a * (CausalSelfAttention.n_embd a / CausalSelfAttention.n_head a) = n →
  has_shape2 (CausalSelfAttention.heads a tr keep b qkv) (length qkv) n.
Proof.
  intros Hn. unfold CausalSelfAttention.heads. split.
  - rewrite length_imap, length_fmap. reflexivity.
  - apply Forall_lookup. intros i r Hi. rewrite list_lookup_imap in Hi.
    destruct (_ !! i) as [qi|]; [|discriminate]. injection Hi as <-.
    rewrite heads_row_length. exact Hn.
Qed.


Lemma CausalSelfAttention_forward_ok (a : CausalSelfAttention.t) C bs tr ak rk b t (x : Tensor3) :
  CausalSelfAttention.wf C bs a → has_shape3 x b t C →
  CausalSelfAttention.flash a = true ∨ t ≤ bs →
  ∃ y, CausalSelfAttention.forward a tr ak rk x = Ok y ∧ has_shape3 y b t C.
Proof.
  intros (HC & Hnh & Hdiv & Hbs & Hattn & Hproj) Hx Hflash.
  unfold CausalSelfAttention.forward.
  destruct (Linear_forward_ok _ _ _ _ _ _ Hattn Hx) as (qkv & -> & Hqkv). simpl.
  destruct (decide _) as [_|Hne]; [|contradiction].
  destruct (decide _) as [_|Hne].
  2:{ exfalso. apply Hne. destruct Hflash as [Hf|Ht]; [left; exact Hf | right].
      destruct Hx as [_ Hx]. eapply Forall_impl; [exact Hx|].
      intros xb [Hlen _]. simpl in *. lia. }
  assert (Hy : has_shape3 (imap (CausalSelfAttention.heads a tr ak) qkv) b t C).
  { destruct Hqkv as [Hlen Hrows]. split.
    - rewrite length_imap. exact Hlen.
    - apply Forall_lookup. intros i m Hi. rewrite list_lookup_imap in Hi.
      destruct (qkv !! i) as [q|] eqn:Hq; [|discriminate]. injection Hi as <-.
      destruct (proj1 (Forall_lookup _ _) Hrows i q Hq) as [Hql _].
      rewrite <- Hql. apply heads_shape. congruence. }
  destruct (Linear_forward_ok _ _ _ _ _ _ Hproj Hy) as (o & -> & Ho). simpl.
  eexists. split; [reflexivity|]. apply dropout3_shape, Ho.
Qed.

Lemma gelu3_shape (x : Tensor3) b t c : has_shape3 x b t c → has_shape3 (MLP.gelu3 x) b t c.
Proof.
  intros [Hx Hr]. unfold MLP.gelu3. split; [rewrite length_fmap; exact Hx|].
  apply Forall_fmap. eapply Forall_impl; [exact Hr|].
  intros m [Hm Hrows]. simpl. split; [rewrite length_fmap; exact Hm|].
  apply Forall_fmap. eapply Forall_impl; [exact Hrows|].
  intros r Hlen. simpl. rewrite length_fmap. exact Hlen.
Qed.

Lemma MLP_forward_ok (m : MLP.t) C tr keep b t (x : Tensor3) :
  MLP.wf C m → has_shape3 x b t C →
  ∃ y, MLP.forward m tr keep x = Ok y ∧ has_shape3 y b t C.
Proof.
  intros [Hfc Hproj] Hx. unfold MLP.forward.
  destruct (Linear_forward_ok _ _ _ _ _ _ Hfc Hx) as (h & -> & Hh). simpl.
  destruct (Linear_forward_ok _ _ _ _ _ _ Hproj (gelu3_shape _ _ _ _ Hh)) as (o & -> & Ho).
  simpl. eexists. split; [reflexivity|]. apply dropout3_shape, Ho.
Qed.

Lemma Block_forward_ok (blk : Block.t) C bs tr mk b t (x : Tensor3) :
  Block.wf C bs blk → has_shape3 x b t C →
  CausalSelfAttention.flash (Block.attn blk) = true ∨ t ≤ bs →
  ∃ y, Block.forward blk tr mk x = Ok y ∧ has_shape3 y b t C.
Proof.
  intros (Hln1 & Hattn & Hln2 & Hmlp) Hx Hflash. unfold Block.forward.
  destruct (LayerNorm_forward_ok _ _ _ _ _ Hln1 Hx) as (n1 & -> & Hn1). simpl.
  destruct (CausalSelfAttention_forward_ok _ _ _ tr (Block.attn_keep mk)
              (Block.resid_keep mk) _ _ _ Hattn Hn1 Hflash) as (y & -> & Hy). simpl.
  pose proof (tadd_shape _ _ _ _ _ Hx Hy) as Hx1.
  destruct (LayerNorm_forward_ok _ _ _ _ _ Hln2 Hx1) as (n2 & -> & Hn2). simpl.
  destruct (MLP_forward_ok _ _ tr (Block.mlp_keep mk) _ _ _ Hmlp Hn2) as (f & -> & Hf). simpl.
  eexists. split; [reflexivity|]. apply tadd_shape; assumption.
Qed.

Lemma forward_stack_ok (stack : list Block.t) C bs tr mk l b t (x : Tensor3) :
  Forall (Block.wf C bs) stack → has_shape3 x b t C → t ≤ bs →
  ∃ y, Block.forward_stack stack tr mk l x = Ok y ∧ has_shape3 y b t C.
Proof.
  intros Hwf. revert l x. induction Hwf as [|blk stack Hblk _ IH]; intros l x Hx Ht; simpl.
  - exists x. split; [reflexivity | exact Hx].
  - destruct (Block_forward_ok _ _ _ tr (mk l) _ _ _ Hblk Hx (or_intror Ht)) as (y & -> & Hy).
    simpl. apply IH; assumption.
Qed.

Lemma Embedding_forward1_ok (e : Embedding.t) num dim (i : Z) :
  Embedding.wf num dim e → (0 ≤ i < Z.of_nat num)%Z →
  ∃ row, Embedding.forward1 e i = Ok row ∧ length row = dim.
Proof.
  intros [Hlen Hrows] Hi. unfold Embedding.forward1.
  destruct (decide (0 ≤ i)%Z) as [_|Hneg]; [|lia].
  destruct (Embedding.weight e !! Z.to_nat i) as [row|] eqn:Hrow.
  - exists row. split; [reflexivity|]. exact (proj1 (Forall_lookup _ _) Hrows _ _ Hrow).
  - apply lookup_ge_None in Hrow. lia.
Qed.

Lemma Embedding_forward1_range (e : Embedding.t) num dim (i : Z) row :
  Embedding.wf num dim e → Embedding.forward1 e i = Ok row → (0 ≤ i < Z.of_nat num)%Z.
Proof.
  intros [Hlen _]. unfold Embedding.forward1.
  destruct (decide (0 ≤ i)%Z) as [Hpos|]; [|discriminate].
  destruct (Embedding.weight e !! Z.to_nat i) as [r|] eqn:Hrow; [|discriminate].
  intros _. apply lookup_lt_Some in Hrow. lia.
Qed.

Lemma Embedding_forward_ok (e : Embedding.t) num dim (idx : list Z) :
  Embedding.wf num dim e → Forall (λ i, 0 ≤ i < Z.of_nat num)%Z idx →
  ∃ rows, Embedding.forward e idx = Ok rows ∧ has_shape2 rows (length idx) dim.
Proof.
  intros Hwf Hidx.
  destruct (mapR_success (Embedding.forward1 e) _ (λ r, length r = dim) idx
              (λ i Hi, Embedding_forward1_ok e num dim i Hwf Hi) Hidx) as (rows & H & Hl & HQ).
  exists rows. split; [exact H|]. split; assumption.
Qed.

Lemma positions_in_range t bs :
  t ≤ bs → Forall (λ i, 0 ≤ i < Z.of_nat bs)%Z (Z.of_nat <$> seq 0 t).
Proof.
  intros Ht. apply Forall_fmap, Forall_forall. intros i Hi. simpl.
  apply elem_of_seq in Hi. lia.
Qed.

Lemma view_blocks_ok bs C b (z_flat : Mat) :
  has_shape2 z_flat b (bs * C) →
  ∃ z, GPT.view_blocks bs C z_flat = Ok z ∧ has_shape3 z b bs C.
Proof.
  intros [Hlen Hrows]. unfold GPT.view_blocks.
  destruct (decide _) as [_|Hne]; [|contradiction].
  eexists. split; [reflexivity|]. split; [rewrite length_fmap; exact Hlen|].
  apply Forall_fmap. eapply Forall_impl; [exact Hrows|].
  intros r Hr. simpl. split; [rewrite length_fmap; apply length_seq|].
  apply Forall_fmap, Forall_forall. intros i Hi. simpl.
  apply elem_of_seq in Hi. rewrite length_take, length_drop, Hr. nia.
Qed.

Lemma view_flat_ok b t C (z : Tensor3) :
  0 < b → has_shape3 z b t C →
  ∃ z_flat, GPT.view_flat z = Ok z_flat ∧ has_shape2 z_flat b (t * C).
Proof.
  intros Hb [Hlen Hmats]. unfold GPT.view_flat.
  destruct (decide (length z = 0)) as [H0|_]; [lia|].
  eexists. split; [reflexivity|]. split; [rewrite length_fmap; exact Hlen|].
  apply Forall_fmap. eapply Forall_impl; [exact Hmats|].
  intros m [Hm Hrows]. simpl. rewrite (concat_length_const _ C Hrows), Hm. reflexivity.
Qed.

(** The encoder path up to the final normalisation succeeds on every
    batch of valid ids no longer than the block size. *)
Lemma encoder_embeddings_ok (m : GPT.t) (d : GPT.Draws) (idx : LongTensor) :
  GPT.wf m → wf_long idx → valid_ids (GPTConfig.vocab_size (GPT.config m)) idx →
  valid_ins m d → size1 idx ≤ GPTConfig.block_size (GPT.config m) →
  ∃ tok_emb pos_emb ins_emb,
    mapR (Embedding.forward (GPT.encoder_wte m)) (data idx) = Ok tok_emb ∧
    Embedding.forward (GPT.encoder_wpe m) (Z.of_nat <$> seq 0 (size1 idx)) = Ok pos_emb ∧
    Embedding.forward (GPT.encoder_wie m) (Z.of_nat <$> GPT.ins d) = Ok ins_emb ∧
    has_shape3 ((λ e, madd e pos_emb) <$> tok_emb) (size0 idx) (size1 idx)
      (GPTConfig.n_embd (GPT.config m)).
Proof.
  intros (_ & Hwte & Hwpe & Hwie & _) [Hb Hrows] Hids Hins Ht.
  destruct (mapR_success (Embedding.forward (GPT.encoder_wte m))
              (λ r, length r = size1 idx ∧
                    Forall (λ i, 0 ≤ i < Z.of_nat (GPTConfig.vocab_size (GPT.config m)))%Z r)
              (λ e, has_shape2 e (size1 idx) (GPTConfig.n_embd (GPT.config m))) (data idx))
    as (tok_emb & Htok & Hl & Hshape).
  { intros r [Hr Hv]. destruct (Embedding_forward_ok _ _ _ r Hwte Hv) as (rows & H & Hs).
    exists rows. rewrite Hr in Hs. split; assumption. }
  { apply Forall_lookup. intros i r Hi. split.
    - exact (proj1 (Forall_lookup _ _) Hrows i r Hi).
    - exact (proj1 (Forall_lookup _ _) Hids i r Hi). }
  destruct (Embedding_forward_ok _ _ _ _ Hwpe (positions_in_range _ _ Ht)) as (pos_emb & Hpos & Hps).
  rewrite length_fmap, length_seq in Hps.
  destruct (Embedding_forward_ok _ _ _ (Z.of_nat <$> GPT.ins d) Hwie) as (ins_emb & Hie & _).
  { apply Forall_fmap. eapply Forall_impl; [exact Hins|]. intros i Hi. simpl in Hi |- *. lia. }
  exists tok_emb, pos_emb, ins_emb. repeat split; try assumption.
  - rewrite length_fmap. congruence.
  - apply Forall_fmap. eapply Forall_impl; [exact Hshape|].
    intros e He. simpl. apply madd_shape; assumption.
Qed.

Lemma encoder_states_ok (m : GPT.t) (d : GPT.Draws) (idx : LongTensor) :
  GPT.wf m → wf_long idx → valid_ids (GPTConfig.vocab_size (GPT.config m)) idx →
  valid_ins m d → size1 idx ≤ GPTConfig.block_size (GPT.config m) →
  ∃ z, GPT.encoder_states m d idx = Ok z ∧
       has_shape3 z (size0 idx) (size1 idx) (GPTConfig.n_embd (GPT.config m)).
Proof.
  intros Hwf Hidx Hids Hins Ht.
  destruct (encoder_embeddings_ok m d idx Hwf Hidx Hids Hins Ht)
    as (tok & pos & ie & Htok & Hpos & Hie & Hshape).
  unfold GPT.encoder_states. rewrite Htok, Hpos, Hie. simpl.
  destruct Hwf as (_ & _ & _ & _ & _ & Hln & _ & _ & Hdec & _).
  destruct (forward_stack_ok (GPT.decoder_h m) _ _ (GPT.training m) (GPT.decoder_h_keep d) 0
              _ _ _ Hdec (dropout3_shape (GPT.encoder_drop m) (GPT.training m)
                                (GPT.encoder_drop_keep d) _ _ _ _ Hshape) Ht)
    as (z & -> & Hz). simpl.
  apply LayerNorm_forward_ok; assumption.
Qed.

(** At full length the encoder yields one bottleneck vector per sequence. *)
Lemma encode_ok (m : GPT.t) (d : GPT.Draws) (idx : LongTensor) :
  GPT.wf m → wf_long idx → valid_ids (GPTConfig.vocab_size (GPT.config m)) idx →
  valid_ins m d → 0 < size0 idx → size1 idx = GPTConfig.block_size (GPT.config m) →
  ∃ zb, GPT.encode m d idx = Ok zb ∧
        has_shape2 zb (size0 idx) (GPTConfig.n_bottleneck (GPT.config m)).
Proof.
  intros Hwf Hidx Hids Hins Hb Ht.
  destruct (encoder_states_ok m d idx Hwf Hidx Hids Hins ltac:(lia)) as (z & Hz & Hshape).
  unfold GPT.encode. rewrite Hz. simpl.
  destruct (view_flat_ok _ _ _ z Hb Hshape) as (zf & -> & Hzf). simpl.
  destruct Hwf as (_ & _ & _ & _ & _ & _ & Hbn & _).
  rewrite Ht in Hzf. exact (Linear_forward2_ok _ _ _ _ _ Hbn Hzf).
Qed.

(** A sequence shorter than the block size reaches the bottleneck layer
    with rows of the wrong length: [F.linear] refuses them. *)
Lemma encode_short_raises (m : GPT.t) (d : GPT.Draws) (idx : LongTensor) :
  GPT.wf m → wf_long idx → valid_ids (GPTConfig.vocab_size (GPT.config m)) idx →
  valid_ins m d → 0 < size0 idx → 0 < GPTConfig.n_embd (GPT.config m) →
  size1 idx < GPTConfig.block_size (GPT.config m) →
  GPT.encode m d idx = Raise RuntimeError.
Proof.
  intros Hwf Hidx Hids Hins Hb HC Ht.
  destruct (encoder_states_ok m d idx Hwf Hidx Hids Hins ltac:(lia)) as (z & Hz & Hshape).
  unfold GPT.encode. rewrite Hz. simpl.
  destruct (view_flat_ok _ _ _ z Hb Hshape) as (zf & -> & [Hlen Hrows]). simpl.
  destruct Hwf as (_ & _ & _ & _ & _ & _ & (Hin & _) & _).
  destruct zf as [|r zf]; [simpl in Hlen; lia|].
  unfold Linear.forward2. simpl. rewrite Linear_forward1_mismatch; [reflexivity|].
  apply Forall_cons in Hrows as [Hr _]. rewrite Hr, Hin. nia.
Qed.

(** From a bottleneck the decoder yields logits for [block_size] positions. *)
Lemma decode_ok (m : GPT.t) (d : GPT.Draws) b (zb : Mat) :
  GPT.wf m → has_shape2 zb b (GPTConfig.n_bottleneck (GPT.config m)) →
  ∃ logits, GPT.decode m d zb = Ok logits ∧
            has_shape3 logits b (GPTConfig.block_size (GPT.config m))
              (GPTConfig.vocab_size (GPT.config m)).
Proof.
  intros (_ & _ & _ & _ & Henc & _ & _ & Hun & _ & Hln & Hhead) Hzb.
  unfold GPT.decode.
  destruct (Linear_forward2_ok _ _ _ _ _ Hun Hzb) as (zf & -> & Hzf). simpl.
  destruct (view_blocks_ok _ _ _ _ Hzf) as (z & -> & Hz). simpl.
  destruct (forward_stack_ok (GPT.encoder_h m) _ _ (GPT.training m) (GPT.encoder_h_keep d) 0
              _ _ _ Henc Hz (le_n _)) as (z' & -> & Hz'). simpl.
  destruct (LayerNorm_forward_ok _ _ _ _ _ Hln
              (dropout3_shape (GPT.decoder_drop m) (GPT.training m)
                 (GPT.decoder_drop_keep d) _ _ _ _ Hz')) as (z'' & -> & Hz''). simpl.
  exact (Linear_forward_ok _ _ _ _ _ _ Hhead Hz'').
Qed.

(** ** The forward pass *)

Lemma status_without_targets itos d idx logits2 :
  GPT.status itos d idx logits2 None None =
  if Rlt_dec (GPT.u_status d) (5 / 10000) then Raise TypeError
  else if Rlt_dec (GPT.u_log d) (5 / 1000) then Raise UnboundLocalError
  else Ok [].
Proof.
  unfold GPT.status.
  destruct (Rlt_dec (GPT.u_status d) (5 / 10000)); simpl; [reflexivity|].
  destruct (Rlt_dec (GPT.u_log d) (5 / 1000)); reflexivity.
Qed.

(** With [embedding=True] the call returns after the bottleneck and reads
    neither [targets] nor the two logging draws. *)
Lemma forward_embedding (m : GPT.t) itos d idx targets :
  GPT.forward m itos d idx targets true =
  if decide (size1 idx ≤ GPTConfig.block_size (GPT.config m)) then
    zb <- GPT.encode m d idx;; Ok (GPT.Bottleneck zb, [])
  else Raise AssertionError.
Proof. reflexivity. Qed.

(** Without targets the call ends in the logging lines with [loss2 = None]
    and [alt_loss2] unbound. *)
Lemma forward_without_targets (m : GPT.t) itos d idx zb logits2 :
  size1 idx ≤ GPTConfig.block_size (GPT.config m) →
  GPT.encode m d idx = Ok zb → GPT.decode m d zb = Ok logits2 →
  GPT.forward m itos d idx None false =
  if Rlt_dec (GPT.u_status d) (5 / 10000) then Raise TypeError
  else if Rlt_dec (GPT.u_log d) (5 / 1000) then Raise UnboundLocalError
  else Ok (GPT.Logits logits2 None, []).
Proof.
  intros Ht Henc Hdec. unfold GPT.forward.
  destruct (decide _) as [_|Hne]; [|contradiction].
  rewrite Henc. simpl. rewrite Hdec. simpl.
  rewrite status_without_targets.
  destruct (Rlt_dec (GPT.u_status d) (5 / 10000)); [reflexivity|].
  destruct (Rlt_dec (GPT.u_log d) (5 / 1000)); reflexivity.
Qed.

(** The logits a full-length call computes at line 329, whatever happens
    after them. *)
Lemma forward_logits_ok (m : GPT.t) (d : GPT.Draws) (idx : LongTensor) :
  GPT.wf m → wf_long idx → valid_ids (GPTConfig.vocab_size (GPT.config m)) idx →
  valid_ins m d → 0 < size0 idx → size1 idx = GPTConfig.block_size (GPT.config m) →
  ∃ zb logits2,
    GPT.encode m d idx = Ok zb ∧ GPT.decode m d zb = Ok logits2 ∧
    has_shape2 zb (size0 idx) (GPTConfig.n_bottleneck (GPT.config m)) ∧
    has_shape3 logits2 (size0 idx) (GPTConfig.block_size (GPT.config m))
      (GPTConfig.vocab_size (GPT.config m)).
Proof.
  intros Hwf Hidx Hids Hins Hb Ht.
  destruct (encode_ok m d idx Hwf Hidx Hids Hins Hb Ht) as (zb & Henc & Hzb).
  destruct (decode_ok m d _ zb Hwf Hzb) as (logits2 & Hdec & Hl).
  exists zb, logits2. repeat split; (assumption || apply Hzb || apply Hl).
Qed.

(** ** The constant model has the shapes of a constructed one *)

Lemma replicate_shape2 {A} (n k : nat) (v : A) : has_shape2 (replicate n (replicate k v)) n k.
Proof.
  split; [apply length_replicate|].
  apply Forall_replicate. apply length_replicate.
Qed.

Lemma const_linear_wf n_in n_out bias w : Linear.wf n_in n_out (const_linear n_in n_out bias w).
Proof.
  repeat split; simpl; try apply replicate_shape2.
  intros b Hb. destruct bias; [|discriminate]. injection Hb as <-. apply length_replicate.
Qed.

Lemma const_layer_norm_wf n bias : LayerNorm.wf n (const_layer_norm n bias).
Proof.
  split; simpl; [apply length_replicate|].
  intros b Hb. destruct bias; [|discriminate]. injection Hb as <-. apply length_replicate.
Qed.

Lemma const_block_wf c flash w :
  0 < GPTConfig.n_head c →
  GPTConfig.n_head c * (GPTConfig.n_embd c / GPTConfig.n_head c) = GPTConfig.n_embd c →
  Block.wf (GPTConfig.n_embd c) (GPTConfig.block_size c) (const_block c flash w).
Proof.
  intros Hnh Hdiv. unfold Block.wf, CausalSelfAttention.wf, MLP.wf, const_block.
  repeat first [ apply const_layer_norm_wf | apply const_linear_wf
               | assumption | reflexivity | split ].
Qed.

Lemma const_model_wf c flash training w :
  0 < GPTConfig.n_head c →
  GPTConfig.n_head c * (GPTConfig.n_embd c / GPTConfig.n_head c) = GPTConfig.n_embd c →
  GPT.wf (const_model c flash training w).
Proof.
  intros Hnh Hdiv. unfold GPT.wf, Embedding.wf, const_model.
  repeat first [ apply (replicate_shape2 (A:=R)) | apply const_layer_norm_wf
               | apply const_linear_wf
               | apply Forall_replicate, const_block_wf; assumption
               | reflexivity | split ].
Qed.

Lemma tiny_model_wf : GPT.wf tiny_model.
Proof. apply const_model_wf; simpl; [lia | reflexivity]. Qed.

(** ** Which exceptions the body of [forward] can raise

    The only [assert] of [forward] is the block-size check of line 277: no
    library call of the body raises an AssertionError. *)

Lemma never_asserts_bind {A B} (m : result A) (f : A → result B) :
  never_asserts m → (∀ a, never_asserts (f a)) → never_asserts (x <- m;; f x).
Proof.
  intros Hm Hf H. apply bind_Raise in H as [H | (a & _ & H)].
  - exact (Hm H).
  - exact (Hf a H).
Qed.

Lemma never_asserts_mapR {A B} (f : A → result B) (l : list A) :
  (∀ x, never_asserts (f x)) → never_asserts (mapR f l).
Proof. intros Hf H. apply mapR_Raise in H as (x & _ & H). exact (Hf x H). Qed.

Ltac never_asserts_step :=
  match goal with
  | |- never_asserts (bind _ _) => apply never_asserts_bind; [|intros ?]
  | |- never_asserts (mapR _ _) => apply never_asserts_mapR; intros ?
  | |- never_asserts (Ok _) => discriminate
  | |- never_asserts (Raise _) => discriminate
  | |- never_asserts (if ?c then _ else _) => destruct c
  | |- never_asserts (match ?x with _ => _ end) => destruct x
  end.

Lemma Linear_forward1_never_asserts l x : never_asserts (Linear.forward1 l x).
Proof. unfold Linear.forward1. repeat never_asserts_step. Qed.

Lemma Linear_forward_never_asserts l x : never_asserts (Linear.forward l x).
Proof.
  unfold Linear.forward, Linear.forward2.
  repeat never_asserts_step. apply Linear_forward1_never_asserts.
Qed.

Lemma LayerNorm_forward_never_asserts ln x : never_asserts (LayerNorm.forward ln x).
Proof. unfold LayerNorm.forward, LayerNorm.forward1. repeat never_asserts_step. Qed.

Lemma Embedding_forward_never_asserts e idx : never_asserts (Embedding.forward e idx).
Proof. unfold Embedding.forward, Embedding.forward1. repeat never_asserts_step. Qed.

Lemma Block_forward_never_asserts blk tr mk x : never_asserts (Block.forward blk tr mk x).
Proof.
  unfold Block.forward, CausalSelfAttention.forward, MLP.forward.
  repeat first [ apply Linear_forward_never_asserts
               | apply LayerNorm_forward_never_asserts
               | never_asserts_step ].
Qed.

Lemma forward_stack_never_asserts stack tr mk l x :
  never_asserts (Block.forward_stack stack tr mk l x).
Proof.
  revert l x. induction stack as [|blk stack IH]; intros l x; simpl.
  - discriminate.
  - apply never_asserts_bind; [apply Block_forward_never_asserts | intros z; apply IH].
Qed.

Lemma encode_never_asserts m d idx : never_asserts (GPT.encode m d idx).
Proof.
  unfold GPT.encode, GPT.encoder_states, GPT.view_flat, Linear.forward2.
  repeat first [ apply Embedding_forward_never_asserts
               | apply forward_stack_never_asserts
               | apply LayerNorm_forward_never_asserts
               | apply Linear_forward1_never_asserts
               | never_asserts_step ].
Qed.

Lemma decode_never_asserts m d zb : never_asserts (GPT.decode m d zb).
Proof.
  unfold GPT.decode, GPT.view_blocks, Linear.forward2.
  repeat first [ apply forward_stack_never_asserts
               | apply LayerNorm_forward_never_asserts
               | apply Linear_forward_never_asserts
               | apply Linear_forward1_never_asserts
               | never_asserts_step ].
Qed.

Lemma losses_never_asserts logits2 targets : never_asserts (GPT.losses logits2 targets).
Proof.
  unfold GPT.losses, cross_entropy, cross_entropy_term, _custom_loss, bincount, broadcast_mul.
  repeat never_asserts_step.
Qed.

Lemma status_never_asserts itos d idx logits2 l a :
  never_asserts (GPT.status itos d idx logits2 l a).
Proof.
  unfold GPT.status, GPT.float_of, GPT.read_local, GPT.first_row, GPT.decode_tokens.
  repeat never_asserts_step.
Qed.

(** A full-length call without targets: the three outcomes, by the two
    logging draws. *)
Lemma forward_without_targets_outcome (m : GPT.t) itos (d : GPT.Draws) (idx : LongTensor) :
  GPT.wf m → wf_long idx → valid_ids (GPTConfig.vocab_size (GPT.config m)) idx →
  valid_ins m d → 0 < size0 idx → size1 idx = GPTConfig.block_size (GPT.config m) →
  ∃ logits2,
    has_shape3 logits2 (size0 idx) (GPTConfig.block_size (GPT.config m))
      (GPTConfig.vocab_size (GPT.config m)) ∧
    GPT.forward m itos d idx None false =
      if Rlt_dec (GPT.u_status d) (5 / 10000) then Raise TypeError
      else if Rlt_dec (GPT.u_log d) (5 / 1000) then Raise UnboundLocalError
      else Ok (GPT.Logits logits2 None, []).
Proof.
  intros Hwf Hidx Hids Hins Hb Ht.
  destruct (forward_logits_ok m d idx Hwf Hidx Hids Hins Hb Ht)
    as (zb & logits2 & Henc & Hdec & _ & Hshape).
  exists logits2. split; [exact Hshape|].
  apply (forward_without_targets m itos d idx zb logits2); [lia | exact Henc | exact Hdec].
Qed.

(** C7. A batch whose sequence length exceeds the configured block size
    makes [forward] raise the AssertionError of line 277, whatever the
    weights, the draws, the targets and the [embedding] flag are: nothing is
    computed before it.  For a length within the block size the assertion
    passes: the call does not end in an AssertionError. *)
Theorem forward_block_size_assertion (m : GPT.t) itos d idx targets embedding :
  (GPTConfig.block_size (GPT.config m) < size1 idx →
   GPT.forward m itos d idx targets embedding = Raise AssertionError) ∧
  (size1 idx ≤ GPTConfig.block_size (GPT.config m) →
   GPT.forward m itos d idx targets embedding ≠ Raise AssertionError).
Proof.
  split; intros Ht; unfold GPT.forward.
  - destruct (decide _) as [Hle|_]; [lia | reflexivity].
  - destruct (decide _) as [_|Hne]; [|contradiction].
    apply never_asserts_bind; [apply encode_never_asserts|].
    intros zb. destruct embedding; [discriminate|].
    apply never_asserts_bind; [apply decode_never_asserts|]. intros logits2.
    apply never_asserts_bind; [apply losses_never_asserts|]. intros ls.
    apply never_asserts_bind; [apply status_never_asserts|]. intros ev.
    discriminate.
Qed.


Lemma tiny_input_wf (row : list Z) :
  length row = 4 → Forall (λ i, 0 ≤ i < 5)%Z row →
  wf_long (long_tensor [row] 4) ∧
  valid_ids (GPTConfig.vocab_size (GPT.config tiny_model)) (long_tensor [row] 4).
Proof.
  intros Hlen Hrow. split.
  - split; [reflexivity|]. constructor; [exact Hlen | constructor].
  - constructor; [exact Hrow | constructor].
Qed.

Lemma tiny_draws_valid u1 u2 : valid_ins tiny_model (draws_with u1 u2).
Proof. unfold valid_ins. simpl. repeat constructor; lia. Qed.


(** ** Which draws the result depends on *)

Lemma dropout1_eval p keep ix (x : Vec) : dropout1 p false keep ix x = x.
Proof. unfold dropout1. apply imap_id_ext. intros c v. reflexivity. Qed.

Lemma heads_row_eval (a : CausalSelfAttention.t) keep keep' b i qi k v :
  CausalSelfAttention.heads_row a false keep b i qi k v
  = CausalSelfAttention.heads_row a false keep' b i qi k v.
Proof.
  unfold CausalSelfAttention.heads_row. f_equal. apply list_fmap_ext. intros j h _.
  destruct (CausalSelfAttention.flash a);
    unfold CausalSelfAttention.scaled_dot_product_attention, CausalSelfAttention.attend_row;
    rewrite !dropout1_eval; reflexivity.
Qed.

Lemma imap_ext_all {A B} (f g : nat → A → B) (l : list A) :
  (∀ i x, f i x = g i x) → imap f l = imap g l.
Proof. intros H. apply imap_ext. intros i x _. apply H. Qed.

Lemma CausalSelfAttention_forward_eval (a : CausalSelfAttention.t) ak rk ak' rk' x :
  CausalSelfAttention.forward a false ak rk x = CausalSelfAttention.forward a false ak' rk' x.
Proof.
  unfold CausalSelfAttention.forward.
  destruct (Linear.forward (CausalSelfAttention.c_attn a) x) as [qkv|e]; simpl; [|reflexivity].
  destruct (decide _) as [Hview|]; [|reflexivity].
  destruct (decide _) as [Hmask|]; [|reflexivity].
  assert (Hy : imap (CausalSelfAttention.heads a false ak) qkv
               = imap (CausalSelfAttention.heads a false ak') qkv).
  { apply imap_ext_all. intros b m. unfold CausalSelfAttention.heads.
    apply imap_ext_all. intros i qi. apply heads_row_eval. }
  rewrite Hy. destruct (Linear.forward _ _) as [o|e]; simpl; [|reflexivity].
  rewrite !dropout3_disabled by (left; reflexivity). reflexivity.
Qed.

Lemma Block_forward_eval (blk : Block.t) mk mk' x :
  Block.forward blk false mk x = Block.forward blk false mk' x.
Proof.
  unfold Block.forward.
  destruct (LayerNorm.forward (Block.ln_1 blk) x) as [n1|e]; simpl; [|reflexivity].
  rewrite (CausalSelfAttention_forward_eval _ _ _ (Block.attn_keep mk') (Block.resid_keep mk')).
  destruct (CausalSelfAttention.forward _ _ _ _ _) as [y|e]; simpl; [|reflexivity].
  destruct (LayerNorm.forward (Block.ln_2 blk) _) as [n2|e]; simpl; [|reflexivity].
  unfold MLP.forward.
  destruct (Linear.forward (MLP.c_fc _) _) as [h|e]; simpl; [|reflexivity].
  destruct (Linear.forward (MLP.c_proj _) _) as [o|e]; simpl; [|reflexivity].
  rewrite !dropout3_disabled by (left; reflexivity). reflexivity.
Qed.

Lemma forward_stack_eval (stack : list Block.t) mk mk' l l' x :
  Block.forward_stack stack false mk l x = Block.forward_stack stack false mk' l' x.
Proof.
  revert l l' x. induction stack as [|blk stack IH]; intros l l' x; simpl; [reflexivity|].
  rewrite (Block_forward_eval blk (mk l) (mk' l')).
  destruct (Block.forward blk false (mk' l') x) as [z|e]; simpl; [apply IH | reflexivity].
Qed.

(** In eval mode the encoder and the decoder read none of their draws: not
    the dropout masks, and not the intensities, which are embedded and then
    left unused. *)
Lemma encode_eval_deterministic (m : GPT.t) (d d' : GPT.Draws) (idx : LongTensor) :
  GPT.wf m → GPT.training m = false → valid_ins m d → valid_ins m d' →
  GPT.encode m d idx = GPT.encode m d' idx.
Proof.
  intros Hwf Htr Hd Hd'. unfold GPT.encode, GPT.encoder_states. rewrite Htr.
  destruct (mapR _ (data idx)) as [tok|e]; simpl; [|reflexivity].
  destruct (Embedding.forward (GPT.encoder_wpe m) _) as [pos|e]; simpl; [|reflexivity].
  destruct Hwf as (_ & _ & _ & Hwie & _).
  assert (Hins : ∀ d0, valid_ins m d0 →
            ∃ ie, Embedding.forward (GPT.encoder_wie m) (Z.of_nat <$> GPT.ins d0) = Ok ie).
  { intros d0 Hd0. destruct (Embedding_forward_ok _ _ _ (Z.of_nat <$> GPT.ins d0) Hwie) as (ie & H & _).
    - apply Forall_fmap. eapply Forall_impl; [exact Hd0|]. intros i Hi. simpl in Hi |- *. lia.
    - exists ie. exact H. }
  destruct (Hins d Hd) as (ie & ->). destruct (Hins d' Hd') as (ie' & ->). simpl.
  rewrite !dropout3_disabled by (left; reflexivity).
  rewrite (forward_stack_eval _ (GPT.decoder_h_keep d) (GPT.decoder_h_keep d') 0 0).
  reflexivity.
Qed.

Lemma decode_eval_deterministic (m : GPT.t) (d d' : GPT.Draws) (zb : Mat) :
  GPT.training m = false → GPT.decode m d zb = GPT.decode m d' zb.
Proof.
  intros Htr. unfold GPT.decode. rewrite Htr.
  destruct (Linear.forward2 _ zb) as [zf|e]; simpl; [|reflexivity].
  destruct (GPT.view_blocks _ _ zf) as [z|e]; simpl; [|reflexivity].
  rewrite (forward_stack_eval _ (GPT.encoder_h_keep d) (GPT.encoder_h_keep d') 0 0).
  destruct (Block.forward_stack _ _ _ _ _) as [z'|e]; simpl; [|reflexivity].
  rewrite !dropout3_disabled by (left; reflexivity). reflexivity.
Qed.

(** Two eval-mode runs on the same input that both return, return the same
    value; they may differ in what they log. *)
Lemma forward_eval_same_value (m : GPT.t) itos (d d' : GPT.Draws) idx targets embedding o ev o' ev' :
  GPT.wf m → GPT.training m = false → valid_ins m d → valid_ins m d' →
  GPT.forward m itos d idx targets embedding = Ok (o, ev) →
  GPT.forward m itos d' idx targets embedding = Ok (o', ev') →
  o = o'.
Proof.
  intros Hwf Htr Hd Hd'. unfold GPT.forward.
  destruct (decide _); [|discriminate].
  rewrite (encode_eval_deterministic m d d' idx Hwf Htr Hd Hd').
  destruct (GPT.encode m d' idx) as [zb|e]; simpl; [|discriminate].
  destruct embedding; [congruence|].
  rewrite (decode_eval_deterministic m d d' zb Htr).
  destruct (GPT.decode m d' zb) as [logits2|e]; simpl; [|discriminate].
  destruct (GPT.losses logits2 targets) as [ls|e]; simpl; [|discriminate].
  destruct (GPT.status itos d idx logits2 ls.1 ls.2); simpl; [|discriminate].
  destruct (GPT.status itos d' idx logits2 ls.1 ls.2); simpl; [|discriminate].
  congruence.
Qed.

(** With [embedding=True] the whole result is a function of the ids and
    the weights. *)
Lemma forward_embedding_eval_deterministic (m : GPT.t) itos itos' (d d' : GPT.Draws) idx targets targets' :
  GPT.wf m → GPT.training m = false → valid_ins m d → valid_ins m d' →
  GPT.forward m itos d idx targets true = GPT.forward m itos' d' idx targets' true.
Proof.
  intros Hwf Htr Hd Hd'. rewrite !forward_embedding.
  rewrite (encode_eval_deterministic m d d' idx Hwf Htr Hd Hd'). reflexivity.
Qed.

(** With [embedding=True] a full-length batch of valid ids yields one
    bottleneck vector per sequence. *)
Lemma forward_embedding_shape (m : GPT.t) itos (d : GPT.Draws) (idx : LongTensor) targets :
  GPT.wf m → wf_long idx → valid_ids (GPTConfig.vocab_size (GPT.config m)) idx →
  valid_ins m d → 0 < size0 idx → size1 idx = GPTConfig.block_size (GPT.config m) →
  ∃ zb, GPT.forward m itos d idx targets true = Ok (GPT.Bottleneck zb, []) ∧
        has_shape2 zb (size0 idx) (GPTConfig.n_bottleneck (GPT.config m)).
Proof.
  intros Hwf Hidx Hids Hins Hb Ht. rewrite forward_embedding.
  destruct (decide _) as [_|Hne]; [|lia].
  destruct (encode_ok m d idx Hwf Hidx Hids Hins Hb Ht) as (zb & -> & Hzb).
  exists zb. split; [reflexivity | exact Hzb].
Qed.

(** Whatever a call with [embedding=False] returns is the logits of line
    329, of shape [(batch, block_size, vocab_size)]. *)
Lemma forward_logits_shape (m : GPT.t) itos (d : GPT.Draws) (idx : LongTensor) targets o ev :
  GPT.wf m → wf_long idx → valid_ids (GPTConfig.vocab_size (GPT.config m)) idx →
  valid_ins m d → 0 < size0 idx → size1 idx = GPTConfig.block_size (GPT.config m) →
  GPT.forward m itos d idx targets false = Ok (o, ev) →
  ∃ logits2 loss2, o = GPT.Logits logits2 loss2 ∧
    has_shape3 logits2 (size0 idx) (GPTConfig.block_size (GPT.config m))
      (GPTConfig.vocab_size (GPT.config m)).
Proof.
  intros Hwf Hidx Hids Hins Hb Ht.
  destruct (forward_logits_ok m d idx Hwf Hidx Hids Hins Hb Ht)
    as (zb & logits2 & Henc & Hdec & _ & Hshape).
  unfold GPT.forward. destruct (decide _) as [_|Hne]; [|lia].
  rewrite Henc. simpl. rewrite Hdec. simpl.
  destruct (GPT.losses logits2 targets) as [ls|e]; simpl; [|discriminate].
  destruct (GPT.status _ _ _ _ _ _) as [ev0|e]; simpl; [|discriminate].
  intros H. injection H as <- <-. exists logits2, ls.1. split; [reflexivity | exact Hshape].
Qed.

(** ** The example model on an all-padding sequence *)

Lemma padding_wf :
  wf_long padding ∧ valid_ids (GPTConfig.vocab_size (GPT.config tiny_model)) padding.
Proof. apply tiny_input_wf; [reflexivity | repeat constructor; lia]. Qed.

Lemma padding_run (u1 u2 : R) :
  ∃ logits2,
    has_shape3 logits2 1 4 5 ∧
    GPT.forward tiny_model tiny_itos (draws_with u1 u2) padding None false =
      if Rlt_dec u1 (5 / 10000) then Raise TypeError
      else if Rlt_dec u2 (5 / 1000) then Raise UnboundLocalError
      else Ok (GPT.Logits logits2 None, []).
Proof.
  destruct padding_wf as [Hwf Hids].
  apply (forward_without_targets_outcome tiny_model tiny_itos (draws_with u1 u2) padding
           tiny_model_wf Hwf Hids (tiny_draws_valid _ _)); [simpl; lia | reflexivity].
Qed.

(** C3 (defect of the code). On the all-padding batch of the example model
    (block size 4, vocabulary 5, bottleneck 3): with [embedding=True] the
    call returns a bottleneck of shape (1, 3); with [embedding=False] and no
    targets it returns logits of shape (1, 4, 5) when no logging draw fires,
    and raises an UnboundLocalError, returning no logits, when the second
    [random.random()] comes out as 0.001. *)
Theorem forward_shapes_on_padding :
  (∃ zb, GPT.forward tiny_model tiny_itos (draws_with (1 / 2) (1 / 1000)) padding None true
           = Ok (GPT.Bottleneck zb, []) ∧ has_shape2 zb 1 3) ∧
  (∃ logits2, GPT.forward tiny_model tiny_itos (draws_with (1 / 2) (1 / 2)) padding None false
           = Ok (GPT.Logits logits2 None, []) ∧ has_shape3 logits2 1 4 5) ∧
  GPT.forward tiny_model tiny_itos (draws_with (1 / 2) (1 / 1000)) padding None false
    = Raise UnboundLocalError.
Proof.
  destruct padding_wf as [Hwf Hids]. split; [|split].
  - apply (forward_embedding_shape tiny_model tiny_itos _ padding None
             tiny_model_wf Hwf Hids (tiny_draws_valid _ _)); [simpl; lia | reflexivity].
  - destruct (padding_run (1 / 2) (1 / 2)) as (logits2 & Hshape & H).
    exists logits2. split; [|exact Hshape]. rewrite H.
    destruct (Rlt_dec (1 / 2) (5 / 10000)); [lra|].
    destruct (Rlt_dec (1 / 2) (5 / 1000)); [lra | reflexivity].
  - destruct (padding_run (1 / 2) (1 / 1000)) as (logits2 & _ & H). rewrite H.
    destruct (Rlt_dec (1 / 2) (5 / 10000)); [lra|].
    destruct (Rlt_dec (1 / 1000) (5 / 1000)); [reflexivity | lra].
Qed.

(** C8 (defect of the code). Two runs of [forward] on the same all-padding
    input, with the same weights and in eval mode, differing only in the
    outcome of the second [random.random()]: one returns the logits, the
    other raises. *)
Theorem forward_on_padding_depends_on_log_draw :
  GPT.training tiny_model = false ∧
  GPT.forward tiny_model tiny_itos (draws_with (1 / 2) (1 / 2)) padding None false
  ≠ GPT.forward tiny_model tiny_itos (draws_with (1 / 2) (1 / 1000)) padding None false.
Proof.
  split; [reflexivity|].
  destruct (padding_run (1 / 2) (1 / 2)) as (logits2 & _ & ->).
  destruct (padding_run (1 / 2) (1 / 1000)) as (logits2' & _ & ->).
  destruct (Rlt_dec (1 / 2) (5 / 10000)); [lra|].
  destruct (Rlt_dec (1 / 2) (5 / 1000)); [lra|].
  destruct (Rlt_dec (1 / 1000) (5 / 1000)); [discriminate | lra].
Qed.

(** ** Causality of the attention block *)



















(** ** The losses *)

Lemma rsum_nonneg (l : Vec) : Forall (λ x, 0 <= x)%R l → (0 <= rsum l)%R.
Proof. induction 1 as [|x l Hx _ IH]; simpl; lra. Qed.

Lemma rsum_ge_elem (l : Vec) c e :
  Forall (λ x, 0 <= x)%R l → l !! c = Some e → (e <= rsum l)%R.
Proof.
  intros Hl. revert c. induction Hl as [|x l Hx Hl IH]; intros c Hc; [discriminate|].
  destruct c as [|c]; simpl in *.
  - injection Hc as <-. pose proof (rsum_nonneg l Hl). lra.
  - pose proof (IH c Hc). lra.
Qed.

Lemma exps_nonneg (row : list ext) : Forall (λ x, 0 <= x)%R (exp_ext <$> row).
Proof.
  apply Forall_fmap, Forall_forall. intros [r|] _; simpl; [|lra].
  left. apply exp_pos.
Qed.

(** A softmax probability of a finite logit lies in (0, 1]. *)
Lemma softmax_finite_bounds (row : list ext) c r p :
  row !! c = Some (Fin r) → softmax row !! c = Some p → (0 < p <= 1)%R.
Proof.
  intros Hc Hp. unfold softmax in Hp. rewrite !list_lookup_fmap, Hc in Hp.
  simpl in Hp. injection Hp as <-.
  assert (He : (exp r <= rsum (exp_ext <$> row))%R).
  { apply (rsum_ge_elem _ c); [apply exps_nonneg|]. rewrite list_lookup_fmap, Hc. reflexivity. }
  pose proof (exp_pos r) as Hpos.
  assert (HZ : (0 < rsum (exp_ext <$> row))%R) by lra.
  split.
  - apply Rdiv_lt_0_compat; assumption.
  - apply (Rmult_le_reg_r (rsum (exp_ext <$> row))); [exact HZ|].
    unfold Rdiv. rewrite Rmult_assoc, Rinv_l by lra. lra.
Qed.

Lemma nll_nonneg (row : Vec) c : c < length row → (0 <= nll row c)%R.
Proof.
  intros Hc. unfold nll.
  destruct (lookup_lt_is_Some_2 row c Hc) as [r Hr].
  assert (Hrow : (Fin <$> row) !! c = Some (Fin r)) by (rewrite list_lookup_fmap, Hr; reflexivity).
  destruct (softmax (Fin <$> row) !! c) as [p|] eqn:Hp.
  - destruct (softmax_finite_bounds _ _ _ _ Hrow Hp) as [Hp0 [Hp1 | ->]]; simpl.
    + pose proof (ln_increasing p 1 Hp0 Hp1) as H. rewrite ln_1 in H. lra.
    + rewrite ln_1. lra.
  - apply lookup_ge_None in Hp. unfold softmax in Hp.
    rewrite !length_fmap in Hp. lia.
Qed.

(** [F.cross_entropy] with [ignore_index]: on targets that are the ignore
    index or a class, the loss exists and is non-negative. *)
Lemma cross_entropy_ok (input : Mat) (target : list Z) (ignore_index : Z) n V :
  has_shape2 input n V → length target = n →
  Forall (λ tg, tg = ignore_index ∨ 0 ≤ tg < Z.of_nat V)%Z target →
  ∃ loss, cross_entropy input target ignore_index = Ok loss ∧ (0 <= loss)%R.
Proof.
  intros [Hlen Hrows] Htl Htg. unfold cross_entropy.
  destruct (decide (length input = length target)) as [_|Hne]; [|lia].
  destruct (mapR_success (λ rt : Vec * Z, cross_entropy_term ignore_index rt.1 rt.2)
              (λ rt, length rt.1 = V ∧ (rt.2 = ignore_index ∨ 0 ≤ rt.2 < Z.of_nat V)%Z)
              (λ o, ∀ x, o = Some x → (0 <= x)%R) (zip input target))
    as (terms & -> & _ & Hterms).
  { intros [row tg] [Hrow Hrange]. simpl in *. unfold cross_entropy_term.
    destruct (decide (tg = ignore_index)) as [_|Hni].
    - eexists. split; [reflexivity | discriminate].
    - destruct Hrange as [?|Hrange]; [contradiction|].
      destruct (decide _) as [_|Hout]; [|lia].
      eexists. split; [reflexivity|]. intros x Hx. injection Hx as <-.
      apply nll_nonneg. lia. }
  { apply Forall_lookup. intros i [row tg] Hi. simpl.
    apply lookup_zip_with_Some in Hi as (row' & tg' & Heq & Hrow & Htg').
    injection Heq as Hr Ht. subst row' tg'. split.
    - exact (proj1 (Forall_lookup _ _) Hrows i row Hrow).
    - exact (proj1 (Forall_lookup _ _) Htg i tg Htg'). }
  simpl. eexists. split; [reflexivity|].
  assert (Hk : Forall (λ x, 0 <= x)%R (omap (λ o : option R, o) terms)).
  { apply Forall_forall. intros x Hx.
    apply list_elem_of_omap in Hx as (o & Ho & Hox).
    exact (proj1 (Forall_forall _ _) Hterms o Ho x Hox). }
  destruct (omap _ terms) as [|x kept].
  - simpl. unfold Rdiv. rewrite Rmult_0_l. lra.
  - apply Rle_mult_inv_pos; [apply rsum_nonneg, Hk|].
    apply lt_0_INR. simpl. lia.
Qed.

(** [torch.bincount] refuses the ignore sentinel: a negative target makes
    [_custom_loss] raise before it computes anything. *)
Lemma custom_loss_negative_target (logits2 : Tensor3) (targets : LongTensor) :
  Exists (λ v, v < 0)%Z (concat (data targets)) →
  _custom_loss logits2 targets = Raise RuntimeError.
Proof.
  intros Hneg. unfold _custom_loss, bincount.
  destruct (decide _) as [Hall|_]; [|reflexivity].
  exfalso. apply Exists_exists in Hneg as (v & Hin & Hv).
  pose proof (proj1 (Forall_forall _ _) Hall v Hin) as H. simpl in H. lia.
Qed.

Lemma concat_shape {A} (x : list (list (list A))) b t c :
  has_shape3 x b t c → has_shape2 (concat x) (b * t) c.
Proof.
  intros [Hlen Hmats]. split.
  - rewrite (concat_length_const x t), Hlen; [reflexivity|].
    eapply Forall_impl; [exact Hmats|]. intros m [Hm _]. exact Hm.
  - apply Forall_concat. eapply Forall_impl; [exact Hmats|]. intros m [_ Hm]. exact Hm.
Qed.

(** Targets that carry the ignore sentinel [-1] of line 334 pass the
    cross-entropy and stop the call in [_custom_loss]. *)
Lemma forward_ignore_index_raises (m : GPT.t) itos (d : GPT.Draws) (idx targets : LongTensor) :
  GPT.wf m → wf_long idx → valid_ids (GPTConfig.vocab_size (GPT.config m)) idx →
  valid_ins m d → 0 < size0 idx → size1 idx = GPTConfig.block_size (GPT.config m) →
  has_shape2 (data targets) (size0 idx) (size1 idx) →
  Forall (Forall (λ tg, tg = -1 ∨ 0 ≤ tg < Z.of_nat (GPTConfig.vocab_size (GPT.config m)))%Z)
    (data targets) →
  Exists (λ v, v < 0)%Z (concat (data targets)) →
  GPT.forward m itos d idx (Some targets) false = Raise RuntimeError.
Proof.
  intros Hwf Hidx Hids Hins Hb Ht Htshape Htg Hneg.
  destruct (forward_logits_ok m d idx Hwf Hidx Hids Hins Hb Ht)
    as (zb & logits2 & Henc & Hdec & _ & Hshape).
  unfold GPT.forward. destruct (decide _) as [_|Hne]; [|lia].
  rewrite Henc. simpl. rewrite Hdec. simpl. unfold GPT.losses.
  destruct (cross_entropy_ok (concat logits2) (concat (data targets)) (-1) _ _
              (concat_shape _ _ _ _ Hshape)) as (loss & -> & _).
  - rewrite (concat_length_const _ (size1 idx)) by apply Htshape.
    destruct Htshape as [-> _]. rewrite Ht. reflexivity.
  - apply Forall_concat, Htg.
  - simpl. rewrite (custom_loss_negative_target _ _ Hneg). reflexivity.
Qed.

Lemma example_input_wf :
  wf_long example_input ∧
  valid_ids (GPTConfig.vocab_size (GPT.config tiny_model)) example_input.
Proof. apply tiny_input_wf; [reflexivity | repeat constructor; lia]. Qed.

(** C5 (defect of the code). Vocabulary 5, block size 4, batch 1, input
    [1,3,4,0].  Without targets the call returns logits of shape (1, 4, 5)
    when no logging draw fires.  With the targets [3,4,2,-1] the
    cross-entropy of line 334 exists and is non-negative, but the call
    never returns it: whatever the draws, [_custom_loss] raises a
    RuntimeError, because [torch.bincount] refuses the sentinel [-1]. *)
Theorem forward_example_scenario :
  (∃ logits2,
     GPT.forward tiny_model tiny_itos (draws_with (1 / 2) (1 / 2)) example_input None false
       = Ok (GPT.Logits logits2 None, []) ∧
     has_shape3 logits2 1 4 5 ∧
     ∃ loss2, cross_entropy (concat logits2) (concat (data example_targets)) (-1) = Ok loss2 ∧
              (0 <= loss2)%R) ∧
  (∀ u1 u2,
     GPT.forward tiny_model tiny_itos (draws_with u1 u2) example_input
       (Some example_targets) false = Raise RuntimeError).
Proof.
  destruct example_input_wf as [Hwf Hids].
  assert (Htg : Forall (Forall (λ tg, tg = -1 ∨ 0 ≤ tg < Z.of_nat 5)%Z) (data example_targets)).
  { repeat constructor; lia. }
  split.
  - destruct (forward_without_targets_outcome tiny_model tiny_itos
                (draws_with (1 / 2) (1 / 2)) example_input
                tiny_model_wf Hwf Hids (tiny_draws_valid _ _)) as (logits2 & Hshape & H);
      [simpl; lia | reflexivity |].
    exists logits2. split; [|split; [exact Hshape|]].
    + rewrite H. simpl.
      destruct (Rlt_dec (1 / 2) (5 / 10000)); [lra|].
      destruct (Rlt_dec (1 / 2) (5 / 1000)); [lra | reflexivity].
    + apply (cross_entropy_ok _ _ _ (1 * 4) 5).
      * apply concat_shape, Hshape.
      * reflexivity.
      * apply Forall_concat, Htg.
  - intros u1 u2.
    apply (forward_ignore_index_raises tiny_model tiny_itos _ example_input example_targets
             tiny_model_wf Hwf Hids (tiny_draws_valid _ _)).
    + simpl. lia.
    + reflexivity.
    + repeat constructor.
    + exact Htg.
    + simpl. repeat (first [apply Exists_cons_hd; lia | apply Exists_cons_tl]).
Qed.

(** ** Sampling *)

Lemma insert_desc_perm x l : Permutation (insert_desc x l) (x :: l).
Proof.
  induction l as [|y l IH]; simpl; [reflexivity|].
  destruct (Rle_dec y x); [reflexivity|].
  rewrite IH. apply perm_swap.
Qed.

Lemma sort_desc_perm l : Permutation (sort_desc l) l.
Proof.
  induction l as [|x l IH]; simpl; [reflexivity|].
  rewrite insert_desc_perm, IH. reflexivity.
Qed.

Lemma insert_desc_sorted x l : descending l → descending (insert_desc x l).
Proof.
  unfold descending. induction 1 as [|y l Hl IH Hy]; simpl.
  - repeat constructor.
  - destruct (Rle_dec y x) as [Hyx|Hyx].
    + constructor; [constructor; assumption|].
      constructor; [exact Hyx|]. eapply Forall_impl; [exact Hy|].
      intros z Hz. simpl in Hz. lra.
    + constructor; [exact IH|].
      rewrite insert_desc_perm. constructor; [lra | exact Hy].
Qed.

Lemma sort_desc_sorted l : descending (sort_desc l).
Proof.
  induction l as [|x l IH]; simpl; [constructor | apply insert_desc_sorted, IH].
Qed.

Lemma count_greater_perm x l l' : Permutation l l' → count_greater x l = count_greater x l'.
Proof. induction 1; simpl; lia. Qed.

Lemma count_greater_mono x y l : (y <= x)%R → count_greater x l ≤ count_greater y l.
Proof.
  intros Hxy. induction l as [|z l IH]; simpl; [lia|].
  destruct (Rlt_dec x z); destruct (Rlt_dec y z); try lia. lra.
Qed.

Lemma count_greater_bound x l : count_greater x l ≤ length l.
Proof. induction l as [|z l IH]; simpl; [lia|]. destruct (Rlt_dec x z); lia. Qed.

Lemma count_greater_zero x l : Forall (λ z, z <= x)%R l → count_greater x l = 0.
Proof.
  induction 1 as [|z l Hz _ IH]; simpl; [reflexivity|].
  destruct (Rlt_dec x z); [lra | exact IH].
Qed.

(** Fewer than [n + 1] entries lie strictly above the entry of rank [n]. *)
Lemma count_greater_sorted s n kth :
  descending s → s !! n = Some kth → count_greater kth s ≤ n.
Proof.
  intros Hs. revert n. induction Hs as [|a s Hs IH Ha]; intros n Hn; [discriminate|].
  destruct n as [|n]; simpl in *.
  - injection Hn as ->. destruct (Rlt_dec kth kth); [lra|].
    rewrite count_greater_zero; [lia | exact Ha].
  - pose proof (IH n Hn). destruct (Rlt_dec kth a); lia.
Qed.

(** An entry below the entry of rank [n] has more than [n] entries strictly
    above it. *)
Lemma count_greater_below s n kth y :
  descending s → s !! n = Some kth → (y < kth)%R → n < count_greater y s.
Proof.
  intros Hs. revert n. induction Hs as [|a s Hs IH Ha]; intros n Hn Hy; [discriminate|].
  destruct n as [|n]; simpl in *.
  - injection Hn as ->. destruct (Rlt_dec y kth); [lia | contradiction].
  - pose proof (IH n Hn Hy).
    assert (kth <= a)%R.
    { exact (proj1 (Forall_forall _ _) Ha kth (list_elem_of_lookup_2 _ _ _ Hn)). }
    destruct (Rlt_dec y a); [lia | lra].
Qed.

Lemma rsum_scale (l : Vec) (z : R) : rsum ((λ e, e / z)%R <$> l) = (rsum l / z)%R.
Proof.
  induction l as [|x l IH]; csimpl.
  - unfold Rdiv. rewrite Rmult_0_l. reflexivity.
  - rewrite IH. unfold Rdiv. ring.
Qed.

(** The softmax of a row with a finite entry is a probability vector. *)
Lemma rsum_softmax (row : list ext) :
  (0 < rsum (exp_ext <$> row))%R → rsum (softmax row) = 1%R.
Proof.
  intros HZ. unfold softmax. rewrite rsum_scale. unfold Rdiv. apply Rinv_r. lra.
Qed.

Lemma exps_pos_of_finite (row : list ext) c r :
  row !! c = Some (Fin r) → (0 < rsum (exp_ext <$> row))%R.
Proof.
  intros Hc.
  assert (exp r <= rsum (exp_ext <$> row))%R.
  { apply (rsum_ge_elem _ c); [apply exps_nonneg|]. rewrite list_lookup_fmap, Hc. reflexivity. }
  pose proof (exp_pos r). lra.
Qed.

Lemma softmax_nonneg (row : list ext) : Forall (λ p, 0 <= p)%R (softmax row).
Proof.
  unfold softmax. apply Forall_fmap. eapply Forall_impl; [apply exps_nonneg|].
  intros e He. simpl.
  pose proof (rsum_nonneg _ (exps_nonneg row)) as [HZ | HZ].
  - apply Rle_mult_inv_pos; assumption.
  - rewrite <- HZ. rewrite Rdiv_0_r. lra.
Qed.

Lemma softmax_masked (row : list ext) j : row !! j = Some NegInf → softmax row !! j = Some 0%R.
Proof.
  intros Hj. unfold softmax. rewrite !list_lookup_fmap, Hj. simpl.
  unfold Rdiv. rewrite Rmult_0_l. reflexivity.
Qed.

Lemma softmax_positive_finite (row : list ext) i p :
  softmax row !! i = Some p → (0 < p)%R → ∃ x, row !! i = Some (Fin x).
Proof.
  intros Hp Hpos. destruct (row !! i) as [[x|]|] eqn:Hi.
  - exists x. reflexivity.
  - rewrite (softmax_masked row i Hi) in Hp. injection Hp as <-. lra.
  - unfold softmax in Hp. rewrite !list_lookup_fmap, Hi in Hp. discriminate.
Qed.

(** The index drawn holds a positive weight. *)
Lemma inverse_cdf_positive (probs : Vec) (u : R) :
  Forall (λ p, 0 <= p)%R probs → (0 <= u < rsum probs)%R →
  ∃ p, probs !! inverse_cdf probs u = Some p ∧ (0 < p)%R.
Proof.
  intros Hp. revert u. induction Hp as [|p ps Hp0 _ IH]; intros u Hu; simpl in *.
  - lra.
  - destruct (Rlt_dec u p) as [Hlt|Hge].
    + exists p. split; [reflexivity | lra].
    + apply IH. lra.
Qed.

Lemma multinomial_positive (probs : Vec) (u : R) i :
  Forall (λ p, 0 <= p)%R probs → (0 <= u < 1)%R → multinomial probs u = Ok i →
  ∃ p, probs !! i = Some p ∧ (0 < p)%R.
Proof.
  intros Hp Hu. unfold multinomial.
  destruct (Rlt_dec 0 (rsum probs)) as [Hs|]; [|discriminate].
  intros H. injection H as <-. apply inverse_cdf_positive; [exact Hp|]. nra.
Qed.

(** Lines 500-502: the threshold of the filter is the entry of rank
    [min(k, V) - 1] of the row. *)
Lemma top_k_filter_Some (k : Z) (logits : Vec) (filtered : list ext) :
  GPT.top_k_filter (Some k) logits = Ok filtered →
  ∃ n kth, (Z.of_nat n < k)%Z ∧ sort_desc logits !! n = Some kth ∧
           filtered = (λ x, if Rlt_dec x kth then NegInf else Fin x) <$> logits.
Proof.
  unfold GPT.top_k_filter.
  destruct (decide _) as [|Hneg]; [discriminate|].
  destruct (decide _) as [|Hzero]; [discriminate|].
  intros H. injection H as <-.
  assert (Hn : Z.to_nat (Z.min k (Z.of_nat (length logits))) - 1 < length (sort_desc logits)).
  { rewrite (Permutation_length (sort_desc_perm logits)). lia. }
  destruct (lookup_lt_is_Some_2 _ _ Hn) as [kth Hkth].
  exists (Z.to_nat (Z.min k (Z.of_nat (length logits))) - 1), kth.
  split; [lia|]. split; [exact Hkth|]. rewrite Hkth. reflexivity.
Qed.

(** Every logit with [k] or more logits strictly above it is filtered out:
    its probability is zero. *)
Lemma top_k_filter_zero (k : Z) (logits : Vec) (filtered : list ext) j y :
  GPT.top_k_filter (Some k) logits = Ok filtered →
  logits !! j = Some y → (k ≤ Z.of_nat (count_greater y logits))%Z →
  softmax filtered !! j = Some 0%R.
Proof.
  intros Hf Hy Hk. destruct (top_k_filter_Some k logits filtered Hf) as (n & kth & Hn & Hkth & ->).
  apply softmax_masked. rewrite list_lookup_fmap, Hy. simpl.
  destruct (Rlt_dec y kth) as [_|Hge]; [reflexivity|]. exfalso.
  pose proof (count_greater_sorted _ _ _ (sort_desc_sorted logits) Hkth) as H1.
  pose proof (count_greater_mono y kth (sort_desc logits) ltac:(lra)) as H2.
  rewrite (count_greater_perm y _ _ (sort_desc_perm logits)) in H2. lia.
Qed.

(** The token sampled from a filtered row is among the [k] highest logits. *)
Lemma sample_row_top_k (temperature : R) (k : Z) (u : R) (row : Vec) (c : Z) :
  (0 <= u < 1)%R → GPT.sample_row temperature (Some k) u row = Ok c →
  ∃ i x, c = Z.of_nat i ∧ ((λ x, x / temperature)%R <$> row) !! i = Some x ∧
         (Z.of_nat (count_greater x ((λ x, x / temperature)%R <$> row)) < k)%Z.
Proof.
  intros Hu. unfold GPT.sample_row.
  set (logits := (λ x, x / temperature)%R <$> row).
  intros H. apply bind_Ok in H as (filtered & Hf & H).
  destruct (Req_dec_T temperature 0) as [|Htemp]; [discriminate|].
  apply bind_Ok in H as (i & Hi & H). injection H as <-.
  destruct (multinomial_positive _ _ _ (softmax_nonneg filtered) Hu Hi) as (p & Hp & Hpos).
  destruct (softmax_positive_finite _ _ _ Hp Hpos) as (x & Hx).
  destruct (top_k_filter_Some k logits filtered Hf) as (n & kth & Hn & Hkth & ->).
  rewrite list_lookup_fmap in Hx.
  destruct (logits !! i) as [x'|] eqn:Hx'; [|discriminate]. simpl in Hx.
  destruct (Rlt_dec x' kth) as [|Hge]; [discriminate|]. injection Hx as <-.
  exists i, x'. split; [reflexivity|]. split; [exact Hx'|].
  pose proof (count_greater_sorted _ _ _ (sort_desc_sorted logits) Hkth) as H1.
  pose proof (count_greater_mono x' kth (sort_desc logits) ltac:(lra)) as H2.
  rewrite (count_greater_perm x' _ _ (sort_desc_perm logits)) in H2. lia.
Qed.

Lemma mapR_imap_Forall2 {A B} (f : nat → A → result B) (Q : A → B → Prop) (l : list A) (ys : list B) :
  (∀ i x y, f i x = Ok y → Q x y) →
  mapR (λ r, r) (imap f l) = Ok ys → Forall2 Q l ys.
Proof.
  revert f ys. induction l as [|x l IH]; intros f ys Hf; simpl.
  - intros H. injection H as <-. constructor.
  - intros H. apply bind_Ok in H as (y & Hy & H). apply bind_Ok in H as (ys' & Hys & H).
    injection H as <-. constructor; [exact (Hf 0 x y Hy)|].
    apply (IH (f ∘ S)); [|exact Hys]. intros i x' y'. apply Hf.
Qed.

(** ** One iteration of the sampling loop *)

Lemma crop_full (bs : nat) (V : nat) (idx : LongTensor) :
  0 < bs → bs ≤ size1 idx → wf_long idx → valid_ids V idx →
  wf_long (GPT.crop bs idx) ∧ valid_ids V (GPT.crop bs idx) ∧
  size0 (GPT.crop bs idx) = size0 idx ∧ size1 (GPT.crop bs idx) = bs.
Proof.
  intros Hbs Ht [Hlen Hrows] Hids. unfold GPT.crop.
  destruct (decide (size1 idx ≤ bs)) as [Hle|Hgt].
  - repeat split; try assumption. lia.
  - destruct (decide (bs = 0)) as [->|_]; [lia|].
    unfold wf_long, valid_ids, has_shape2. simpl. repeat split.
    + rewrite length_fmap. exact Hlen.
    + apply Forall_fmap. eapply Forall_impl; [exact Hrows|].
      intros r Hr. simpl in Hr |- *. rewrite length_drop. lia.
    + apply Forall_fmap. eapply Forall_impl; [exact Hids|].
      intros r Hr. simpl. apply Forall_drop, Hr.
Qed.

Lemma crop_short (bs : nat) (idx : LongTensor) : size1 idx ≤ bs → GPT.crop bs idx = idx.
Proof. intros H. unfold GPT.crop. destruct (decide _); [reflexivity | lia]. Qed.

Lemma last_position_ok (logits : Tensor3) b t V :
  0 < t → has_shape3 logits b t V →
  ∃ rows, GPT.last_position logits = Ok rows ∧ has_shape2 rows b V.
Proof.
  intros Ht [Hlen Hmats].
  destruct (mapR_success
              (λ m : Mat, match last m with Some r => Ok r | None => Raise IndexError end)
              (λ m, has_shape2 m t V) (λ r, length r = V) logits) as (rows & H & Hl & HQ).
  - intros m [Hm Hrows]. rewrite last_lookup.
    destruct (m !! pred (length m)) as [r|] eqn:Hr.
    + exists r. split; [reflexivity|]. exact (proj1 (Forall_lookup _ _) Hrows _ _ Hr).
    + apply lookup_ge_None in Hr. lia.
  - exact Hmats.
  - exists rows. split; [exact H|]. split; [congruence | exact HQ].
Qed.

(** The filter keeps the row length and at least one finite logit. *)
Lemma top_k_filter_ok (top_k : option Z) (logits : Vec) :
  0 < length logits → (∀ k, top_k = Some k → 1 ≤ k)%Z →
  ∃ filtered j x, GPT.top_k_filter top_k logits = Ok filtered ∧
                  length filtered = length logits ∧ filtered !! j = Some (Fin x).
Proof.
  intros Hlen Hk. destruct top_k as [k|]; simpl.
  - specialize (Hk k eq_refl).
    destruct (decide _) as [|_]; [lia|]. destruct (decide _) as [|_]; [lia|].
    assert (Hn : Z.to_nat (Z.min k (Z.of_nat (length logits))) - 1 < length (sort_desc logits)).
    { rewrite (Permutation_length (sort_desc_perm logits)). lia. }
    destruct (lookup_lt_is_Some_2 _ _ Hn) as [kth Hkth]. rewrite Hkth. simpl.
    assert (Hin : kth ∈ logits).
    { rewrite <- (sort_desc_perm logits). eapply list_elem_of_lookup_2, Hkth. }
    apply list_elem_of_lookup_1 in Hin as [j Hj].
    eexists _, j, kth. split; [reflexivity|]. split; [apply length_fmap|].
    rewrite list_lookup_fmap, Hj. simpl.
    destruct (Rlt_dec kth kth); [lra | reflexivity].
  - destruct logits as [|x logits]; [simpl in Hlen; lia|].
    eexists _, 0, x. split; [reflexivity|]. split; [apply length_fmap | reflexivity].
Qed.

Lemma sample_row_ok (temperature : R) (top_k : option Z) (u : R) (row : Vec) :
  temperature ≠ 0%R → 0 < length row → (∀ k, top_k = Some k → 1 ≤ k)%Z → (0 <= u < 1)%R →
  ∃ i, GPT.sample_row temperature top_k u row = Ok (Z.of_nat i) ∧ i < length row.
Proof.
  intros Htemp Hlen Hk Hu. unfold GPT.sample_row.
  destruct (top_k_filter_ok top_k ((λ x, x / temperature)%R <$> row))
    as (filtered & j & x & -> & Hfl & Hj); [rewrite length_fmap; exact Hlen | exact Hk |].
  simpl. destruct (Req_dec_T temperature 0) as [|_]; [contradiction|].
  pose proof (rsum_softmax filtered (exps_pos_of_finite _ _ _ Hj)) as Hsum.
  unfold multinomial. rewrite Hsum.
  destruct (Rlt_dec 0 1) as [_|]; [|lra]. simpl.
  eexists. split; [reflexivity|].
  destruct (inverse_cdf_positive (softmax filtered) (u * 1)) as (p & Hp & _).
  - apply softmax_nonneg.
  - rewrite Hsum. lra.
  - apply lookup_lt_Some in Hp. unfold softmax in Hp.
    rewrite !length_fmap, Hfl, length_fmap in Hp. exact Hp.
Qed.

Lemma sample_step_ok (m : GPT.t) itos (d : GPT.StepDraws) temperature top_k (idx : LongTensor) :
  step_ready m d temperature top_k → sequence_ready m idx →
  ∃ c, GPT.sample_step m itos d temperature top_k idx
         = Ok (GPT.cat idx [c], bool_decide (c = GPT.END_OF_SENTENCE_IDX)) ∧
       (0 ≤ c < Z.of_nat (GPTConfig.vocab_size (GPT.config m)))%Z.
Proof.
  intros (Hwf & Hbs & HV & Hins & Hu1 & Hu2 & Htemp & Hk & Hu) (Hidx & Hids & Hb & Ht).
  destruct (crop_full _ _ idx Hbs Ht Hidx Hids) as (Hcwf & Hcids & Hcb & Hct).
  unfold GPT.sample_step.
  destruct (forward_without_targets_outcome m itos (GPT.forward_draws d) _
              Hwf Hcwf Hcids Hins ltac:(lia) Hct) as (logits & Hshape & ->).
  destruct (Rlt_dec _ _) as [|_]; [contradiction|].
  destruct (Rlt_dec _ _) as [|_]; [contradiction|]. simpl.
  rewrite Hcb, Hb in Hshape.
  destruct (last_position_ok logits _ _ _ Hbs Hshape) as (rows & -> & [Hrl Hrows]). simpl.
  destruct rows as [|row [|row' rows]]; simpl in Hrl; try lia.
  apply Forall_cons in Hrows as [Hrow _].
  destruct (sample_row_ok temperature top_k (GPT.u_sample d 0) row Htemp ltac:(lia) Hk Hu)
    as (i & Hi & Hilt).
  simpl. rewrite Hi. simpl. exists (Z.of_nat i). split; [reflexivity | lia].
Qed.


(** ** The sampling loop *)

(** An iteration that completes appended exactly one token, and it breaks
    the loop exactly when that token is the end-of-sequence id. *)
Lemma sample_step_inv (m : GPT.t) itos d temperature top_k idx idx' stop :
  GPT.sample_step m itos d temperature top_k idx = Ok (idx', stop) →
  ∃ c, idx' = GPT.cat idx [c] ∧ stop = bool_decide (c = GPT.END_OF_SENTENCE_IDX).
Proof.
  unfold GPT.sample_step. intros H.
  apply bind_Ok in H as ([o ev] & _ & H). simpl in H.
  destruct o as [zb|logits loss]; [discriminate|].
  apply bind_Ok in H as (rows & _ & H). apply bind_Ok in H as (idx_next & _ & H).
  apply bind_Ok in H as (st & Hend & H). injection H as <- <-.
  unfold GPT.is_end in Hend.
  destruct idx_next as [|c [|c' rest]]; try discriminate.
  injection Hend as <-. exists c. split; reflexivity.
Qed.



Lemma generate_loop_spec (m : GPT.t) itos draws temperature top_k n step idx out :
  GPT.generate_loop m itos draws temperature top_k n step idx = Ok out →
  ∃ toks, out = append_tokens idx toks ∧ length toks ≤ n ∧
    (∀ i c, toks !! i = Some c → S i < length toks → c ≠ GPT.END_OF_SENTENCE_IDX) ∧
    (length toks < n → last toks = Some GPT.END_OF_SENTENCE_IDX).
Proof.
  revert step idx. induction n as [|n IH]; intros step idx; simpl.
  - intros H. injection H as <-. exists []. simpl. split_and!.
    + reflexivity.
    + lia.
    + intros i c Hi. discriminate.
    + lia.
  - intros H. apply bind_Ok in H as ([idx1 stop] & Hstep & H). simpl in H.
    destruct (sample_step_inv _ _ _ _ _ _ _ _ Hstep) as (c & -> & ->).
    destruct (bool_decide (c = GPT.END_OF_SENTENCE_IDX)) eqn:Hc.
    + injection H as <-. apply bool_decide_eq_true in Hc. exists [c]. simpl.
      split_and!.
      * reflexivity.
      * lia.
      * intros i c' _ Hi. lia.
      * intros _. rewrite Hc. reflexivity.
    + apply bool_decide_eq_false in Hc.
      destruct (IH _ _ H) as (toks & -> & Hlen & Hmid & Hlast).
      exists (c :: toks). simpl. split_and!.
      * reflexivity.
      * lia.
      * intros [|i] c' Hi Hlt; simpl in Hi.
        -- injection Hi as <-. exact Hc.
        -- apply (Hmid i c' Hi). lia.
      * intros Hlt. specialize (Hlast ltac:(lia)).
        destruct toks as [|c' toks]; [discriminate | exact Hlast].
Qed.


(** A conditioning sequence shorter than the block size stops the first
    iteration: the forward call raises in the bottleneck layer. *)
Lemma generate_short_prefix_raises (m : GPT.t) itos draws temperature top_k idx (max_new_tokens : Z) :
  GPT.wf m → wf_long idx → valid_ids (GPTConfig.vocab_size (GPT.config m)) idx →
  valid_ins m (GPT.forward_draws (draws 0)) → 0 < size0 idx →
  0 < GPTConfig.n_embd (GPT.config m) → size1 idx < GPTConfig.block_size (GPT.config m) →
  (0 < max_new_tokens)%Z →
  GPT.generate m itos draws idx max_new_tokens temperature top_k = Raise RuntimeError.
Proof.
  intros Hwf Hidx Hids Hins Hb HC Ht Hmax. unfold GPT.generate.
  destruct (Z.to_nat max_new_tokens) as [|n] eqn:Hn; [lia|]. simpl.
  unfold GPT.sample_step. rewrite crop_short by lia.
  unfold GPT.forward. destruct (decide _) as [_|Hne]; [|lia].
  rewrite (encode_short_raises m _ idx Hwf Hidx Hids Hins Hb HC Ht). reflexivity.
Qed.

Lemma tiny_step_ready (u : R) (top_k : option Z) :
  (0 <= u < 1)%R → (∀ k, top_k = Some k → 1 ≤ k)%Z →
  step_ready tiny_model (step_draws (1 / 2) (1 / 2) u) 1 top_k.
Proof.
  intros Hu Hk. unfold step_ready. split_and!; simpl; try lia; try lra.
  - apply tiny_model_wf.
  - apply tiny_draws_valid.
  - exact Hk.
Qed.

Lemma example_input_ready : sequence_ready tiny_model example_input.
Proof.
  destruct example_input_wf as [Hwf Hids]. unfold sequence_ready.
  split_and!; [exact Hwf | exact Hids | reflexivity | simpl; lia].
Qed.







(** C6. In an iteration of the sampling loop run with a top-k restriction
    [k], every sampled token has a scaled logit among the [k] highest of
    its row (fewer than [k] logits of the row are strictly above it), and
    every token with [k] or more logits strictly above it has probability
    zero in the distribution the token is sampled from. *)
Theorem top_k_sampling (m : GPT.t) itos (d : GPT.StepDraws) (temperature : R) (k : Z)
    (idx idx' : LongTensor) (stop : bool) :
  (∀ b, 0 <= GPT.u_sample d b < 1)%R →
  GPT.sample_step m itos d temperature (Some k) idx = Ok (idx', stop) →
  ∃ logits loss ev rows idx_next,
    GPT.forward m itos (GPT.forward_draws d)
      (GPT.crop (GPTConfig.block_size (GPT.config m)) idx) None false
      = Ok (GPT.Logits logits loss, ev) ∧
    GPT.last_position logits = Ok rows ∧
    idx' = GPT.cat idx idx_next ∧
    Forall2 (λ row c,
      let scaled := (λ x, x / temperature)%R <$> row in
      (∃ i x, c = Z.of_nat i ∧ scaled !! i = Some x ∧
              (Z.of_nat (count_greater x scaled) < k)%Z) ∧
      (∃ filtered, GPT.top_k_filter (Some k) scaled = Ok filtered ∧
         ∀ j y, scaled !! j = Some y → (k ≤ Z.of_nat (count_greater y scaled))%Z →
                softmax filtered !! j = Some 0%R)) rows idx_next.
Proof.
  intros Hu. unfold GPT.sample_step. intros H.
  apply bind_Ok in H as ([o ev] & Hfwd & H). simpl in H.
  destruct o as [zb|logits loss]; [discriminate|].
  apply bind_Ok in H as (rows & Hrows & H). apply bind_Ok in H as (idx_next & Hnext & H).
  apply bind_Ok in H as (st & _ & H). injection H as <- <-.
  exists logits, loss, ev, rows, idx_next. split_and!; try reflexivity; try assumption.
  apply (mapR_imap_Forall2 _ _ _ _) with (2 := Hnext).
  intros b row c Hc. simpl. split.
  - exact (sample_row_top_k temperature k _ row c (Hu b) Hc).
  - unfold GPT.sample_row in Hc. apply bind_Ok in Hc as (filtered & Hf & _).
    exists filtered. split; [exact Hf|]. intros j y. apply top_k_filter_zero, Hf.
Qed.

Lemma top_k_sampling_witness :
  ∃ c, GPT.sample_step tiny_model tiny_itos (step_draws (1 / 2) (1 / 2) (1 / 2)) 1 (Some 2%Z)
         example_input = Ok (GPT.cat example_input [c], bool_decide (c = 2%Z)) ∧
    ∃ logits loss ev rows idx_next,
      GPT.forward tiny_model tiny_itos (draws_with (1 / 2) (1 / 2))
        (GPT.crop 4 example_input) None false = Ok (GPT.Logits logits loss, ev) ∧
      GPT.last_position logits = Ok rows ∧
      GPT.cat example_input [c] = GPT.cat example_input idx_next ∧
      Forall2 (λ row c,
        let scaled := (λ x, x / 1)%R <$> row in
        (∃ i x, c = Z.of_nat i ∧ scaled !! i = Some x ∧
                (Z.of_nat (count_greater x scaled) < 2)%Z) ∧
        (∃ filtered, GPT.top_k_filter (Some 2%Z) scaled = Ok filtered ∧
           ∀ j y, scaled !! j = Some y → (2 ≤ Z.of_nat (count_greater y scaled))%Z →
                  softmax filtered !! j = Some 0%R)) rows idx_next.
Proof.
  destruct (sample_step_ok tiny_model tiny_itos (step_draws (1 / 2) (1 / 2) (1 / 2)) 1 (Some 2%Z)
              example_input) as (c & Hc & _).
  - apply tiny_step_ready; [lra|]. intros k Hk. injection Hk as <-. lia.
  - apply example_input_ready.
  - exists c. split; [exact Hc|].
    refine (top_k_sampling tiny_model tiny_itos (step_draws (1 / 2) (1 / 2) (1 / 2)) 1 2
              example_input _ _ _ Hc).
    intros b. simpl. lra.
Defined.

(** ** Construction

    What [__init__] builds: every constructor allocates its parameters with
    the shapes [wf] lists, and the initialisation passes overwrite entries
    in place.  The reasoning is by triples over heaps: [builds P m Q] says
    that from a heap satisfying [P] the constructor [m] returns an object
    [a] and a heap that satisfies [Q a], in which every older object still
    has its shape. *)

Lemma same_shape_refl t : same_shape t t.
Proof. destruct t; reflexivity. Qed.

Lemma same_shape_trans t1 t2 t3 : same_shape t1 t2 → same_shape t2 t3 → same_shape t1 t3.
Proof. destruct t1, t2, t3; simpl; try contradiction; congruence. Qed.

Lemma heap_le_refl h : heap_le h h.
Proof. intros r t Hr. exists t. split; [exact Hr | apply same_shape_refl]. Qed.

Lemma heap_le_trans h1 h2 h3 : heap_le h1 h2 → heap_le h2 h3 → heap_le h1 h3.
Proof.
  intros H12 H23 r t Hr. destruct (H12 r t Hr) as (t2 & Hr2 & Hs2).
  destruct (H23 r t2 Hr2) as (t3 & Hr3 & Hs3).
  exists t3. split; [exact Hr3 | eapply same_shape_trans; eassumption].
Qed.

Lemma heap_le_alloc h t : heap_le h (h ++ [t]).
Proof.
  intros r t0 Hr. exists t0. split; [|apply same_shape_refl].
  apply lookup_app_l_Some, Hr.
Qed.

Lemma heap_le_update h r t t' :
  h !! r = Some t → same_shape t t' → heap_le h (<[r := t']> h).
Proof.
  intros Hr Hs r0 t0 Hr0. destruct (decide (r0 = r)) as [->|Hne].
  - rewrite Hr in Hr0. injection Hr0 as <-. exists t'. split; [|exact Hs].
    apply list_lookup_insert_eq. eapply lookup_lt_Some, Hr.
  - exists t0. split; [|apply same_shape_refl].
    rewrite list_lookup_insert_ne by congruence. exact Hr0.
Qed.

(** *** The rules *)

Lemma builds_ret {A} (P : list tensor → Prop) (a : A) (Q : A → list tensor → Prop) :
  (∀ h, P h → Q a h) → builds P (ret a) Q.
Proof.
  intros H s HP. exists a, s. split; [reflexivity|]. split; [apply heap_le_refl | apply H, HP].
Qed.

Lemma builds_bind {A B} (P : list tensor → Prop) (m : Init A) (f : A → Init B)
    (Q1 : A → list tensor → Prop) (Q2 : B → list tensor → Prop) :
  mono P → builds P m Q1 → (∀ a, builds (λ h, P h ∧ Q1 a h) (f a) Q2) →
  builds P (x <~ m;; f x) Q2.
Proof.
  intros HP Hm Hf s Hs. destruct (Hm s Hs) as (a & s1 & E1 & L1 & HQ1).
  destruct (Hf a s1 (conj (HP _ _ L1 Hs) HQ1)) as (b & s2 & E2 & L2 & HQ2).
  exists b, s2. unfold bindI. rewrite E1. split; [exact E2|].
  split; [eapply heap_le_trans; eassumption | exact HQ2].
Qed.

Lemma builds_weaken {A} (P P' : list tensor → Prop) (m : Init A)
    (Q Q' : A → list tensor → Prop) :
  (∀ h, P h → P' h) → (∀ a h, Q' a h → Q a h) → builds P' m Q' → builds P m Q.
Proof.
  intros HP HQ Hm s Hs. destruct (Hm s (HP _ Hs)) as (a & s' & E & L & H).
  exists a, s'. split; [exact E|]. split; [exact L | apply HQ, H].
Qed.

(** A fact that holds of every heap of the precondition may be used. *)
Lemma builds_pre {A} (P : list tensor → Prop) (φ : Prop) (m : Init A)
    (Q : A → list tensor → Prop) :
  (∀ h, P h → φ) → (φ → builds P m Q) → builds P m Q.
Proof. intros H1 H2 s Hs. exact (H2 (H1 _ Hs) s Hs). Qed.

(** A constructor that asks nothing of the heap can run in any heap. *)
Lemma builds_frame {A} (P : list tensor → Prop) (m : Init A) (Q : A → list tensor → Prop) :
  builds (λ _, True) m Q → builds P m Q.
Proof. apply builds_weaken; auto. Qed.

Lemma mono_True : mono (λ _, True).
Proof. intros h h' _ _. exact I. Qed.

Lemma mono_and (P Q : list tensor → Prop) : mono P → mono Q → mono (λ h, P h ∧ Q h).
Proof. intros HP HQ h h' Hle [H1 H2]. split; [eapply HP | eapply HQ]; eassumption. Qed.

(** *** The primitives *)

(** [nn.Dropout] with a probability in [0, 1] is a step that only yields
    the probability. *)
Lemma bind_Dropout {B} (p : R) (f : R → Init B) :
  (0 <= p <= 1)%R → (x <~ nn_Dropout p;; f x) = f p.
Proof.
  intros [H0 H1]. unfold nn_Dropout.
  destruct (Rlt_dec p 0) as [H|_]; [lra|]. destruct (Rlt_dec 1 p) as [H|_]; [lra|].
  reflexivity.
Qed.

Lemma bind_Dropout_raises {B} (p : R) (f : R → Init B) (s : state) :
  ¬ (0 <= p <= 1)%R → (x <~ nn_Dropout p;; f x) s = Raise ValueError.
Proof.
  intros Hp. unfold bindI, nn_Dropout.
  destruct (Rlt_dec p 0) as [H|H0]; [reflexivity|].
  destruct (Rlt_dec 1 p) as [H|H1]; [reflexivity|]. exfalso. apply Hp. lra.
Qed.

Lemma has_shape2_lengths {A} (m m' : list (list A)) rows cols :
  length <$> m' = length <$> m → has_shape2 m rows cols → has_shape2 m' rows cols.
Proof.
  intros Hl [Hlen Hrows]. split.
  - rewrite <- Hlen, <- (length_fmap length m'), Hl. apply length_fmap.
  - apply Forall_lookup. intros i r Hr.
    assert (Hi : (length <$> m) !! i = Some (length r)).
    { rewrite <- Hl, list_lookup_fmap, Hr. reflexivity. }
    rewrite list_lookup_fmap in Hi. destruct (m !! i) as [r0|] eqn:Hr0; [|discriminate].
    injection Hi as <-. exact (proj1 (Forall_lookup _ _) Hrows i r0 Hr0).
Qed.

Lemma mono_vec_at n r : mono (vec_at n r).
Proof.
  intros h h' Hle (v & Hv & Hn). unfold get_vec in Hv.
  destruct (h !! r) as [[v0|m0]|] eqn:Hr; try discriminate. injection Hv as ->.
  destruct (Hle r _ Hr) as ([v'|m'] & Hr' & Hs); simpl in Hs; [|contradiction].
  exists v'. unfold get_vec. rewrite Hr'. split; [reflexivity | congruence].
Qed.

Lemma mono_mat_at rows cols r : mono (mat_at rows cols r).
Proof.
  intros h h' Hle (m & Hm & Hshape). unfold get_mat in Hm.
  destruct (h !! r) as [[v0|m0]|] eqn:Hr; try discriminate. injection Hm as ->.
  destruct (Hle r _ Hr) as ([v'|m'] & Hr' & Hs); simpl in Hs; [contradiction|].
  exists m'. unfold get_mat. rewrite Hr'. split; [reflexivity|].
  eapply has_shape2_lengths; [symmetry; exact Hs | exact Hshape].
Qed.

Lemma builds_parameter_vec (v : Vec) n :
  length v = n →
  builds (λ _, True) (nn_Parameter (T1 v)) (vec_at n).
Proof.
  intros Hv s _. eexists _, _. split; [reflexivity|]. simpl.
  split; [apply heap_le_alloc|]. exists v. unfold get_vec.
  rewrite lookup_app_r, Nat.sub_diag by lia. split; [reflexivity | exact Hv].
Qed.

Lemma builds_parameter_mat (m : Mat) rows cols :
  has_shape2 m rows cols →
  builds (λ _, True) (nn_Parameter (T2 m)) (mat_at rows cols).
Proof.
  intros Hm s _. eexists _, _. split; [reflexivity|]. simpl.
  split; [apply heap_le_alloc|]. exists m. unfold get_mat.
  rewrite lookup_app_r, Nat.sub_diag by lia. split; [reflexivity | exact Hm].
Qed.

Lemma builds_sample_mat rows cols :
  builds (λ _, True) (sample_mat rows cols) (λ m _, has_shape2 m rows cols).
Proof.
  intros s _. eexists _, _. split; [reflexivity|]. simpl.
  split; [apply heap_le_refl|]. split.
  - rewrite length_fmap. apply length_seq.
  - apply Forall_fmap, Forall_forall. intros i _. simpl. rewrite length_fmap. apply length_seq.
Qed.

Lemma builds_sample_vec n :
  builds (λ _, True) (sample_vec n) (λ v _, length v = n).
Proof.
  intros s _. eexists _, _. split; [reflexivity|]. simpl.
  split; [apply heap_le_refl|]. rewrite length_fmap. apply length_seq.
Qed.

(** The passes that write in place build nothing and keep every shape. *)
Lemma builds_normal_ r mean std : builds (λ _, True) (normal_ r mean std) (λ _ _, True).
Proof.
  intros s _. unfold normal_. destruct (heap s !! r) as [t|] eqn:Hr.
  - eexists _, _. split; [reflexivity|]. simpl. split; [|exact I].
    apply (heap_le_update _ _ _ _ Hr). destruct t as [v|m]; simpl.
    + rewrite length_imap. reflexivity.
    + apply list_eq. intros i. rewrite !list_lookup_fmap, list_lookup_imap.
      destruct (m !! i); simpl; [rewrite length_imap|]; reflexivity.
  - eexists _, _. split; [reflexivity|]. split; [apply heap_le_refl | exact I].
Qed.

Lemma builds_zeros_ r : builds (λ _, True) (zeros_ r) (λ _ _, True).
Proof.
  intros s _. unfold zeros_. destruct (heap s !! r) as [t|] eqn:Hr.
  - eexists _, _. split; [reflexivity|]. simpl. split; [|exact I].
    apply (heap_le_update _ _ _ _ Hr). destruct t as [v|m]; simpl.
    + rewrite length_fmap. reflexivity.
    + apply list_eq. intros i. rewrite !list_lookup_fmap.
      destruct (m !! i); simpl; [rewrite length_fmap|]; reflexivity.
  - eexists _, _. split; [reflexivity|]. split; [apply heap_le_refl | exact I].
Qed.

(** *** Objects of the right shapes in a heap *)

Lemma mono_bias_at n b : mono (bias_at n b).
Proof. destruct b; [apply mono_vec_at | apply mono_True]. Qed.

Lemma mono_const (P : Prop) : mono (λ _, P).
Proof. intros h h' _ H. exact H. Qed.

Lemma mono_LayerNorm_ok n o : mono (LayerNorm_ok n o).
Proof. apply mono_and; [apply mono_vec_at | apply mono_bias_at]. Qed.

Lemma mono_Linear_ok n_in n_out o : mono (Linear_ok n_in n_out o).
Proof.
  repeat first [ apply mono_and | apply mono_mat_at | apply mono_bias_at
               | apply mono_const ].
Qed.

Lemma mono_Embedding_ok num dim o : mono (Embedding_ok num dim o).
Proof. apply mono_mat_at. Qed.

Lemma mono_Attention_ok C bs o : mono (Attention_ok C bs o).
Proof.
  repeat first [ apply mono_Linear_ok | apply mono_and | apply mono_const ].
Qed.

Lemma mono_MLP_ok C o : mono (MLP_ok C o).
Proof. apply mono_and; apply mono_Linear_ok. Qed.

Lemma mono_Block_ok C bs o : mono (Block_ok C bs o).
Proof.
  repeat first [ apply mono_LayerNorm_ok | apply mono_Attention_ok
               | apply mono_MLP_ok | apply mono_and ].
Qed.

Lemma mono_Stack_ok C bs os : mono (Stack_ok C bs os).
Proof.
  intros h h' Hle H. unfold Stack_ok in *. eapply Forall_impl; [exact H|].
  intros o Ho. exact (mono_Block_ok C bs o h h' Hle Ho).
Qed.

Ltac mono_tac :=
  repeat first
    [ apply mono_True | apply mono_vec_at | apply mono_mat_at
    | apply mono_bias_at | apply mono_LayerNorm_ok | apply mono_Linear_ok
    | apply mono_Embedding_ok | apply mono_Attention_ok | apply mono_MLP_ok
    | apply mono_Block_ok | apply mono_Stack_ok | apply mono_const
    | apply mono_and ].

(** *** What an object of the right shapes denotes *)

Lemma bias_at_resolve n b h :
  bias_at n b h → ∃ ob, get_bias h b = Some ob ∧ ∀ v, ob = Some v → length v = n.
Proof.
  destruct b as [r|]; simpl.
  - intros (v & Hv & Hn). rewrite Hv. exists (Some v). split; [reflexivity|].
    intros v' Hv'. injection Hv' as <-. exact Hn.
  - intros _. exists None. split; [reflexivity | discriminate].
Qed.

Lemma LayerNorm_ok_resolve n o h :
  LayerNorm_ok n o h → ∃ x, LayerNorm.resolve h o = Some x ∧ LayerNorm.wf n x.
Proof.
  intros [(v & Hv & Hn) Hb]. destruct (bias_at_resolve _ _ _ Hb) as (ob & Hob & Hlen).
  unfold LayerNorm.resolve. rewrite Hv, Hob. eexists. split; [reflexivity|].
  split; [exact Hn | exact Hlen].
Qed.

Lemma Linear_ok_resolve n_in n_out o h :
  Linear_ok n_in n_out o h →
  ∃ x, Linear.resolve h o = Some x ∧ Linear.wf n_in n_out x ∧
       get_mat h (Linear.weight o) = Some (Linear.weight x).
Proof.
  intros (Hin & Hout & (m & Hm & Hshape) & Hb).
  destruct (bias_at_resolve _ _ _ Hb) as (ob & Hob & Hlen).
  unfold Linear.resolve. rewrite Hm, Hob. eexists. split; [reflexivity|].
  split; [|reflexivity]. repeat split; simpl; try assumption; apply Hshape.
Qed.

Lemma Embedding_ok_resolve num dim o h :
  Embedding_ok num dim o h → ∃ x, Embedding.resolve h o = Some x ∧ Embedding.wf num dim x.
Proof.
  intros (m & Hm & Hshape). unfold Embedding.resolve. rewrite Hm.
  eexists. split; [reflexivity | exact Hshape].
Qed.

Lemma Attention_ok_resolve C bs o h :
  Attention_ok C bs o h →
  ∃ x, CausalSelfAttention.resolve h o = Some x ∧ CausalSelfAttention.wf C bs x.
Proof.
  intros (HC & Hnh & Hdiv & Hbs & Hattn & Hproj).
  destruct (Linear_ok_resolve _ _ _ _ Hattn) as (a & Ha & Hawf & _).
  destruct (Linear_ok_resolve _ _ _ _ Hproj) as (p & Hp & Hpwf & _).
  unfold CausalSelfAttention.resolve. rewrite Ha, Hp. eexists. split; [reflexivity|].
  unfold CausalSelfAttention.wf. simpl. split_and!; assumption.
Qed.

Lemma MLP_ok_resolve C o h :
  MLP_ok C o h → ∃ x, MLP.resolve h o = Some x ∧ MLP.wf C x.
Proof.
  intros [Hfc Hproj].
  destruct (Linear_ok_resolve _ _ _ _ Hfc) as (f & Hf & Hfwf & _).
  destruct (Linear_ok_resolve _ _ _ _ Hproj) as (p & Hp & Hpwf & _).
  unfold MLP.resolve. rewrite Hf, Hp. eexists. split; [reflexivity|]. split; assumption.
Qed.

Lemma Block_ok_resolve C bs o h :
  Block_ok C bs o h → ∃ x, Block.resolve h o = Some x ∧ Block.wf C bs x.
Proof.
  intros (H1 & Ha & H2 & Hm).
  destruct (LayerNorm_ok_resolve _ _ _ H1) as (l1 & E1 & W1).
  destruct (Attention_ok_resolve _ _ _ _ Ha) as (a & Ea & Wa).
  destruct (LayerNorm_ok_resolve _ _ _ H2) as (l2 & E2 & W2).
  destruct (MLP_ok_resolve _ _ _ Hm) as (m & Em & Wm).
  unfold Block.resolve. rewrite E1, Ea, E2, Em. eexists. split; [reflexivity|].
  split_and!; assumption.
Qed.

Lemma Stack_ok_resolve C bs os h :
  Stack_ok C bs os h → ∃ xs, Block.resolve_stack h os = Some xs ∧ Forall (Block.wf C bs) xs.
Proof.
  induction 1 as [|o os Ho _ (xs & Exs & Wxs)]; simpl.
  - exists []. split; [reflexivity | constructor].
  - destruct (Block_ok_resolve _ _ _ _ Ho) as (x & Ex & Wx). rewrite Ex, Exs.
    eexists. split; [reflexivity|]. constructor; assumption.
Qed.

(** *** The constructors *)

Lemma builds_LayerNorm n b :
  builds (λ _, True) (LayerNorm.__init__ n b) (LayerNorm_ok n).
Proof.
  unfold LayerNorm.__init__.
  eapply (builds_bind _ _ _ (vec_at n)); [mono_tac | | intros w].
  { apply builds_parameter_vec, length_replicate. }
  eapply (builds_bind _ _ _ (bias_at n)); [mono_tac | | intros ob].
  { destruct b.
    - eapply (builds_bind _ _ _ (vec_at n)); [mono_tac | | intros r].
      + apply builds_frame, builds_parameter_vec, length_replicate.
      + apply builds_ret. intros h [_ H]. exact H.
    - apply builds_ret. intros h _. exact I. }
  apply builds_ret. intros h [[_ Hw] Hb]. split; assumption.
Qed.

Lemma builds_Linear n_in n_out b :
  builds (λ _, True) (Linear.__init__ n_in n_out b) (Linear_ok n_in n_out).
Proof.
  unfold Linear.__init__. cbv zeta.
  eapply (builds_bind _ _ _ (λ m _, has_shape2 m n_out n_in)); [mono_tac | | intros w0].
  { apply builds_sample_mat. }
  eapply (builds_pre _ (has_shape2 w0 n_out n_in)); [intros h [_ H]; exact H | intros Hw0].
  eapply (builds_bind _ _ _ (mat_at n_out n_in)); [mono_tac | | intros w].
  { apply builds_frame, builds_parameter_mat.
    eapply has_shape2_lengths; [|exact Hw0].
    rewrite <- list_fmap_compose. apply list_fmap_ext. intros i row _. apply length_fmap. }
  eapply (builds_bind _ _ _ (bias_at n_out)); [mono_tac | | intros ob].
  { destruct b.
    - eapply (builds_bind _ _ _ (λ v _, length v = n_out)); [mono_tac | | intros v].
      { apply builds_frame, builds_sample_vec. }
      eapply (builds_pre _ (length v = n_out)); [intros h [_ H]; exact H | intros Hv].
      eapply (builds_bind _ _ _ (vec_at n_out)); [mono_tac | | intros r].
      + apply builds_frame, builds_parameter_vec. rewrite length_fmap. exact Hv.
      + apply builds_ret. intros h [_ H]. exact H.
    - apply builds_ret. intros h _. exact I. }
  apply builds_ret. intros h [[_ Hw] Hb]. repeat split; assumption.
Qed.

(** A table with a row at the padding index is built. *)
Lemma builds_Embedding num dim padding_idx :
  padding_idx < num →
  builds (λ _, True) (Embedding.__init__ num dim padding_idx) (Embedding_ok num dim).
Proof.
  intros Hpad. unfold Embedding.__init__.
  destruct (decide _) as [[_ Hge]|_]; [lia|].
  destruct (decide _) as [_|Hn]; [|contradiction].
  eapply (builds_bind _ _ _ (λ m _, has_shape2 m num dim)); [mono_tac | | intros w0].
  { apply builds_sample_mat. }
  eapply (builds_pre _ (has_shape2 w0 num dim)); [intros h [_ H]; exact H | intros [Hlen Hrows]].
  eapply (builds_bind _ _ _ (mat_at num dim)); [mono_tac | | intros w].
  { apply builds_frame, builds_parameter_mat. split.
    - rewrite length_insert. exact Hlen.
    - apply Forall_insert; [exact Hrows | apply length_replicate]. }
  apply builds_ret. intros h [_ H]. exact H.
Qed.

(** The initialisation passes keep every object. *)
Lemma builds_Linear_init_weights l :
  builds (λ _, True) (Linear._init_weights l) (λ _ _, True).
Proof.
  unfold Linear._init_weights.
  eapply (builds_bind _ _ _ (λ _ _, True)); [mono_tac | apply builds_normal_ | intros _].
  apply builds_frame. destruct (Linear.bias l).
  - apply builds_zeros_.
  - apply builds_ret. auto.
Qed.

Lemma builds_Embedding_init_weights e :
  builds (λ _, True) (Embedding._init_weights e) (λ _ _, True).
Proof. apply builds_normal_. Qed.

Lemma builds_assert_heads config :
  0 < GPTConfig.n_head config →
  GPTConfig.n_embd config `mod` GPTConfig.n_head config = 0 →
  builds (λ _, True) (CausalSelfAttention.assert_heads config) (λ _ _, True).
Proof.
  intros Hpos Hmod. unfold CausalSelfAttention.assert_heads.
  destruct (decide _) as [Hz|_]; [lia|].
  destruct (decide _) as [_|Hne]; [|contradiction].
  apply builds_ret. auto.
Qed.

Lemma builds_Attention config has_flash :
  0 < GPTConfig.n_head config →
  GPTConfig.n_embd config `mod` GPTConfig.n_head config = 0 →
  (0 <= GPTConfig.dropout config <= 1)%R →
  builds (λ _, True) (CausalSelfAttention.__init__ config has_flash)
    (Attention_ok (GPTConfig.n_embd config) (GPTConfig.block_size config)).
Proof.
  intros Hpos Hmod Hdrop. unfold CausalSelfAttention.__init__. cbv zeta.
  eapply (builds_bind _ _ _ (λ _ _, True));
    [mono_tac | apply builds_assert_heads; assumption | intros _].
  eapply (builds_bind _ _ _ (Linear_ok _ _)); [mono_tac | apply builds_frame, builds_Linear | intros a].
  eapply (builds_bind _ _ _ (Linear_ok _ _)); [mono_tac | apply builds_frame, builds_Linear | intros p].
  rewrite !bind_Dropout by exact Hdrop.
  apply builds_ret. intros h [[_ Ha] Hp]. unfold Attention_ok. simpl.
  split_and!; try assumption; try reflexivity.
  pose proof (Nat.div_mod (GPTConfig.n_embd config) (GPTConfig.n_head config)). lia.
Qed.

Lemma builds_MLP config :
  (0 <= GPTConfig.dropout config <= 1)%R →
  builds (λ _, True) (MLP.__init__ config) (MLP_ok (GPTConfig.n_embd config)).
Proof.
  intros Hdrop. unfold MLP.__init__. cbv zeta.
  eapply (builds_bind _ _ _ (Linear_ok _ _)); [mono_tac | apply builds_Linear | intros f].
  eapply (builds_bind _ _ _ (Linear_ok _ _)); [mono_tac | apply builds_frame, builds_Linear | intros p].
  rewrite bind_Dropout by exact Hdrop.
  apply builds_ret. intros h [[_ Hf] Hp]. split; assumption.
Qed.

Section blocks.
Variables (config : GPTConfig.t) (has_flash : bool).
Hypothesis heads_pos : 0 < GPTConfig.n_head config.
Hypothesis heads_divide : GPTConfig.n_embd config `mod` GPTConfig.n_head config = 0.
Hypothesis dropout_ok : (0 <= GPTConfig.dropout config <= 1)%R.

Lemma builds_Block :
  builds (λ _, True) (Block.__init__ config has_flash)
    (Block_ok (GPTConfig.n_embd config) (GPTConfig.block_size config)).
Proof using heads_pos heads_divide dropout_ok.
  unfold Block.__init__. cbv zeta.
  eapply (builds_bind _ _ _ (LayerNorm_ok _)); [mono_tac | apply builds_LayerNorm | intros l1].
  eapply (builds_bind _ _ _ (Attention_ok _ _));
    [mono_tac | apply builds_frame, builds_Attention; assumption | intros a].
  eapply (builds_bind _ _ _ (LayerNorm_ok _));
    [mono_tac | apply builds_frame, builds_LayerNorm | intros l2].
  eapply (builds_bind _ _ _ (MLP_ok _));
    [mono_tac | apply builds_frame, builds_MLP; assumption | intros m].
  apply builds_ret. intros h [[[[_ H1] Ha] H2] Hm]. split_and!; assumption.
Qed.

Lemma builds_init_stack n :
  builds (λ _, True) (Block.init_stack config has_flash n)
    (Stack_ok (GPTConfig.n_embd config) (GPTConfig.block_size config)).
Proof using heads_pos heads_divide dropout_ok.
  induction n as [|n IH]; simpl.
  - apply builds_ret. intros h _. constructor.
  - eapply (builds_bind _ _ _ (Block_ok _ _)); [mono_tac | apply builds_Block | intros blk].
    eapply (builds_bind _ _ _ (Stack_ok _ _)); [mono_tac | apply builds_frame, IH | intros rest].
    apply builds_ret. intros h [[_ Hb] Hr]. constructor; assumption.
Qed.

End blocks.

(** *** The initialisation passes *)

Lemma keeps_bind (m : Init unit) (f : unit → Init unit) :
  keeps m → (∀ a, keeps (f a)) → keeps (x <~ m;; f x).
Proof.
  intros Hm Hf. eapply (builds_bind _ _ _ (λ _ _, True)); [mono_tac | exact Hm |].
  intros a. apply builds_frame, Hf.
Qed.

Lemma keeps_for_each {A} (f : A → Init unit) (l : list A) :
  (∀ x, keeps (f x)) → keeps (Block.for_each f l).
Proof.
  intros Hf. induction l as [|x l IH]; simpl.
  - apply builds_ret. auto.
  - apply keeps_bind; [apply Hf | intros _; exact IH].
Qed.

Lemma keeps_Block_apply_init_weights blk : keeps (Block.apply_init_weights blk).
Proof.
  unfold Block.apply_init_weights.
  repeat (apply keeps_bind; [apply builds_Linear_init_weights | intros _]).
  apply builds_Linear_init_weights.
Qed.

Lemma keeps_scaled_init std blk : keeps (Block.scaled_init std blk).
Proof.
  unfold Block.scaled_init. apply keeps_bind; [apply builds_normal_ | intros _].
  apply builds_normal_.
Qed.

Lemma keeps_apply_init_weights self : keeps (GPT.apply_init_weights self).
Proof.
  unfold GPT.apply_init_weights.
  repeat (apply keeps_bind;
          [ first [ apply builds_Embedding_init_weights | apply builds_Linear_init_weights
                  | apply keeps_for_each, keeps_Block_apply_init_weights ]
          | intros _ ]).
  apply builds_Linear_init_weights.
Qed.

(** What holds of every heap with the same shapes holds after a pass. *)
Lemma builds_keeps (P : list tensor → Prop) (m : Init unit) :
  mono P → keeps m → builds P m (λ _, P).
Proof.
  intros HP Hm s Hs. destruct (Hm s I) as (a & s' & E & L & _).
  exists a, s'. split; [exact E|]. split; [exact L | exact (HP _ _ L Hs)].
Qed.

(** A pass, then the rest. *)
Lemma builds_then {A} (P : list tensor → Prop) (m : Init unit) (k : Init A)
    (Q : A → list tensor → Prop) :
  mono P → keeps m → builds P k Q → builds P (_ <~ m;; k) Q.
Proof.
  intros HP Hm Hk. eapply (builds_bind P m (λ _, k) (λ _, P) Q); [exact HP | |].
  - apply builds_keeps; assumption.
  - intros _. eapply builds_weaken; [intros h [_ H]; exact H | intros a h H; exact H | exact Hk].
Qed.

(** *** The model *)

Lemma mono_GPT_ok c self : mono (GPT_ok c self).
Proof. unfold GPT_ok. cbv zeta. mono_tac. Qed.

Lemma GPT_ok_resolve c self h :
  GPT_ok c self h →
  ∃ m, GPT.resolve h self = Some m ∧ GPT.wf m ∧
       GPT.config m = c ∧ GPT.training m = true.
Proof.
  intros ((Hc & Htr & Hni) & Htw & Htp & Hth & Htl & Hew & Hep & Hei & Heh & Hel
          & Heb & Hdu & Hdh & Hdl & Hhd).
  destruct (Embedding_ok_resolve _ _ _ _ Htw) as (tw & Etw & Wtw).
  destruct (Embedding_ok_resolve _ _ _ _ Htp) as (tp & Etp & Wtp).
  destruct (Stack_ok_resolve _ _ _ _ Hth) as (th & Eth & Wth).
  destruct (LayerNorm_ok_resolve _ _ _ Htl) as (tl & Etl & Wtl).
  destruct (Embedding_ok_resolve _ _ _ _ Hew) as (ew & Eew & Wew).
  destruct (Embedding_ok_resolve _ _ _ _ Hep) as (ep & Eep & Wep).
  destruct (Embedding_ok_resolve _ _ _ _ Hei) as (ei & Eei & Wei).
  destruct (Stack_ok_resolve _ _ _ _ Heh) as (eh & Eeh & Weh).
  destruct (LayerNorm_ok_resolve _ _ _ Hel) as (el & Eel & Wel).
  destruct (Linear_ok_resolve _ _ _ _ Heb) as (eb & Eeb & Web & _).
  destruct (Linear_ok_resolve _ _ _ _ Hdu) as (du & Edu & Wdu & _).
  destruct (Stack_ok_resolve _ _ _ _ Hdh) as (dh & Edh & Wdh).
  destruct (LayerNorm_ok_resolve _ _ _ Hdl) as (dl & Edl & Wdl).
  destruct (Linear_ok_resolve _ _ _ _ Hhd) as (hd & Ehd & Whd & _).
  unfold GPT.resolve.
  rewrite Etw, Etp, Eth, Etl, Eew, Eep, Eei, Eeh, Eel, Eeb, Edu, Edh, Edl, Ehd.
  eexists. split; [reflexivity|]. split; [|split; simpl; assumption].
  unfold GPT.wf. simpl. rewrite Hc, Hni. split_and!; try assumption; reflexivity.
Qed.

Lemma builds_GPT_of_stack config has_flash :
  constructible config →
  builds (λ _, True) (Block.init_stack config has_flash (GPTConfig.n_layer config))
    (Stack_ok (GPTConfig.n_embd config) (GPTConfig.block_size config)) →
  builds (λ _, True) (GPT.__init__ config has_flash)
    (λ self h, GPT_ok config self h ∧ GPT.tied self).
Proof.
  intros (Hv & Hb & Hd) Hstack. unfold GPT.__init__. cbv zeta.
  eapply (builds_bind _ _ _ (Embedding_ok _ _));
    [mono_tac | apply builds_Embedding, Hv | intros tw].
  eapply (builds_bind _ _ _ (Embedding_ok _ _));
    [mono_tac | apply builds_frame, builds_Embedding, Hb | intros tp].
  rewrite bind_Dropout by exact Hd.
  eapply (builds_bind _ _ _ (Stack_ok _ _)); [mono_tac | apply builds_frame, Hstack | intros th].
  eapply (builds_bind _ _ _ (LayerNorm_ok _));
    [mono_tac | apply builds_frame, builds_LayerNorm | intros tl].
  eapply (builds_bind _ _ _ (Embedding_ok _ _));
    [mono_tac | apply builds_frame, builds_Embedding, Hv | intros ew].
  eapply (builds_bind _ _ _ (Embedding_ok _ _));
    [mono_tac | apply builds_frame, builds_Embedding, Hb | intros ep].
  eapply (builds_bind _ _ _ (Embedding_ok _ _));
    [mono_tac | apply builds_frame, builds_Embedding; lia | intros ei].
  rewrite bind_Dropout by exact Hd.
  eapply (builds_bind _ _ _ (Stack_ok _ _)); [mono_tac | apply builds_frame, Hstack | intros eh].
  eapply (builds_bind _ _ _ (LayerNorm_ok _));
    [mono_tac | apply builds_frame, builds_LayerNorm | intros el].
  eapply (builds_bind _ _ _ (Linear_ok _ _));
    [mono_tac | apply builds_frame, builds_Linear | intros eb].
  eapply (builds_bind _ _ _ (Linear_ok _ _));
    [mono_tac | apply builds_frame, builds_Linear | intros du].
  eapply (builds_bind _ _ _ (Stack_ok _ _)); [mono_tac | apply builds_frame, Hstack | intros dh].
  rewrite bind_Dropout by exact Hd.
  eapply (builds_bind _ _ _ (LayerNorm_ok _));
    [mono_tac | apply builds_frame, builds_LayerNorm | intros dl].
  eapply (builds_bind _ _ _ (Linear_ok _ _));
    [mono_tac | apply builds_frame, builds_Linear | intros hd].
  match goal with
  | |- builds _ (_ <~ GPT.apply_init_weights ?o;; _) _ =>
      apply (builds_weaken _ (GPT_ok config o) _ _
               (λ self h, GPT_ok config self h ∧ GPT.tied self));
        [ | intros a h H; exact H | ]
  end.
  2: { apply builds_then; [apply mono_GPT_ok | apply keeps_apply_init_weights |].
       repeat (apply builds_then;
               [apply mono_GPT_ok | apply keeps_for_each, keeps_scaled_init |]).
       apply builds_ret. intros h H. split; [exact H | split; reflexivity]. }
  intros h ((((((((((((((_ & Htw) & Htp) & Hth) & Htl) & Hew) & Hep) & Hei) & Heh) & Hel)
              & Heb) & Hdu) & Hdh) & Hdl) & Hhd).
  unfold GPT_ok. simpl. split_and!; try assumption; try reflexivity;
    unfold Embedding_ok; simpl; apply Hhd.
Qed.

Lemma builds_GPT config has_flash :
  constructible config →
  0 < GPTConfig.n_head config →
  GPTConfig.n_embd config `mod` GPTConfig.n_head config = 0 →
  builds (λ _, True) (GPT.__init__ config has_flash)
    (λ self h, GPT_ok config self h ∧ GPT.tied self).
Proof.
  intros Hc Hpos Hmod.
  apply builds_GPT_of_stack; [exact Hc | apply builds_init_stack; try assumption; apply Hc].
Qed.

(** A configuration whose heads divide the embedding builds a model: the
    constructor returns, every parameter has the shape [forward] expects,
    and the tied weight is one object. *)
Lemma init_ok config has_flash s :
  constructible config →
  0 < GPTConfig.n_head config →
  GPTConfig.n_embd config `mod` GPTConfig.n_head config = 0 →
  ∃ self s' m,
    GPT.__init__ config has_flash s = Ok (self, s') ∧
    GPT.resolve (heap s') self = Some m ∧ GPT.wf m ∧
    GPT.config m = config ∧ GPT.training m = true ∧ GPT.tied self.
Proof.
  intros Hcons Hpos Hmod.
  destruct (builds_GPT config has_flash Hcons Hpos Hmod s I) as (self & s' & E & _ & Hok & Ht).
  destruct (GPT_ok_resolve _ _ _ Hok) as (m & Em & Wm & Hc & Htr).
  exists self, s', m. split_and!; assumption.
Qed.

Lemma tiny_constructible : constructible tiny_config.
Proof. unfold constructible. simpl. split_and!; [lia | lia | lra | lra]. Qed.

(** A constructor that returned was given a configuration the library
    constructors accept. *)
Lemma bindI_Ok {A B} (m : Init A) (f : A → Init B) (s : state) (r : B * state) :
  (x <~ m;; f x) s = Ok r → ∃ a s1, m s = Ok (a, s1) ∧ f a s1 = Ok r.
Proof.
  unfold bindI. destruct (m s) as [[a s1]|e]; [|discriminate].
  intros H. exists a, s1. split; [reflexivity | exact H].
Qed.

Lemma Embedding_init_Ok num dim padding_idx s r :
  Embedding.__init__ num dim padding_idx s = Ok r → padding_idx < num.
Proof.
  unfold Embedding.__init__. destruct (decide _) as [|_]; [discriminate|].
  intros H. apply bindI_Ok in H as (w & s1 & _ & H).
  destruct (decide _) as [Hlt|_]; [exact Hlt | discriminate].
Qed.

Lemma init_Ok_constructible config has_flash s self s' :
  GPT.__init__ config has_flash s = Ok (self, s') → constructible config.
Proof.
  unfold GPT.__init__. cbv zeta. intros H.
  apply bindI_Ok in H as (tw & s1 & Hv & H). apply Embedding_init_Ok in Hv.
  apply bindI_Ok in H as (tp & s2 & Hb & H). apply Embedding_init_Ok in Hb.
  split; [exact Hv|]. split; [exact Hb|].
  destruct (Rlt_dec (GPTConfig.dropout config) 0) as [H0|H0];
    [rewrite bind_Dropout_raises in H by lra; discriminate|].
  destruct (Rlt_dec 1 (GPTConfig.dropout config)) as [H1|H1];
    [rewrite bind_Dropout_raises in H by lra; discriminate|].
  lra.
Qed.

(** *** Weight tying *)

Lemma init_tied config has_flash s self s' :
  GPT.__init__ config has_flash s = Ok (self, s') → GPT.tied self.
Proof.
  unfold GPT.__init__. cbv zeta. unfold bindI, ret. intros H.
  repeat match type of H with
         | match ?m with Ok _ => _ | Raise _ => _ end = _ =>
             destruct m as [[? ?]|]; [|discriminate H]
         end.
  injection H as <- _. split; reflexivity.
Qed.

Lemma resolve_tied h self m :
  GPT.tied self → GPT.resolve h self = Some m →
  Embedding.weight (GPT.transformer_wte m) = Linear.weight (GPT.lm_head m) ∧
  Embedding.weight (GPT.encoder_wte m) = Linear.weight (GPT.lm_head m).
Proof.
  intros [Ht He] H. unfold GPT.resolve in H.
  repeat (apply bind_Some in H; destruct H as (? & ? & H)).
  injection H as <-. simpl.
  repeat match goal with
         | E : Embedding.resolve _ _ = Some _ |- _ =>
             unfold Embedding.resolve in E
         | E : Linear.resolve h (GPT.lm_head self) = Some _ |- _ =>
             unfold Linear.resolve in E
         end.
  rewrite Ht in *. rewrite He in *.
  destruct (get_mat h (Linear.weight (GPT.lm_head self))) as [w|]; [|discriminate].
  destruct (get_bias h (Linear.bias (GPT.lm_head self))); [|discriminate].
  simplify_eq. split; reflexivity.
Qed.

(** C9. After [GPT.__init__] the modules [transformer.wte], [encoder.wte]
    and [lm_head] hold one and the same parameter object, so in every
    heap the three read the same tensor; a forward call hands back the
    heap and the module graph it was given, so the three are still that
    one object after it.  Moreover, when the heads divide the embedding,
    the object exists in the heap the constructor leaves and the model the
    graph denotes there has the shapes [forward] expects. *)
Theorem weight_tying config has_flash s self s' :
  GPT.__init__ config has_flash s = Ok (self, s') →
  GPT.tied self ∧
  (∀ h m, GPT.resolve h self = Some m →
     Embedding.weight (GPT.transformer_wte m) = Linear.weight (GPT.lm_head m) ∧
     Embedding.weight (GPT.encoder_wte m) = Linear.weight (GPT.lm_head m)) ∧
  (∀ h itos d idx targets embedding,
     (GPT.call h self itos d idx targets embedding).1.2 = h ∧
     (GPT.call h self itos d idx targets embedding).2 = self ∧
     GPT.tied (GPT.call h self itos d idx targets embedding).2) ∧
  (0 < GPTConfig.n_head config →
   GPTConfig.n_embd config `mod` GPTConfig.n_head config = 0 →
   ∃ m, GPT.resolve (heap s') self = Some m ∧ GPT.wf m).
Proof.
  intros E. pose proof (init_tied _ _ _ _ _ E) as Ht. split_and!.
  - exact Ht.
  - intros h m. apply resolve_tied, Ht.
  - intros h itos d idx targets embedding. simpl. split_and!; [reflexivity | reflexivity | exact Ht].
  - intros Hpos Hmod.
    destruct (init_ok config has_flash s (init_Ok_constructible _ _ _ _ _ E) Hpos Hmod)
      as (self0 & s0 & m & E0 & Em & Wm & _).
    rewrite E in E0. injection E0 as <- <-. exists m. split; assumption.
Qed.

Lemma weight_tying_witness :
  ∃ self s',
    GPT.__init__ tiny_config true (fresh_state (λ _, (1 / 2)%R)) = Ok (self, s') ∧
    GPT.tied self ∧
    ∀ h m, GPT.resolve h self = Some m →
      Embedding.weight (GPT.transformer_wte m) = Linear.weight (GPT.lm_head m) ∧
      Embedding.weight (GPT.encoder_wte m) = Linear.weight (GPT.lm_head m).
Proof.
  destruct (GPT.__init__ tiny_config true (fresh_state (λ _, (1 / 2)%R)))
    as [[self s']|e] eqn:E.
  - exists self, s'. split; [reflexivity|].
    destruct (weight_tying _ _ _ _ _ E) as (Ht & Hm & _). split; assumption.
  - exfalso.
    destruct (init_ok tiny_config true (fresh_state (λ _, (1 / 2)%R)) tiny_constructible)
      as (self & s' & m & E' & _); [simpl; lia | reflexivity |].
    congruence.
Defined.

(** ** The start-token scenario *)

(** C4 (defect of the code). On a freshly initialised model of block size
    4, whatever the random stream that filled its parameters, the call
    [generate([[1]], max_new_tokens=3, temperature=1.0)] returns no
    sequence: whatever the draws, the first forward call raises a
    RuntimeError, because the flattened one-token activations do not fit
    the bottleneck layer. *)
Theorem generate_from_start_token_raises (generator : nat → R) (u1 u2 u : R) :
  ∃ self s' m,
    GPT.__init__ tiny_config true (fresh_state generator) = Ok (self, s') ∧
    GPT.resolve (heap s') self = Some m ∧
    GPT.generate m tiny_itos (λ _, start_draws u1 u2 u) start_prefix 3 1 None
    = Raise RuntimeError.
Proof.
  destruct (init_ok tiny_config true (fresh_state generator) tiny_constructible)
    as (self & s' & m & E & Em & Wm & Hc & _); [simpl; lia | reflexivity |].
  exists self, s', m. split; [exact E|]. split; [exact Em|].
  apply generate_short_prefix_raises; rewrite ?Hc.
  - exact Wm.
  - split; [reflexivity | repeat constructor].
  - repeat constructor; lia.
  - destruct Wm as [Hni _]. unfold valid_ins. rewrite Hni. simpl. repeat constructor; lia.
  - simpl. lia.
  - simpl. lia.
  - simpl. lia.
  - lia.
Qed.

(** ** The intensity penalty *)

Lemma sigmoid_range (a : R) : (0 <= 1 / (1 + exp (- a)) <= 1)%R.
Proof.
  pose proof (exp_pos (- a)) as He.
  split.
  - apply Rlt_le, Rdiv_lt_0_compat; lra.
  - apply Rlt_le, (Rmult_lt_reg_r (1 + exp (- a))); [lra|]. field_simplify; lra.
Qed.

(** X1. [_intensity_penalty] returns one penalty per intensity, each in
    the closed interval from 0 to 1 (in float32 the ends are reached: far
    from the inflection point the sigmoid is rounded to exactly 0.0 or
    1.0), and an intensity at the inflection point gets exactly 1/2. *)
Theorem intensity_penalty_sigmoid (intensity : Vec) (inflection_point steepness : R) :
  length (_intensity_penalty intensity inflection_point steepness) = length intensity ∧
  Forall (λ p, 0 <= p <= 1)%R (_intensity_penalty intensity inflection_point steepness) ∧
  _intensity_penalty [inflection_point] inflection_point steepness = [(1 / 2)%R].
Proof.
  unfold _intensity_penalty. split_and!.
  - rewrite !length_fmap. reflexivity.
  - rewrite <- list_fmap_compose. apply Forall_fmap, Forall_forall.
    intros x _. apply sigmoid_range.
  - simpl. f_equal. replace ((inflection_point - inflection_point) * steepness)%R with 0%R by ring.
    rewrite Ropp_0, exp_0. lra.
Qed.

(** ** Causality of a block and of a stack of blocks *)













(** ** [forward] with targets *)









(** ** The batch dimension through [forward] and [generate] *)

Lemma dropout3_length p tr keep (x : Tensor3) : length (dropout3 p tr keep x) = length x.
Proof. unfold dropout3. apply length_imap. Qed.

Lemma tadd_length (x a : Tensor3) : length a = length x → length (tadd x a) = length x.
Proof. intros H. unfold tadd. rewrite length_zip_with. lia. Qed.

Lemma attention_forward_length (a : CausalSelfAttention.t) tr ak rk (x y : Tensor3) :
  CausalSelfAttention.forward a tr ak rk x = Ok y → length y = length x.
Proof.
  unfold CausalSelfAttention.forward. intros H.
  apply bind_Ok in H as (qkv & Hqkv & H).
  destruct (decide (_ = _)) as [_|]; [|discriminate].
  destruct (decide (_ ∨ _)) as [_|_]; [|destruct (decide _) as [_|]; [|discriminate]];
    (apply bind_Ok in H as (o & Ho & H); injection H as <-;
     rewrite dropout3_length, (mapR_length _ _ _ Ho), length_imap;
     exact (mapR_length _ _ _ Hqkv)).
Qed.

Lemma MLP_forward_length (m : MLP.t) tr keep (x y : Tensor3) :
  MLP.forward m tr keep x = Ok y → length y = length x.
Proof.
  unfold MLP.forward. intros H.
  apply bind_Ok in H as (h & Hh & H). apply bind_Ok in H as (o & Ho & H). injection H as <-.
  rewrite dropout3_length, (mapR_length _ _ _ Ho). unfold MLP.gelu3.
  rewrite length_fmap. exact (mapR_length _ _ _ Hh).
Qed.

Lemma Block_forward_length (blk : Block.t) tr mk (x y : Tensor3) :
  Block.forward blk tr mk x = Ok y → length y = length x.
Proof.
  unfold Block.forward. intros H.
  apply bind_Ok in H as (n1 & Hn1 & H). apply bind_Ok in H as (a & Ha & H).
  apply bind_Ok in H as (n2 & Hn2 & H). apply bind_Ok in H as (f & Hf & H). injection H as <-.
  assert (Hxa : length (tadd x a) = length x).
  { apply tadd_length. rewrite (attention_forward_length _ _ _ _ _ _ Ha).
    exact (mapR_length _ _ _ Hn1). }
  rewrite tadd_length; [exact Hxa|].
  rewrite (MLP_forward_length _ _ _ _ _ Hf). exact (mapR_length _ _ _ Hn2).
Qed.

Lemma forward_stack_length (stack : list Block.t) tr mk l (x y : Tensor3) :
  Block.forward_stack stack tr mk l x = Ok y → length y = length x.
Proof.
  revert l x. induction stack as [|blk stack IH]; intros l x H; simpl in H.
  - injection H as <-. reflexivity.
  - apply bind_Ok in H as (z & Hz & H). rewrite (IH _ _ H).
    exact (Block_forward_length _ _ _ _ _ Hz).
Qed.

Lemma encode_length (m : GPT.t) d (idx : LongTensor) (zb : Mat) :
  GPT.encode m d idx = Ok zb → length zb = length (data idx).
Proof.
  unfold GPT.encode, GPT.encoder_states, GPT.view_flat. intros H.
  apply bind_Ok in H as (z & Hz & H).
  apply bind_Ok in Hz as (tok & Htok & Hz). apply bind_Ok in Hz as (pe & _ & Hz).
  apply bind_Ok in Hz as (ie & _ & Hz). apply bind_Ok in Hz as (z1 & Hz1 & Hz).
  apply bind_Ok in H as (zf & Hzf & H).
  destruct (decide _) as [|_]; [discriminate|]. injection Hzf as <-.
  rewrite (mapR_length _ _ _ H), length_fmap, (mapR_length _ _ _ Hz).
  rewrite (forward_stack_length _ _ _ _ _ _ Hz1), dropout3_length, length_fmap.
  exact (mapR_length _ _ _ Htok).
Qed.

Lemma decode_length (m : GPT.t) d (zb : Mat) (logits : Tensor3) :
  GPT.decode m d zb = Ok logits → length logits = length zb.
Proof.
  unfold GPT.decode, GPT.view_blocks. intros H.
  apply bind_Ok in H as (zf & Hzf & H). apply bind_Ok in H as (z & Hz & H).
  apply bind_Ok in H as (z1 & Hz1 & H). apply bind_Ok in H as (z2 & Hz2 & H).
  destruct (decide _) as [_|]; [|discriminate]. injection Hz as <-.
  rewrite (mapR_length _ _ _ H), (mapR_length _ _ _ Hz2), dropout3_length.
  rewrite (forward_stack_length _ _ _ _ _ _ Hz1), length_fmap.
  exact (mapR_length _ _ _ Hzf).
Qed.

Lemma forward_logits_length (m : GPT.t) itos d (idx : LongTensor) targets o ev :
  GPT.forward m itos d idx targets false = Ok (o, ev) →
  ∃ logits loss, o = GPT.Logits logits loss ∧ length logits = length (data idx).
Proof.
  unfold GPT.forward. destruct (decide _) as [_|]; [|discriminate]. intros H.
  apply bind_Ok in H as (zb & Hzb & H). apply bind_Ok in H as (logits & Hl & H).
  apply bind_Ok in H as (ls & _ & H). apply bind_Ok in H as (ev' & _ & H).
  injection H as <- <-. exists logits, ls.1. split; [reflexivity|].
  rewrite (decode_length _ _ _ _ Hl). exact (encode_length _ _ _ _ Hzb).
Qed.

Lemma crop_data_length bs (idx : LongTensor) :
  length (data (GPT.crop bs idx)) = length (data idx).
Proof.
  unfold GPT.crop. destruct (decide _); [reflexivity|]. destruct (decide _); [reflexivity|].
  simpl. apply length_fmap.
Qed.

Lemma sample_step_batch (m : GPT.t) itos d temperature top_k (idx idx' : LongTensor) stop :
  GPT.sample_step m itos d temperature top_k idx = Ok (idx', stop) →
  length (data idx) = 1.
Proof.
  unfold GPT.sample_step. intros H. apply bind_Ok in H as ([o ev] & Hf & H).
  destruct (forward_logits_length _ _ _ _ _ _ _ Hf) as (logits & loss & -> & Hlen).
  simpl in H. apply bind_Ok in H as (rows & Hrows & H).
  apply bind_Ok in H as (idx_next & Hnext & H). apply bind_Ok in H as (st & Hend & H).
  rewrite crop_data_length in Hlen. rewrite <- Hlen, <- (mapR_length _ _ _ Hrows).
  apply mapR_length in Hnext. rewrite length_imap in Hnext. rewrite <- Hnext.
  unfold GPT.is_end in Hend. destruct idx_next as [|x [|x' rest]]; try discriminate. reflexivity.
Qed.

(** X7. [generate] serves one sequence at a time: on a batch of no
    sequence or of more than one, a call that asks for at least one new
    token raises, whatever the model and the draws are (the comparison
    [idx_next == END_OF_SENTENCE_IDX] has a truth value only for a single
    element). *)
Theorem generate_batch_of_one_only (m : GPT.t) itos draws (idx : LongTensor)
    (max_new_tokens : Z) (temperature : R) (top_k : option Z) :
  wf_long idx → size0 idx ≠ 1 → (0 < max_new_tokens)%Z →
  ∃ e, GPT.generate m itos draws idx max_new_tokens temperature top_k = Raise e.
Proof.
  intros [Hlen _] Hb Hmax. unfold GPT.generate.
  destruct (Z.to_nat max_new_tokens) as [|n] eqn:Hn; [lia|]. simpl.
  destruct (GPT.sample_step m itos (draws 0) temperature top_k idx) as [[idx' stop]|e] eqn:Hs.
  - apply sample_step_batch in Hs. congruence.
  - exists e. reflexivity.
Qed.

Lemma generate_batch_of_one_only_witness :
  ∃ e, GPT.generate tiny_model tiny_itos (λ _, step_draws (1 / 2) (1 / 2) (1 / 2))
         (long_tensor [[1; 3; 4; 0]; [1; 4; 3; 0]]%Z 4) 3 1 None = Raise e.
Proof.
  apply generate_batch_of_one_only.
  - split; [reflexivity|]. repeat constructor.
  - simpl. lia.
  - lia.
Defined.



(** ** A top-k of at least the vocabulary *)

Lemma count_greater_elem (y : R) (l : Vec) : y ∈ l → count_greater y l < length l.
Proof.
  induction l as [|x l IH]; intros Hy; [inversion Hy|]. simpl.
  pose proof (count_greater_bound y l) as Hb.
  apply elem_of_cons in Hy as [<-|Hy].
  - destruct (Rlt_dec y y); [lra | lia].
  - specialize (IH Hy). destruct (Rlt_dec y x); lia.
Qed.

Lemma top_k_filter_all (k : Z) (row : Vec) :
  row ≠ [] → (Z.of_nat (length row) ≤ k)%Z →
  GPT.top_k_filter (Some k) row = GPT.top_k_filter None row.
Proof.
  intros Hrow Hk. unfold GPT.top_k_filter.
  assert (Hlen : 0 < length row) by (destruct row; [contradiction | simpl; lia]).
  destruct (decide _) as [|_]; [lia|]. destruct (decide _) as [|_]; [lia|].
  f_equal. apply list_fmap_ext. intros i x Hx.
  destruct (Rlt_dec x _) as [Hlt|]; [|reflexivity]. exfalso.
  assert (Hn : Z.to_nat (Z.min k (Z.of_nat (length row))) - 1 < length (sort_desc row)).
  { rewrite (Permutation_length (sort_desc_perm row)). lia. }
  destruct (lookup_lt_is_Some_2 _ _ Hn) as [kth Hkth]. rewrite Hkth in Hlt. simpl in Hlt.
  pose proof (count_greater_below _ _ _ _ (sort_desc_sorted row) Hkth Hlt) as H1.
  rewrite (count_greater_perm x _ _ (sort_desc_perm row)) in H1.
  pose proof (count_greater_elem x row (list_elem_of_lookup_2 _ _ _ Hx)) as H2. lia.
Qed.

Lemma sample_row_top_k_all (temperature : R) (k : Z) (u : R) (row : Vec) :
  row ≠ [] → (Z.of_nat (length row) ≤ k)%Z →
  GPT.sample_row temperature (Some k) u row = GPT.sample_row temperature None u row.
Proof.
  intros Hrow Hk. unfold GPT.sample_row. rewrite top_k_filter_all; [reflexivity | |].
  - destruct row; [contradiction | discriminate].
  - rewrite length_fmap. exact Hk.
Qed.

Lemma Linear_forward_rows (l : Linear.t) n_in n_out (x y : Tensor3) :
  Linear.wf n_in n_out l → Linear.forward l x = Ok y →
  Forall (Forall (λ r, length r = n_out)) y.
Proof.
  intros Hwf H. unfold Linear.forward in H.
  eapply mapR_post; [|exact H]. intros mat ymat _ Hm. unfold Linear.forward2 in Hm.
  eapply mapR_post; [|exact Hm]. intros r yr _ Hr.
  destruct (Linear_forward1_ok l n_in n_out r Hwf (eq_trans (Linear_forward1_inv _ _ _ Hr)
              (proj1 Hwf))) as (y0 & Hy0 & Hlen).
  congruence.
Qed.

Lemma forward_logits_rows (m : GPT.t) itos d (idx : LongTensor) targets o ev :
  GPT.wf m → GPT.forward m itos d idx targets false = Ok (o, ev) →
  ∃ logits loss, o = GPT.Logits logits loss ∧
    Forall (Forall (λ r, length r = GPTConfig.vocab_size (GPT.config m))) logits.
Proof.
  intros Hwf. unfold GPT.forward. destruct (decide _) as [_|]; [|discriminate]. intros H.
  apply bind_Ok in H as (zb & Hzb & H). apply bind_Ok in H as (logits & Hl & H).
  apply bind_Ok in H as (ls & _ & H). apply bind_Ok in H as (ev' & _ & H).
  injection H as <- <-. exists logits, ls.1. split; [reflexivity|].
  unfold GPT.decode in Hl.
  apply bind_Ok in Hl as (zf & _ & Hl). apply bind_Ok in Hl as (z & _ & Hl).
  apply bind_Ok in Hl as (z1 & _ & Hl). apply bind_Ok in Hl as (z2 & _ & Hl).
  eapply Linear_forward_rows; [|exact Hl].
  destruct Hwf as (_ & _ & _ & _ & _ & _ & _ & _ & _ & _ & Hhead). exact Hhead.
Qed.

Lemma sample_step_top_k_all (m : GPT.t) itos d temperature (k : Z) (idx : LongTensor) :
  GPT.wf m → 0 < GPTConfig.vocab_size (GPT.config m) →
  (Z.of_nat (GPTConfig.vocab_size (GPT.config m)) ≤ k)%Z →
  GPT.sample_step m itos d temperature (Some k) idx
  = GPT.sample_step m itos d temperature None idx.
Proof.
  intros Hwf HV Hk. unfold GPT.sample_step.
  destruct (GPT.forward _ _ _ _ _ _) as [[o ev]|e] eqn:Hf; [|reflexivity]. simpl.
  destruct (forward_logits_rows _ _ _ _ _ _ _ Hwf Hf) as (logits & loss & -> & Hrows).
  destruct (GPT.last_position logits) as [rows|e] eqn:Hlast; [|reflexivity]. simpl.
  assert (Hr : Forall (λ r, length r = GPTConfig.vocab_size (GPT.config m)) rows).
  { eapply mapR_post; [|exact Hlast]. intros mat r Hmat Hr. simpl in Hr.
    destruct (last mat) as [r0|] eqn:Hl0; [|discriminate]. injection Hr as <-.
    rewrite Forall_forall in Hrows. specialize (Hrows mat Hmat).
    rewrite Forall_forall in Hrows. apply Hrows.
    rewrite last_lookup in Hl0. eapply list_elem_of_lookup_2, Hl0. }
  f_equal. f_equal. apply imap_ext. intros b row Hrow. simpl.
  pose proof (proj1 (Forall_lookup _ _) Hr b row Hrow) as Hlen. simpl in Hlen.
  apply sample_row_top_k_all; [destruct row; [simpl in Hlen; lia | discriminate] | lia].
Qed.

(** X9. A top-k at least as large as the vocabulary restricts nothing:
    for a well-shaped model [generate] with such a [top_k] does exactly
    what it does with [top_k=None] (the same sequence under the same
    draws, or the same exception). *)
Theorem generate_top_k_whole_vocabulary (m : GPT.t) itos draws (idx : LongTensor)
    (max_new_tokens : Z) (temperature : R) (k : Z) :
  GPT.wf m → 0 < GPTConfig.vocab_size (GPT.config m) →
  (Z.of_nat (GPTConfig.vocab_size (GPT.config m)) ≤ k)%Z →
  GPT.generate m itos draws idx max_new_tokens temperature (Some k)
  = GPT.generate m itos draws idx max_new_tokens temperature None.
Proof.
  intros Hwf HV Hk. unfold GPT.generate.
  generalize 0 as step. revert idx.
  induction (Z.to_nat max_new_tokens) as [|n IH]; intros idx step; [reflexivity|]. simpl.
  rewrite (sample_step_top_k_all m itos (draws step) temperature k idx Hwf HV Hk).
  destruct (GPT.sample_step _ _ _ _ None idx) as [[idx' stop]|e]; [|reflexivity]. simpl.
  destruct stop; [reflexivity | apply IH].
Qed.

Lemma generate_top_k_whole_vocabulary_witness :
  GPT.generate tiny_model tiny_itos (λ _, step_draws (1 / 2) (1 / 2) (1 / 4))
    example_input 3 1 (Some 7%Z)
  = GPT.generate tiny_model tiny_itos (λ _, step_draws (1 / 2) (1 / 2) (1 / 4))
      example_input 3 1 None.
Proof.
  apply generate_top_k_whole_vocabulary; [apply tiny_model_wf | simpl; lia | simpl; lia].
Defined.

(** ** A top-k below one *)



(** ** What the constructor does with the head count *)

Lemma raises_bind_l {A B} (e : exn) (m : Init A) (f : A → Init B) :
  raises e m → raises e (x <~ m;; f x).
Proof. intros Hm s. unfold bindI. rewrite Hm. reflexivity. Qed.

Lemma raises_bind_r {A B} (e : exn) (m : Init A) (f : A → Init B)
    (Q : A → list tensor → Prop) :
  builds (λ _, True) m Q → (∀ a, raises e (f a)) → raises e (x <~ m;; f x).
Proof.
  intros Hm Hf s. destruct (Hm s I) as (a & s' & E & _). unfold bindI. rewrite E. apply Hf.
Qed.

Lemma Embedding_init_empty (dim : nat) : raises IndexError (Embedding.__init__ 0 dim 0).
Proof.
  intros s. unfold Embedding.__init__.
  destruct (decide _) as [[H _]|_]; [lia|]. unfold bindI. simpl. reflexivity.
Qed.

Section heads.
Variables (config : GPTConfig.t) (has_flash : bool) (e : exn).
Hypothesis accepted : constructible config.
Hypothesis assert_raises : raises e (CausalSelfAttention.assert_heads config).

Lemma Block_init_raises : raises e (Block.__init__ config has_flash).
Proof using assert_raises.
  unfold Block.__init__. cbv zeta.
  eapply raises_bind_r; [apply builds_LayerNorm|]. intros l1.
  apply raises_bind_l. unfold CausalSelfAttention.__init__. cbv zeta.
  apply raises_bind_l, assert_raises.
Qed.

Lemma GPT_init_raises :
  0 < GPTConfig.n_layer config → raises e (GPT.__init__ config has_flash).
Proof using accepted assert_raises.
  intros Hl. destruct accepted as (Hv & Hb & Hd). unfold GPT.__init__. cbv zeta.
  eapply raises_bind_r; [apply builds_Embedding, Hv|]. intros tw.
  eapply raises_bind_r; [apply builds_Embedding, Hb|]. intros tp.
  rewrite bind_Dropout by exact Hd.
  apply raises_bind_l.
  destruct (GPTConfig.n_layer config) as [|n]; [lia|]. simpl.
  apply raises_bind_l, Block_init_raises.
Qed.

End heads.

(** X11. What [GPT(config)] does, case by case, in the order in which the
    constructor meets them.  An empty vocabulary, then an empty block,
    raises IndexError ([nn.Embedding] zeroes the row of [padding_idx=0]);
    then a dropout outside [0, 1] raises ValueError ([nn.Dropout]); then,
    with at least one layer, [n_head = 0] raises ZeroDivisionError and an
    [n_head] that does not divide [n_embd] AssertionError; in every other
    case the constructor returns a model of the shapes [forward]
    expects. *)
Theorem GPT_init_outcome (config : GPTConfig.t) (has_flash : bool) (s : state) :
  (GPTConfig.vocab_size config = 0 →
   GPT.__init__ config has_flash s = Raise IndexError) ∧
  (0 < GPTConfig.vocab_size config → GPTConfig.block_size config = 0 →
   GPT.__init__ config has_flash s = Raise IndexError) ∧
  (0 < GPTConfig.vocab_size config → 0 < GPTConfig.block_size config →
   ¬ (0 <= GPTConfig.dropout config <= 1)%R →
   GPT.__init__ config has_flash s = Raise ValueError) ∧
  (constructible config → 0 < GPTConfig.n_layer config → GPTConfig.n_head config = 0 →
   GPT.__init__ config has_flash s = Raise ZeroDivisionError) ∧
  (constructible config → 0 < GPTConfig.n_layer config → 0 < GPTConfig.n_head config →
   GPTConfig.n_embd config `mod` GPTConfig.n_head config ≠ 0 →
   GPT.__init__ config has_flash s = Raise AssertionError) ∧
  (constructible config →
   GPTConfig.n_layer config = 0 ∨
   (0 < GPTConfig.n_head config ∧
    GPTConfig.n_embd config `mod` GPTConfig.n_head config = 0) →
   ∃ self s' m, GPT.__init__ config has_flash s = Ok (self, s') ∧
                GPT.resolve (heap s') self = Some m ∧ GPT.wf m ∧ GPT.tied self).
Proof.
  split_and!.
  - intros Hv. revert s. change (raises IndexError (GPT.__init__ config has_flash)).
    unfold GPT.__init__. cbv zeta. rewrite Hv. apply raises_bind_l, Embedding_init_empty.
  - intros Hv Hb. revert s. change (raises IndexError (GPT.__init__ config has_flash)).
    unfold GPT.__init__. cbv zeta.
    eapply raises_bind_r; [apply builds_Embedding, Hv|]. intros tw.
    rewrite Hb. apply raises_bind_l, Embedding_init_empty.
  - intros Hv Hb Hd. revert s. change (raises ValueError (GPT.__init__ config has_flash)).
    unfold GPT.__init__. cbv zeta.
    eapply raises_bind_r; [apply builds_Embedding, Hv|]. intros tw.
    eapply raises_bind_r; [apply builds_Embedding, Hb|]. intros tp.
    intros s0. apply bind_Dropout_raises, Hd.
  - intros Hc Hl Hz. apply GPT_init_raises; [exact Hc | | exact Hl].
    intros s0. unfold CausalSelfAttention.assert_heads.
    destruct (decide _) as [_|]; [reflexivity | contradiction].
  - intros Hc Hl Hpos Hmod. apply GPT_init_raises; [exact Hc | | exact Hl].
    intros s0. unfold CausalSelfAttention.assert_heads.
    destruct (decide _) as [|_]; [lia|]. destruct (decide _) as [|_]; [contradiction|].
    reflexivity.
  - intros Hc Hh.
    assert (Hstack : builds (λ _, True)
                       (Block.init_stack config has_flash (GPTConfig.n_layer config))
                       (Stack_ok (GPTConfig.n_embd config) (GPTConfig.block_size config))).
    { destruct Hh as [->|[Hpos Hmod]].
      - simpl. apply builds_ret. intros h _. constructor.
      - apply builds_init_stack; try assumption. apply Hc. }
    destruct (builds_GPT_of_stack config has_flash Hc Hstack s I)
      as (self & s' & E & _ & Hok & Ht).
    destruct (GPT_ok_resolve _ _ _ Hok) as (m & Em & Wm & _).
    exists self, s', m. split_and!; assumption.
Qed.

Lemma GPT_init_outcome_witness :
  GPT.__init__
    {| GPTConfig.block_size := 4; GPTConfig.vocab_size := 0; GPTConfig.n_layer := 1;
       GPTConfig.n_head := 1; GPTConfig.n_embd := 2; GPTConfig.dropout := 0%R;
       GPTConfig.bias := true; GPTConfig.n_bottleneck := 3 |}
    true (fresh_state (λ _, (1 / 2)%R)) = Raise IndexError ∧
  GPT.__init__
    {| GPTConfig.block_size := 4; GPTConfig.vocab_size := 5; GPTConfig.n_layer := 1;
       GPTConfig.n_head := 1; GPTConfig.n_embd := 2; GPTConfig.dropout := (3 / 2)%R;
       GPTConfig.bias := true; GPTConfig.n_bottleneck := 3 |}
    true (fresh_state (λ _, (1 / 2)%R)) = Raise ValueError ∧
  GPT.__init__
    {| GPTConfig.block_size := 4; GPTConfig.vocab_size := 5; GPTConfig.n_layer := 1;
       GPTConfig.n_head := 3; GPTConfig.n_embd := 2; GPTConfig.dropout := 0%R;
       GPTConfig.bias := true; GPTConfig.n_bottleneck := 3 |}
    true (fresh_state (λ _, (1 / 2)%R)) = Raise AssertionError.
Proof.
  split_and!.
  - apply (proj1 (GPT_init_outcome _ _ _)). reflexivity.
  - apply (proj1 (proj2 (proj2 (GPT_init_outcome _ _ _)))); simpl; [lia | lia | lra].
  - apply (proj1 (proj2 (proj2 (proj2 (proj2 (GPT_init_outcome _ _ _))))));
      simpl; [|lia | lia | discriminate].
    unfold constructible. simpl. split_and!; [lia | lia | lra | lra].
Defined.

(** ** Reading a module graph in a larger heap *)

Lemma get_vec_app h new r v : get_vec h r = Some v → get_vec (h ++ new) r = Some v.
Proof.
  unfold get_vec. destruct (h !! r) as [t|] eqn:Hr; [|discriminate].
  rewrite (lookup_app_l_Some _ _ _ _ Hr). auto.
Qed.

Lemma get_mat_app h new r m : get_mat h r = Some m → get_mat (h ++ new) r = Some m.
Proof.
  unfold get_mat. destruct (h !! r) as [t|] eqn:Hr; [|discriminate].
  rewrite (lookup_app_l_Some _ _ _ _ Hr). auto.
Qed.

Lemma get_bias_app h new b v : get_bias h b = Some v → get_bias (h ++ new) b = Some v.
Proof.
  unfold get_bias. destruct b as [r|]; [|auto].
  destruct (get_vec h r) as [w|] eqn:Hr; [|discriminate].
  rewrite (get_vec_app _ new _ _ Hr). auto.
Qed.

Lemma LayerNorm_resolve_app h new o x :
  LayerNorm.resolve h o = Some x → LayerNorm.resolve (h ++ new) o = Some x.
Proof.
  unfold LayerNorm.resolve.
  destruct (get_vec h _) as [w|] eqn:Hw; [|discriminate].
  destruct (get_bias h _) as [b|] eqn:Hb; [|discriminate].
  rewrite (get_vec_app _ new _ _ Hw), (get_bias_app _ new _ _ Hb). auto.
Qed.

Lemma Linear_resolve_app h new o x :
  Linear.resolve h o = Some x → Linear.resolve (h ++ new) o = Some x.
Proof.
  unfold Linear.resolve.
  destruct (get_mat h _) as [w|] eqn:Hw; [|discriminate].
  destruct (get_bias h _) as [b|] eqn:Hb; [|discriminate].
  rewrite (get_mat_app _ new _ _ Hw), (get_bias_app _ new _ _ Hb). auto.
Qed.

Lemma Embedding_resolve_app h new o x :
  Embedding.resolve h o = Some x → Embedding.resolve (h ++ new) o = Some x.
Proof.
  unfold Embedding.resolve.
  destruct (get_mat h _) as [w|] eqn:Hw; [|discriminate].
  rewrite (get_mat_app _ new _ _ Hw). auto.
Qed.

Lemma Attention_resolve_app h new o x :
  CausalSelfAttention.resolve h o = Some x → CausalSelfAttention.resolve (h ++ new) o = Some x.
Proof.
  unfold CausalSelfAttention.resolve.
  destruct (Linear.resolve h (CausalSelfAttention.c_attn o)) as [a|] eqn:Ha; [|discriminate].
  destruct (Linear.resolve h (CausalSelfAttention.c_proj o)) as [p|] eqn:Hp; [|discriminate].
  rewrite (Linear_resolve_app _ new _ _ Ha), (Linear_resolve_app _ new _ _ Hp). auto.
Qed.

Lemma MLP_resolve_app h new o x :
  MLP.resolve h o = Some x → MLP.resolve (h ++ new) o = Some x.
Proof.
  unfold MLP.resolve.
  destruct (Linear.resolve h (MLP.c_fc o)) as [a|] eqn:Ha; [|discriminate].
  destruct (Linear.resolve h (MLP.c_proj o)) as [p|] eqn:Hp; [|discriminate].
  rewrite (Linear_resolve_app _ new _ _ Ha), (Linear_resolve_app _ new _ _ Hp). auto.
Qed.

Lemma Block_resolve_app h new o x :
  Block.resolve h o = Some x → Block.resolve (h ++ new) o = Some x.
Proof.
  unfold Block.resolve.
  destruct (LayerNorm.resolve h (Block.ln_1 o)) as [l1|] eqn:H1; [|discriminate].
  destruct (CausalSelfAttention.resolve h _) as [a|] eqn:Ha; [|discriminate].
  destruct (LayerNorm.resolve h (Block.ln_2 o)) as [l2|] eqn:H2; [|discriminate].
  destruct (MLP.resolve h _) as [p|] eqn:Hp; [|discriminate].
  rewrite (LayerNorm_resolve_app _ new _ _ H1), (Attention_resolve_app _ new _ _ Ha),
    (LayerNorm_resolve_app _ new _ _ H2), (MLP_resolve_app _ new _ _ Hp). auto.
Qed.

Lemma resolve_stack_app h new os xs :
  Block.resolve_stack h os = Some xs → Block.resolve_stack (h ++ new) os = Some xs.
Proof.
  revert xs. induction os as [|o os IH]; intros xs; simpl; [auto|].
  destruct (Block.resolve h o) as [b|] eqn:Hb; [|discriminate].
  destruct (Block.resolve_stack h os) as [bs|] eqn:Hbs; [|discriminate].
  rewrite (Block_resolve_app _ new _ _ Hb), (IH _ eq_refl). auto.
Qed.

Lemma Attention_resolve_crop h k o :
  CausalSelfAttention.resolve h (crop_bias k o) = crop_bias k <$> CausalSelfAttention.resolve h o.
Proof.
  unfold CausalSelfAttention.resolve, crop_bias.
  destruct (CausalSelfAttention.flash o) eqn:Hf; simpl;
    destruct (Linear.resolve h _); [|reflexivity| |reflexivity];
    destruct (Linear.resolve h _); simpl; try reflexivity; rewrite Hf; reflexivity.
Qed.

Lemma Block_resolve_crop h k o :
  Block.resolve h (crop_block k o) = crop_block k <$> Block.resolve h o.
Proof.
  unfold Block.resolve, crop_block. simpl. rewrite Attention_resolve_crop.
  destruct (LayerNorm.resolve h (Block.ln_1 o)); [|reflexivity].
  destruct (CausalSelfAttention.resolve h _); [|reflexivity]. simpl.
  destruct (LayerNorm.resolve h (Block.ln_2 o)); [|reflexivity].
  destruct (MLP.resolve h _); reflexivity.
Qed.

Lemma resolve_stack_crop h k os :
  Block.resolve_stack h (crop_block k <$> os)
  = fmap (M:=list) (crop_block k) <$> Block.resolve_stack h os.
Proof.
  induction os as [|o os IH]; [reflexivity|]. csimpl. rewrite Block_resolve_crop, IH.
  destruct (Block.resolve h o); [|reflexivity].
  destruct (Block.resolve_stack h os); reflexivity.
Qed.

Lemma crop_block_size_resolve (self : GPT.obj) (k : nat) (s : state) (m : GPT.t) :
  GPT.resolve (heap s) self = Some m → k ≤ GPTConfig.block_size (GPT.config self) →
  ∃ s', crop_block_size self k s = Ok (cropped self k (length (heap s)), s') ∧
        GPT.resolve (heap s') (cropped self k (length (heap s)))
        = Some (cropped m k (take k (Embedding.weight (GPT.transformer_wpe m)))).
Proof.
  intros Hres Hk. unfold crop_block_size. destruct (decide _) as [_|]; [|lia].
  unfold GPT.resolve in Hres.
  apply bind_Some in Hres as (tw & Htw & Hres). apply bind_Some in Hres as (tp & Htp & Hres).
  apply bind_Some in Hres as (th & Hth & Hres). apply bind_Some in Hres as (tl & Htl & Hres).
  apply bind_Some in Hres as (ew & Hew & Hres). apply bind_Some in Hres as (ep & Hep & Hres).
  apply bind_Some in Hres as (ei & Hei & Hres). apply bind_Some in Hres as (eh & Heh & Hres).
  apply bind_Some in Hres as (el & Hel & Hres). apply bind_Some in Hres as (eb & Heb & Hres).
  apply bind_Some in Hres as (du & Hdu & Hres). apply bind_Some in Hres as (dh & Hdh & Hres).
  apply bind_Some in Hres as (dl & Hdl & Hres). apply bind_Some in Hres as (hd & Hhd & Hres).
  injection Hres as <-.
  assert (Hw : get_mat (heap s) (Embedding.weight (GPT.transformer_wpe self))
               = Some (Embedding.weight tp)).
  { unfold Embedding.resolve in Htp. destruct (get_mat _ _) as [w|]; [|discriminate].
    injection Htp as <-. reflexivity. }
  rewrite Hw. unfold bindI, nn_Parameter, ret. simpl.
  eexists. split; [reflexivity|]. simpl.
  set (new := [T2 (take k (Embedding.weight tp))]).
  unfold GPT.resolve. simpl.
  rewrite (Embedding_resolve_app _ new _ _ Htw). simpl.
  assert (Hp : Embedding.resolve (heap s ++ new) {| Embedding.weight := length (heap s) |}
               = Some {| Embedding.weight := take k (Embedding.weight tp) |}).
  { unfold Embedding.resolve, get_mat. simpl.
    rewrite lookup_app_r, Nat.sub_diag by lia. reflexivity. }
  rewrite Hp. simpl.
  rewrite resolve_stack_crop, (resolve_stack_app _ new _ _ Hth). simpl.
  rewrite (LayerNorm_resolve_app _ new _ _ Htl). simpl.
  rewrite (Embedding_resolve_app _ new _ _ Hew). simpl.
  rewrite (Embedding_resolve_app _ new _ _ Hep). simpl.
  rewrite (Embedding_resolve_app _ new _ _ Hei). simpl.
  rewrite (resolve_stack_app _ new _ _ Heh). simpl.
  rewrite (LayerNorm_resolve_app _ new _ _ Hel). simpl.
  rewrite (Linear_resolve_app _ new _ _ Heb). simpl.
  rewrite (Linear_resolve_app _ new _ _ Hdu). simpl.
  rewrite (resolve_stack_app _ new _ _ Hdh). simpl.
  rewrite (LayerNorm_resolve_app _ new _ _ Hdl). simpl.
  rewrite (Linear_resolve_app _ new _ _ Hhd). simpl.
  reflexivity.
Qed.

(** X12. [crop_block_size] to a strictly smaller block size leaves a
    model that [forward] cannot run: the surgery shortens the position
    table of the unused primary path only ([transformer.wpe], now of
    [block_size] rows) and keeps the weight tying, but the encoder's
    bottleneck still expects the old block size, so every call on a
    sequence that passes the new block-size assertion raises a
    RuntimeError, and every longer one an AssertionError. *)
Theorem crop_block_size_breaks_forward (self self' : GPT.obj) (s s' : state) (m : GPT.t)
    (block_size : nat) :
  GPT.resolve (heap s) self = Some m → GPT.wf m → GPT.tied self →
  Embedding.wf (GPTConfig.block_size (GPT.config m)) (GPTConfig.n_embd (GPT.config m))
    (GPT.transformer_wpe m) →
  0 < GPTConfig.n_embd (GPT.config m) →
  block_size < GPTConfig.block_size (GPT.config m) →
  crop_block_size self block_size s = Ok (self', s') →
  ∃ m', GPT.resolve (heap s') self' = Some m' ∧ GPT.tied self' ∧
        GPTConfig.block_size (GPT.config m') = block_size ∧
        Embedding.wf block_size (GPTConfig.n_embd (GPT.config m)) (GPT.transformer_wpe m') ∧
        ∀ itos d idx targets embedding,
          wf_long idx → valid_ids (GPTConfig.vocab_size (GPT.config m)) idx →
          valid_ins m' d → 0 < size0 idx →
          GPT.forward m' itos d idx targets embedding
          = Raise (if decide (size1 idx ≤ block_size) then RuntimeError else AssertionError).
Proof.
  intros Hres Hwf Htied Hwpe HC Hk Hcrop.
  assert (Hcfg : GPT.config self = GPT.config m).
  { unfold GPT.resolve in Hres. repeat (apply bind_Some in Hres as (? & _ & Hres)).
    injection Hres as <-. reflexivity. }
  destruct (crop_block_size_resolve self block_size s m Hres ltac:(rewrite Hcfg; lia))
    as (s0 & E & Hres').
  rewrite Hcrop in E. injection E as -> ->.
  eexists. split; [exact Hres'|]. split; [exact Htied|]. split; [reflexivity|]. split.
  { destruct Hwpe as [Hlen Hrows]. split; simpl.
    - rewrite length_take. lia.
    - apply Forall_take, Hrows. }
  intros itos d idx targets embedding Hidx Hids Hins Hb.
  unfold GPT.forward. simpl.
  destruct (decide (size1 idx ≤ block_size)) as [Ht|Ht]; [|reflexivity].
  change (GPT.encode (cropped m block_size _) d idx) with (GPT.encode m d idx).
  rewrite (encode_short_raises m d idx Hwf Hidx Hids Hins Hb HC ltac:(lia)). reflexivity.
Qed.

(** What a valid configuration builds, the unused primary path included. *)
Lemma init_shapes config has_flash s :
  constructible config →
  0 < GPTConfig.n_head config →
  GPTConfig.n_embd config `mod` GPTConfig.n_head config = 0 →
  ∃ self s' m,
    GPT.__init__ config has_flash s = Ok (self, s') ∧
    GPT.resolve (heap s') self = Some m ∧ GPT.wf m ∧ GPT.config m = config ∧
    GPT.tied self ∧
    Embedding.wf (GPTConfig.block_size config) (GPTConfig.n_embd config) (GPT.transformer_wpe m).
Proof.
  intros Hcons Hpos Hmod.
  destruct (builds_GPT config has_flash Hcons Hpos Hmod s I) as (self & s' & E & _ & Hok & Ht).
  destruct (GPT_ok_resolve _ _ _ Hok) as (m & Em & Wm & Hc & _).
  exists self, s', m. split_and!; try assumption.
  destruct Hok as (_ & _ & Htp & _). destruct (Embedding_ok_resolve _ _ _ _ Htp) as (tp & Etp & Wtp).
  unfold GPT.resolve in Em.
  apply bind_Some in Em as (tw & _ & Em). apply bind_Some in Em as (tp' & Etp' & Em).
  repeat (apply bind_Some in Em as (? & _ & Em)). injection Em as <-. simpl.
  rewrite Etp in Etp'. injection Etp' as <-. exact Wtp.
Qed.

Lemma crop_block_size_breaks_forward_witness :
  ∃ self s1 self' s' m',
    GPT.__init__ tiny_config true (fresh_state (λ _, (1 / 2)%R)) = Ok (self, s1) ∧
    crop_block_size self 2 s1 = Ok (self', s') ∧
    GPT.resolve (heap s') self' = Some m' ∧
    GPT.forward m' tiny_itos (draws_with (1 / 2) (1 / 2)) (long_tensor [[1; 3]]%Z 2) None false
    = Raise RuntimeError.
Proof.
  destruct (init_shapes tiny_config true (fresh_state (λ _, (1 / 2)%R)) tiny_constructible)
    as (self & s1 & m & E & Em & Wm & Hc & Ht & Hwpe); [simpl; lia | reflexivity |].
  destruct (crop_block_size_resolve self 2 s1 m Em) as (s' & Ecrop & Hres').
  { replace (GPT.config self) with (GPT.config m); [rewrite Hc; simpl; lia|].
    unfold GPT.resolve in Em. repeat (apply bind_Some in Em as (? & _ & Em)).
    injection Em as <-. reflexivity. }
  rewrite <- Hc in Hwpe.
  destruct (crop_block_size_breaks_forward self _ s1 s' m 2 Em Wm Ht Hwpe
              ltac:(rewrite Hc; simpl; lia) ltac:(rewrite Hc; simpl; lia) Ecrop)
    as (m' & Em' & _ & _ & _ & Hfw).
  exists self, s1, (cropped self 2 (length (heap s1))), s', m'.
  split; [exact E|]. split; [exact Ecrop|]. split; [exact Em'|].
  apply (Hfw tiny_itos (draws_with (1 / 2) (1 / 2)) (long_tensor [[1; 3]]%Z 2) None false).
  - split; [reflexivity|]. repeat constructor.
  - rewrite Hc. repeat constructor; lia.
  - rewrite Hres' in Em'. injection Em' as <-. unfold valid_ins. simpl.
    destruct Wm as [-> _]. repeat constructor; lia.
  - simpl. lia.
Defined.

(** ** The alternative loss reads the targets through their histogram *)

Lemma foldr_max_perm (n : nat) (l l' : list nat) :
  l ≡ₚ l' → foldr Nat.max n l = foldr Nat.max n l'.
Proof.
  induction 1 as [|x l l' _ IH|x y l|l1 l2 l3 _ IH1 _ IH2]; simpl; try lia; congruence.
Qed.

Lemma bincount_perm (x x' : list Z) (minlength : nat) :
  x ≡ₚ x' → bincount x minlength = bincount x' minlength.
Proof.
  intros Hp. unfold bincount.
  destruct (decide (Forall _ x)) as [Hx|Hx]; destruct (decide (Forall _ x')) as [Hx'|Hx'].
  - cbv zeta. rewrite (foldr_max_perm _ _ ((λ v, S (Z.to_nat v)) <$> x')) by (rewrite Hp; reflexivity).
    f_equal. apply list_fmap_ext. intros i c _. simpl. rewrite Hp. reflexivity.
  - exfalso. apply Hx'. rewrite <- Hp. exact Hx.
  - exfalso. apply Hx. rewrite Hp. exact Hx'.
  - reflexivity.
Qed.

(** X13. [_custom_loss] reads the targets only through their histogram:
    two target tensors holding the same ids with the same multiplicities,
    at whatever positions and in whatever batch elements, give the same
    loss for the same logits (or the same exception). *)
Theorem custom_loss_ignores_target_positions (logits2 : Tensor3) (targets targets' : LongTensor) :
  concat (data targets) ≡ₚ concat (data targets') →
  _custom_loss logits2 targets = _custom_loss logits2 targets'.
Proof.
  intros Hp. unfold _custom_loss. rewrite (bincount_perm _ _ _ Hp). reflexivity.
Qed.

Lemma custom_loss_ignores_target_positions_witness :
  _custom_loss [[[1; 2; 3]; [0; 0; 1]]]%R (long_tensor [[2; 0]]%Z 2)
  = _custom_loss [[[1; 2; 3]; [0; 0; 1]]]%R (long_tensor [[0; 2]]%Z 2).
Proof.
  apply custom_loss_ignores_target_positions. simpl. apply perm_swap.
Defined.

(** ** The manual attention path beyond the mask buffer *)



(** ** Reasoning about what a constructor allocates *)

Lemma numel_T2 (m : Mat) rows cols : has_shape2 m rows cols → numel (T2 m) = rows * cols.
Proof. intros [Hl Hr]. simpl. rewrite (concat_length_const _ cols) by exact Hr. lia. Qed.

Lemma same_shape_shape_of t t' : same_shape t t' → shape_of t' = shape_of t.
Proof.
  destruct t as [v|m], t' as [v'|m']; simpl; try contradiction; intros H; unfold shape_of; simpl.
  - congruence.
  - f_equal. rewrite !length_concat. change (map length) with (fmap (M:=list) (@length R)).
    rewrite H. reflexivity.
Qed.

Lemma shape_at_le h h' r sh : heap_le h h' → shape_at h r = Some sh → shape_at h' r = Some sh.
Proof.
  intros Hle. unfold shape_at. destruct (h !! r) as [t|] eqn:Hr; [|discriminate].
  intros H. injection H as <-. destruct (Hle r t Hr) as (t' & -> & Hs). simpl.
  f_equal. apply same_shape_shape_of, Hs.
Qed.

Lemma holds_app ps1 ps2 sig1 sig2 al1 al2 :
  holds ps1 sig1 al1 → holds ps2 sig2 al2 → holds (ps1 ++ ps2) (sig1 ++ sig2) (al1 ++ al2).
Proof. intros [H1 H2] [H3 H4]. split; rewrite fmap_app; congruence. Qed.

Lemma holds_nil : holds [] [] [].
Proof. split; reflexivity. Qed.

Lemma holds_singleton r sh al : holds [r] [sh] al → al = [(r, sh)].
Proof.
  intros [H1 H2]. destruct al as [|[r0 sh0] [|p al]]; try discriminate.
  simpl in *. congruence.
Qed.

Lemma grows_ret {A} (a : A) (Q : A → list (ref * (nat * nat)) → Prop) :
  Q a [] → grows (ret a) Q.
Proof.
  intros HQ s. exists a, s, []. split; [reflexivity|]. split; [apply heap_le_refl|].
  simpl. split; [reflexivity|]. split; [lia|]. split; [constructor | exact HQ].
Qed.

Lemma grows_bind {A B} (m : Init A) (f : A → Init B)
    (Q1 : A → list (ref * (nat * nat)) → Prop) (Q : B → list (ref * (nat * nat)) → Prop) :
  grows m Q1 →
  (∀ a al1, Q1 a al1 → grows (f a) (λ b al2, Q b (al1 ++ al2))) →
  grows (x <~ m;; f x) Q.
Proof.
  intros Hm Hf s. destruct (Hm s) as (a & s1 & al1 & E1 & L1 & R1 & N1 & S1 & HQ1).
  destruct (Hf a al1 HQ1 s1) as (b & s2 & al2 & E2 & L2 & R2 & N2 & S2 & HQ2).
  exists b, s2, (al1 ++ al2). unfold bindI. rewrite E1. split; [exact E2|].
  split; [eapply heap_le_trans; eassumption|].
  rewrite length_app, seq_app, fmap_app.
  split; [rewrite R1, R2, N1; reflexivity|]. split; [lia|]. split; [|exact HQ2].
  apply Forall_app. split; [|exact S2].
  eapply Forall_impl; [exact S1|]. intros [r sh] Hr. exact (shape_at_le _ _ _ _ L2 Hr).
Qed.

(** A step that reads or draws and leaves the heap as it is. *)
Lemma grows_pure {A B} (m : Init A) (f : A → Init B) (P : A → Prop)
    (Q : B → list (ref * (nat * nat)) → Prop) :
  (∀ s, ∃ a s', m s = Ok (a, s') ∧ heap s' = heap s ∧ P a) →
  (∀ a, P a → grows (f a) Q) →
  grows (x <~ m;; f x) Q.
Proof.
  intros Hm Hf s. destruct (Hm s) as (a & s1 & E1 & H1 & HP).
  destruct (Hf a HP s1) as (b & s2 & al & E2 & L2 & R2 & N2 & S2 & HQ2).
  exists b, s2, al. unfold bindI. rewrite E1, <- H1. auto 10.
Qed.

Lemma grows_pass {A} (m : Init unit) (k : Init A) (Q : A → list (ref * (nat * nat)) → Prop) :
  keeps_len m → grows k Q → grows (_ <~ m;; k) Q.
Proof.
  intros Hm Hk s. destruct (Hm s) as (s1 & E1 & L1 & N1).
  destruct (Hk s1) as (b & s2 & al & E2 & L2 & R2 & N2 & S2 & HQ2).
  exists b, s2, al. unfold bindI. rewrite E1, <- N1.
  split; [exact E2|]. split; [eapply heap_le_trans; eassumption | auto].
Qed.

Lemma grows_parameter (t : tensor) :
  grows (nn_Parameter t) (λ r al, al = [(r, shape_of t)]).
Proof.
  intros s. eexists _, _, [(length (heap s), shape_of t)]. split; [reflexivity|]. simpl.
  split; [apply heap_le_alloc|]. split; [reflexivity|].
  rewrite length_app. simpl. split; [lia|]. split; [|reflexivity].
  constructor; [|constructor]. simpl. unfold shape_at.
  rewrite lookup_app_r, Nat.sub_diag by lia. reflexivity.
Qed.

Lemma grows_parameter_vec (v : Vec) n :
  length v = n → grows (nn_Parameter (T1 v)) (λ r al, al = [(r, (1, n))]).
Proof. intros <-. apply grows_parameter. Qed.

Lemma grows_parameter_mat (m : Mat) rows cols :
  has_shape2 m rows cols →
  grows (nn_Parameter (T2 m)) (λ r al, al = [(r, (2, rows * cols))]).
Proof.
  intros Hm. rewrite <- (numel_T2 _ _ _ Hm). apply grows_parameter.
Qed.

Lemma sample_mat_pure rows cols (s : state) :
  ∃ a s', sample_mat rows cols s = Ok (a, s') ∧ heap s' = heap s ∧ has_shape2 a rows cols.
Proof.
  destruct (builds_sample_mat rows cols s I) as (a & s' & E & _ & H).
  exists a, s'. split; [exact E|]. split; [|exact H].
  unfold sample_mat in E. injection E as _ <-. reflexivity.
Qed.

Lemma sample_vec_pure n (s : state) :
  ∃ a s', sample_vec n s = Ok (a, s') ∧ heap s' = heap s ∧ length a = n.
Proof.
  destruct (builds_sample_vec n s I) as (a & s' & E & _ & H).
  exists a, s'. split; [exact E|]. split; [|exact H].
  unfold sample_vec in E. injection E as _ <-. reflexivity.
Qed.

Lemma grows_LayerNorm n b :
  grows (LayerNorm.__init__ n b)
    (λ o al, holds (LayerNorm_parameters o) (sig_LayerNorm n b) al).
Proof.
  unfold LayerNorm.__init__, sig_LayerNorm.
  eapply grows_bind; [apply grows_parameter_vec, length_replicate | intros w al1 ->].
  destruct b.
  - apply (grows_bind _ _ (λ ob al, holds (option_list ob) [(1, n)] al)).
    + eapply grows_bind; [apply grows_parameter_vec, length_replicate | intros r al1 ->].
      apply grows_ret. split; reflexivity.
    + intros ob al1 H. apply grows_ret. rewrite app_nil_r.
      apply (holds_app [w] _ [(1, n)] _ [(w, (1, n))]); [split; reflexivity | exact H].
  - apply (grows_bind _ _ (λ ob al, holds (option_list ob) [] al)).
    + apply grows_ret. split; reflexivity.
    + intros ob al1 H. apply grows_ret. rewrite app_nil_r.
      apply (holds_app [w] _ [(1, n)] _ [(w, (1, n))]); [split; reflexivity | exact H].
Qed.

Lemma grows_Linear n_in n_out b :
  grows (Linear.__init__ n_in n_out b)
    (λ o al, holds (Linear_parameters o) (sig_Linear n_in n_out b) al).
Proof.
  unfold Linear.__init__, sig_Linear. cbv zeta.
  apply (grows_pure _ _ (λ w, has_shape2 w n_out n_in)); [apply sample_mat_pure | intros w0 Hw0].
  eapply grows_bind.
  { apply (grows_parameter_mat _ n_out n_in). eapply has_shape2_lengths; [|exact Hw0].
    rewrite <- list_fmap_compose. apply list_fmap_ext. intros i row _. apply length_fmap. }
  intros w al1 ->.
  destruct b.
  - apply (grows_bind _ _ (λ ob al, holds (option_list ob) [(1, n_out)] al)).
    + apply (grows_pure _ _ (λ v, length v = n_out)); [apply sample_vec_pure | intros v Hv].
      eapply grows_bind;
        [apply (grows_parameter_vec _ n_out); rewrite length_fmap; exact Hv | intros r al1 ->].
      apply grows_ret. split; reflexivity.
    + intros ob al1 H. apply grows_ret. rewrite app_nil_r.
      apply (holds_app [w] _ [(2, n_out * n_in)] _ [(w, (2, n_out * n_in))]);
        [split; reflexivity | exact H].
  - apply (grows_bind _ _ (λ ob al, holds (option_list ob) [] al)).
    + apply grows_ret. split; reflexivity.
    + intros ob al1 H. apply grows_ret. rewrite app_nil_r.
      apply (holds_app [w] _ [(2, n_out * n_in)] _ [(w, (2, n_out * n_in))]);
        [split; reflexivity | exact H].
Qed.

Lemma grows_Embedding num dim padding_idx :
  padding_idx < num →
  grows (Embedding.__init__ num dim padding_idx)
    (λ o al, holds (Embedding_parameters o) (sig_Embedding num dim) al).
Proof.
  intros Hpad. unfold Embedding.__init__, sig_Embedding.
  destruct (decide _) as [[_ Hge]|_]; [lia|].
  destruct (decide _) as [_|Hn]; [|contradiction].
  apply (grows_pure _ _ (λ w, has_shape2 w num dim)); [apply sample_mat_pure | intros w0 [Hl Hr]].
  eapply grows_bind.
  { apply (grows_parameter_mat _ num dim). split.
    - rewrite length_insert. exact Hl.
    - apply Forall_insert; [exact Hr | apply length_replicate]. }
  intros w al1 ->. apply grows_ret. split; reflexivity.
Qed.

Ltac grows_step lemma := eapply grows_bind; [apply lemma | cbv beta; intros ? ? ?].
Ltac holds_all := rewrite ?app_nil_r; repeat first [assumption | apply holds_app].

Section allocation.
Variables (config : GPTConfig.t) (has_flash : bool).
Hypothesis heads_pos : 0 < GPTConfig.n_head config.
Hypothesis heads_divide : GPTConfig.n_embd config `mod` GPTConfig.n_head config = 0.
Hypothesis dropout_ok : (0 <= GPTConfig.dropout config <= 1)%R.

Lemma grows_Attention :
  grows (CausalSelfAttention.__init__ config has_flash)
    (λ o al, holds (Attention_parameters o) (sig_Attention config) al).
Proof using heads_pos heads_divide dropout_ok.
  unfold CausalSelfAttention.__init__, sig_Attention. cbv zeta.
  apply (grows_pure _ _ (λ _, True)).
  { intros s. exists tt, s. unfold CausalSelfAttention.assert_heads.
    destruct (decide _) as [|_]; [lia|]. destruct (decide _) as [_|]; [|contradiction].
    auto. }
  intros _ _. grows_step grows_Linear. grows_step grows_Linear.
  rewrite !bind_Dropout by exact dropout_ok. apply grows_ret.
  unfold Attention_parameters. cbn [CausalSelfAttention.c_attn CausalSelfAttention.c_proj]. holds_all.
Qed.

Lemma grows_MLP :
  grows (MLP.__init__ config) (λ o al, holds (MLP_parameters o) (sig_MLP config) al).
Proof using dropout_ok.
  unfold MLP.__init__, sig_MLP. cbv zeta.
  grows_step grows_Linear. grows_step grows_Linear.
  rewrite bind_Dropout by exact dropout_ok. apply grows_ret.
  unfold MLP_parameters. cbn [MLP.c_fc MLP.c_proj]. holds_all.
Qed.

Lemma grows_Block :
  grows (Block.__init__ config has_flash)
    (λ o al, holds (Block_parameters o) (sig_Block config) al).
Proof using heads_pos heads_divide dropout_ok.
  unfold Block.__init__, sig_Block. cbv zeta.
  grows_step grows_LayerNorm. grows_step grows_Attention.
  grows_step grows_LayerNorm. grows_step grows_MLP. apply grows_ret.
  unfold Block_parameters. cbn [Block.ln_1 Block.attn Block.ln_2 Block.mlp]. holds_all.
Qed.

Lemma grows_init_stack n :
  grows (Block.init_stack config has_flash n)
    (λ os al, holds (Stack_parameters os) (sig_Stack config n) al).
Proof using heads_pos heads_divide dropout_ok.
  induction n as [|n IH]; cbn [Block.init_stack sig_Stack].
  - apply grows_ret. apply holds_nil.
  - grows_step grows_Block. grows_step IH. apply grows_ret.
    unfold Stack_parameters. rewrite fmap_cons. cbn [concat]. holds_all.
Qed.

End allocation.

(** *** The passes keep the heap's length *)

Lemma keeps_len_of_builds (m : Init unit) :
  keeps m → (∀ s a s', m s = Ok (a, s') → length (heap s') = length (heap s)) → keeps_len m.
Proof.
  intros Hm Hlen s. destruct (Hm s I) as ([] & s' & E & L & _).
  exists s'. split; [exact E|]. split; [exact L | exact (Hlen _ _ _ E)].
Qed.

Lemma keeps_len_normal_ r mean std : keeps_len (normal_ r mean std).
Proof.
  apply keeps_len_of_builds; [apply builds_normal_|].
  intros s a s'. unfold normal_. destruct (heap s !! r); intros H; injection H as _ <-;
    [apply length_insert | reflexivity].
Qed.

Lemma keeps_len_zeros_ r : keeps_len (zeros_ r).
Proof.
  apply keeps_len_of_builds; [apply builds_zeros_|].
  intros s a s'. unfold zeros_. destruct (heap s !! r); intros H; injection H as _ <-;
    [apply length_insert | reflexivity].
Qed.

Lemma keeps_len_ret : keeps_len (ret tt).
Proof. intros s. exists s. split; [reflexivity|]. split; [apply heap_le_refl | reflexivity]. Qed.

Lemma keeps_len_bind (m : Init unit) (f : unit → Init unit) :
  keeps_len m → (∀ a, keeps_len (f a)) → keeps_len (x <~ m;; f x).
Proof.
  intros Hm Hf s. destruct (Hm s) as (s1 & E1 & L1 & N1).
  destruct (Hf tt s1) as (s2 & E2 & L2 & N2).
  exists s2. unfold bindI. rewrite E1. split; [exact E2|].
  split; [eapply heap_le_trans; eassumption | lia].
Qed.

Lemma keeps_len_for_each {A} (f : A → Init unit) (l : list A) :
  (∀ x, keeps_len (f x)) → keeps_len (Block.for_each f l).
Proof.
  intros Hf. induction l as [|x l IH]; simpl; [apply keeps_len_ret|].
  apply keeps_len_bind; [apply Hf | intros _; exact IH].
Qed.

Lemma keeps_len_Linear_init_weights l : keeps_len (Linear._init_weights l).
Proof.
  unfold Linear._init_weights. apply keeps_len_bind; [apply keeps_len_normal_ | intros _].
  destruct (Linear.bias l); [apply keeps_len_zeros_ | apply keeps_len_ret].
Qed.

Lemma keeps_len_Block_apply_init_weights blk : keeps_len (Block.apply_init_weights blk).
Proof.
  unfold Block.apply_init_weights.
  repeat (apply keeps_len_bind; [apply keeps_len_Linear_init_weights | intros _]).
  apply keeps_len_Linear_init_weights.
Qed.

Lemma keeps_len_scaled_init std blk : keeps_len (Block.scaled_init std blk).
Proof.
  unfold Block.scaled_init. apply keeps_len_bind; [apply keeps_len_normal_ | intros _].
  apply keeps_len_normal_.
Qed.

Lemma keeps_len_apply_init_weights self : keeps_len (GPT.apply_init_weights self).
Proof.
  unfold GPT.apply_init_weights, Embedding._init_weights.
  repeat first
    [ apply keeps_len_Linear_init_weights
    | apply keeps_len_normal_
    | apply keeps_len_for_each, keeps_len_Block_apply_init_weights
    | apply keeps_len_bind; [|intros _] ].
Qed.

Lemma holds_head r rest sh al : holds (r :: rest) [sh] al → al = [(r, sh)] ∧ rest = [].
Proof.
  intros [H1 H2]. destruct al as [|[r0 sh0] [|p al]]; try discriminate.
  simpl in *. split; congruence.
Qed.

Lemma grows_GPT config has_flash :
  constructible config →
  0 < GPTConfig.n_head config →
  GPTConfig.n_embd config `mod` GPTConfig.n_head config = 0 →
  grows (GPT.__init__ config has_flash) (tied_allocation config).
Proof.
  intros (Hv & Hb & Hd) Hpos Hmod. unfold GPT.__init__. cbv zeta.
  pose proof (grows_init_stack config has_flash Hpos Hmod Hd (GPTConfig.n_layer config))
    as Hstack.
  eapply grows_bind; [apply grows_Embedding, Hv | cbv beta; intros tw al1 H1].
  eapply grows_bind; [apply grows_Embedding, Hb | cbv beta; intros tp al2 H2].
  rewrite bind_Dropout by exact Hd.
  eapply grows_bind; [apply Hstack | cbv beta; intros th al3 H3].
  eapply grows_bind; [apply grows_LayerNorm | cbv beta; intros tl al4 H4].
  eapply grows_bind; [apply grows_Embedding, Hv | cbv beta; intros ew al5 H5].
  eapply grows_bind; [apply grows_Embedding, Hb | cbv beta; intros ep al6 H6].
  eapply grows_bind; [apply grows_Embedding; lia | cbv beta; intros ei al7 H7].
  rewrite bind_Dropout by exact Hd.
  eapply grows_bind; [apply Hstack | cbv beta; intros eh al8 H8].
  eapply grows_bind; [apply grows_LayerNorm | cbv beta; intros el al9 H9].
  eapply grows_bind; [apply grows_Linear | cbv beta; intros eb al10 H10].
  eapply grows_bind; [apply grows_Linear | cbv beta; intros du al11 H11].
  eapply grows_bind; [apply Hstack | cbv beta; intros dh al12 H12].
  rewrite bind_Dropout by exact Hd.
  eapply grows_bind; [apply grows_LayerNorm | cbv beta; intros dl al13 H13].
  eapply grows_bind; [apply grows_Linear | cbv beta; intros hd al14 H14].
  apply grows_pass; [apply keeps_len_apply_init_weights|].
  do 3 (apply grows_pass; [apply keeps_len_for_each, keeps_len_scaled_init|]).
  apply grows_ret.
  apply holds_singleton in H1 as ->. apply holds_singleton in H5 as ->.
  apply holds_head in H14 as [-> Hbias].
  exists (Embedding.weight tw), (Embedding.weight ew), (Linear.weight hd),
    (al2 ++ al3 ++ al4), (al6 ++ al7 ++ al8 ++ al9 ++ al10 ++ al11 ++ al12 ++ al13).
  split_and!.
  - rewrite app_nil_r, <- !app_assoc. reflexivity.
  - rewrite !fmap_app.
    rewrite (proj1 H2), (proj1 H3), (proj1 H4), (proj1 H6), (proj1 H7), (proj1 H8),
      (proj1 H9), (proj1 H10), (proj1 H11), (proj1 H12), (proj1 H13).
    assert (Hhd : Linear_parameters hd = [Linear.weight hd])
      by (unfold Linear_parameters; rewrite Hbias; reflexivity).
    unfold parameter_places.
    cbn [GPT.transformer_wte GPT.transformer_wpe GPT.transformer_h GPT.transformer_ln_f
         GPT.encoder_wte GPT.encoder_wpe GPT.encoder_wie GPT.encoder_h GPT.encoder_ln_f
         GPT.encoder_bottleneck GPT.decoder_unbottleneck GPT.decoder_h GPT.decoder_ln_f
         GPT.lm_head].
    rewrite Hhd. rewrite <- !app_assoc. reflexivity.
  - rewrite !fmap_app, (proj2 H2), (proj2 H3), (proj2 H4). reflexivity.
  - rewrite !fmap_app, (proj2 H6), (proj2 H7), (proj2 H8), (proj2 H9), (proj2 H10),
      (proj2 H11), (proj2 H12), (proj2 H13). reflexivity.
  - rewrite !fmap_app, (proj1 H2). reflexivity.
Qed.

(** *** Yielding every parameter once *)

Lemma elem_of_unique (seen l : list ref) (x : ref) :
  x ∈ unique seen l ↔ x ∈ l ∧ x ∉ seen.
Proof.
  revert seen. induction l as [|r l IH]; intros seen; simpl.
  - rewrite elem_of_nil. tauto.
  - destruct (decide (r ∈ seen)) as [Hr|Hr].
    + rewrite IH, elem_of_cons. split; [tauto|]. intros [[->|H] Hx]; [contradiction | tauto].
    + rewrite !elem_of_cons, IH, elem_of_cons. split.
      * intros [->|[H1 H2]]; [tauto|]. split; [tauto|]. intros H. apply H2. tauto.
      * intros [[->|H1] H2]; [tauto|]. destruct (decide (x = r)) as [->|Hne]; [tauto|].
        right. split; [exact H1|]. intros [?|?]; [congruence | contradiction].
Qed.

Lemma NoDup_unique (seen l : list ref) : NoDup (unique seen l).
Proof.
  revert seen. induction l as [|r l IH]; intros seen; simpl; [constructor|].
  destruct (decide (r ∈ seen)); [apply IH|]. constructor; [|apply IH].
  rewrite elem_of_unique, elem_of_cons. tauto.
Qed.

Lemma parameters_tied (c : GPTConfig.t) (self : GPT.obj) (al : list (ref * (nat * nat)))
    (a b rh : ref) (X Y : list (ref * (nat * nat))) sV :
  NoDup al.*1 →
  al = [(a, sV)] ++ X ++ [(b, sV)] ++ Y ++ [(rh, sV)] →
  parameter_places self = [rh] ++ X.*1 ++ [rh] ++ Y.*1 ++ [rh] →
  parameters self ≡ₚ rh :: X.*1 ++ Y.*1.
Proof.
  intros Hnd -> Hplaces. unfold parameters. rewrite Hplaces.
  rewrite !fmap_app in Hnd. simpl in Hnd.
  apply NoDup_cons in Hnd as [Ha Hnd]. apply NoDup_app in Hnd as (HX & HXd & Hnd).
  apply NoDup_cons in Hnd as [Hb Hnd]. apply NoDup_app in Hnd as (HY & HYd & Hnd).
  apply NoDup_Permutation.
  - apply NoDup_unique.
  - constructor.
    + rewrite elem_of_app. intros [H|H].
      * apply (HXd _ H). rewrite elem_of_cons, elem_of_app, list_elem_of_singleton. tauto.
      * apply (HYd _ H). apply list_elem_of_singleton. reflexivity.
    + apply NoDup_app. split; [exact HX|]. split; [|exact HY].
      intros x Hx1 Hx2. apply (HXd _ Hx1). rewrite elem_of_cons, elem_of_app. tauto.
  - intros x. rewrite elem_of_unique. simpl.
    rewrite !elem_of_cons, !elem_of_app, !elem_of_cons, !elem_of_app, !elem_of_cons,
      elem_of_nil. tauto.
Qed.

(** *** Counting the entries through the shapes *)

Lemma sum_numel_shapes (h : list tensor) (al : list (ref * (nat * nat))) :
  Forall (λ p, shape_at h p.1 = Some p.2) al →
  sum_list_with (numel_at h) al.*1 = sum_list_with snd al.*2.
Proof.
  induction 1 as [|[r [d n]] al Hr _ IH]; [reflexivity|]. csimpl. rewrite IH. f_equal.
  unfold shape_at in Hr. unfold numel_at. simpl in Hr.
  destruct (h !! r) as [t|]; [|discriminate]. simpl in *. unfold shape_of in Hr. congruence.
Qed.


Lemma total_Stack (c : GPTConfig.t) (n : nat) :
  sum_list_with snd (sig_Stack c n) = n * sum_list_with snd (sig_Block c).
Proof.
  induction n as [|n IH]; [reflexivity|]. cbn [sig_Stack]. rewrite sum_list_with_app, IH. lia.
Qed.

Lemma total_LayerNorm n b : sum_list_with snd (sig_LayerNorm n b) = numel_LayerNorm n b.
Proof. unfold sig_LayerNorm, numel_LayerNorm. destruct b; simpl; lia. Qed.

Lemma total_Linear n_in n_out b :
  sum_list_with snd (sig_Linear n_in n_out b) = numel_Linear n_in n_out b.
Proof. unfold sig_Linear, numel_Linear. destruct b; simpl; lia. Qed.

Lemma total_Embedding num dim : sum_list_with snd (sig_Embedding num dim) = num * dim.
Proof. unfold sig_Embedding. simpl. lia. Qed.

Lemma total_Block c : sum_list_with snd (sig_Block c) = numel_Block c.
Proof.
  unfold sig_Block, sig_Attention, sig_MLP, numel_Block. cbv zeta.
  rewrite !sum_list_with_app, !total_LayerNorm, !total_Linear. lia.
Qed.

Lemma total_primary_coder c :
  GPTConfig.vocab_size c * GPTConfig.n_embd c +
  sum_list_with snd (sig_primary c) + sum_list_with snd (sig_coder c) = numel_GPT c.
Proof.
  unfold sig_primary, sig_coder, numel_GPT. cbv zeta.
  rewrite !sum_list_with_app, !total_Stack, !total_Block, !total_LayerNorm, !total_Linear,
    !total_Embedding. lia.
Qed.






(** The parameters of a freshly built model: up to their order, the weight
    of [lm_head], then those of the primary path and those of the encoder
    and the decoder, with the shapes of the configuration. *)
Lemma fresh_parameters config has_flash s self s' :
  0 < GPTConfig.n_head config →
  GPTConfig.n_embd config `mod` GPTConfig.n_head config = 0 →
  GPT.__init__ config has_flash s = Ok (self, s') →
  ∃ al, parameters self ≡ₚ al.*1 ∧
        Forall (λ p, shape_at (heap s') p.1 = Some p.2) al ∧
        al.*2 = (2, GPTConfig.vocab_size config * GPTConfig.n_embd config)
                :: sig_primary config ++ sig_coder config ∧
        shape_at (heap s') (Embedding.weight (GPT.transformer_wpe self))
        = Some (2, GPTConfig.block_size config * GPTConfig.n_embd config).
Proof.
  intros Hpos Hmod E.
  destruct (grows_GPT config has_flash (init_Ok_constructible _ _ _ _ _ E) Hpos Hmod s)
    as (self0 & s0 & al & E0 & _ & Hseq & _ & Hshapes
        & (a & b & rh & X & Y & Hal & Hplaces & HX & HY & Hwpe)).
  rewrite E in E0. injection E0 as <- <-.
  assert (Hnd : NoDup al.*1) by (rewrite Hseq; apply NoDup_seq).
  pose proof (parameters_tied config self al a b rh X Y _ Hnd Hal Hplaces) as Hperm.
  subst al. rewrite !Forall_app, !Forall_cons in Hshapes.
  destruct Hshapes as ([_ _] & HsX & [_ _] & HsY & [Hrh _]).
  exists ((rh, (2, GPTConfig.vocab_size config * GPTConfig.n_embd config)) :: X ++ Y).
  split_and!.
  - rewrite Hperm. csimpl. rewrite fmap_app. reflexivity.
  - constructor; [exact Hrh|]. apply Forall_app. split; assumption.
  - csimpl. rewrite fmap_app, HX, HY. reflexivity.
  - destruct X as [|[r sh] X]; [discriminate|]. csimpl in *. injection Hwpe as ->.
    unfold sig_primary, sig_Embedding in HX. simpl in HX. injection HX as -> _.
    apply Forall_cons in HsX as [H _]. exact H.
Qed.

Lemma get_num_params_closed config has_flash s self s' :
  0 < GPTConfig.n_head config →
  GPTConfig.n_embd config `mod` GPTConfig.n_head config = 0 →
  GPT.__init__ config has_flash s = Ok (self, s') →
  get_num_params (heap s') self false = Z.of_nat (numel_GPT config) ∧
  get_num_params (heap s') self true
  = (Z.of_nat (numel_GPT config)
     - Z.of_nat (GPTConfig.block_size config * GPTConfig.n_embd config))%Z.
Proof.
  intros Hpos Hmod E.
  destruct (fresh_parameters config has_flash s self s' Hpos Hmod E)
    as (al & Hperm & Hshapes & Hsig & Hwpe).
  assert (Htotal : sum_list_with (numel_at (heap s')) (parameters self) = numel_GPT config).
  { rewrite Hperm, (sum_numel_shapes _ _ Hshapes), Hsig.
    transitivity (GPTConfig.vocab_size config * GPTConfig.n_embd config +
                  (sum_list_with snd (sig_primary config)
                   + sum_list_with snd (sig_coder config))).
    - rewrite <- sum_list_with_app. reflexivity.
    - rewrite <- total_primary_coder. lia. }
  unfold get_num_params. cbv zeta. rewrite Htotal. split; [reflexivity|].
  f_equal. f_equal. unfold shape_at in Hwpe. unfold numel_at.
  destruct (heap s' !! _) as [t|]; [|discriminate]. simpl in *.
  unfold shape_of in Hwpe. congruence.
Qed.

(** X15. [get_num_params] on a freshly built model: the number it returns
    is the closed form [numel_GPT] of the configuration, in which the
    token table shared by [transformer.wte], [encoder.wte] and [lm_head]
    counts once; with [non_embedding] (the default) the [block_size *
    n_embd] entries of the position table [transformer.wpe] are taken
    off. *)
Theorem get_num_params_fresh config has_flash s self s' :
  0 < GPTConfig.n_head config →
  GPTConfig.n_embd config `mod` GPTConfig.n_head config = 0 →
  GPT.__init__ config has_flash s = Ok (self, s') →
  get_num_params (heap s') self false = Z.of_nat (numel_GPT config) ∧
  get_num_params (heap s') self true
  = (Z.of_nat (numel_GPT config)
     - Z.of_nat (GPTConfig.block_size config * GPTConfig.n_embd config))%Z.
Proof. apply get_num_params_closed. Qed.

Lemma get_num_params_fresh_witness :
  ∃ self s',
    GPT.__init__ tiny_config true (fresh_state (λ _, (1 / 2)%R)) = Ok (self, s') ∧
    get_num_params (heap s') self false = 339%Z ∧
    get_num_params (heap s') self true = 331%Z.
Proof.
  destruct (GPT.__init__ tiny_config true (fresh_state (λ _, (1 / 2)%R)))
    as [[self s']|e] eqn:E.
  - exists self, s'. split; [reflexivity|].
    exact (get_num_params_fresh tiny_config true _ self s' ltac:(simpl; lia) eq_refl E).
  - exfalso.
    destruct (init_ok tiny_config true (fresh_state (λ _, (1 / 2)%R)) tiny_constructible)
      as (self & s' & m & E' & _); [simpl; lia | reflexivity |]. congruence.
Defined.




(** ** The estimate of the model flops utilisation *)

(** X17. [estimate_mfu] on a freshly built model: a measured time of
    zero raises ZeroDivisionError; otherwise the estimate is the closed
    form of the configuration, in which the parameter count leaves out
    the position table and the attention term is [12 * n_layer * n_embd *
    block_size] whatever the number of heads. *)
Theorem estimate_mfu_fresh config has_flash s self s' (fwdbwd_per_iter dt : R) :
  0 < GPTConfig.n_head config →
  GPTConfig.n_embd config `mod` GPTConfig.n_head config = 0 →
  GPT.__init__ config has_flash s = Ok (self, s') →
  estimate_mfu (heap s') self fwdbwd_per_iter dt
  = if Req_dec_T dt 0 then Raise ZeroDivisionError
    else
      let N := (Z.of_nat (numel_GPT config)
                - Z.of_nat (GPTConfig.block_size config * GPTConfig.n_embd config))%Z in
      let T := Z.of_nat (GPTConfig.block_size config) in
      let attention := (12 * Z.of_nat (GPTConfig.n_layer config)
                        * Z.of_nat (GPTConfig.n_embd config) * T)%Z in
      Ok (IZR ((6 * N + attention) * T) * fwdbwd_per_iter * (1 / dt) / 312e12)%R.
Proof.
  intros Hpos Hmod E.
  destruct (get_num_params_closed config has_flash s self s' Hpos Hmod E) as [_ HN].
  destruct (builds_GPT config has_flash (init_Ok_constructible _ _ _ _ _ E) Hpos Hmod s I)
    as (self0 & s0 & E0 & _ & Hok & _).
  rewrite E in E0. injection E0 as <- <-. destruct Hok as ((Hc & _) & _).
  unfold estimate_mfu. cbv zeta. rewrite HN, Hc.
  destruct (decide (GPTConfig.n_head config = 0)) as [H0|_]; [lia|]. simpl.
  destruct (Req_dec_T dt 0) as [_|Hdt]; [reflexivity|]. simpl.
  do 4 f_equal. f_equal. f_equal. f_equal.
  apply Nat.Div0.div_exact in Hmod. rewrite Hmod at 2. rewrite Nat2Z.inj_mul. ring.
Qed.

Lemma estimate_mfu_fresh_witness :
  ∃ self s',
    GPT.__init__ tiny_config true (fresh_state (λ _, (1 / 2)%R)) = Ok (self, s') ∧
    estimate_mfu (heap s') self 1 2 = Ok (IZR 8328 * 1 * (1 / 2) / 312e12)%R.
Proof.
  destruct (GPT.__init__ tiny_config true (fresh_state (λ _, (1 / 2)%R)))
    as [[self s']|e] eqn:E.
  - exists self, s'. split; [reflexivity|].
    rewrite (estimate_mfu_fresh tiny_config true _ self s' 1 2 ltac:(simpl; lia) eq_refl E).
    destruct (Req_dec_T 2 0) as [H|_]; [lra | reflexivity].
  - exfalso.
    destruct (init_ok tiny_config true (fresh_state (λ _, (1 / 2)%R)) tiny_constructible)
      as (self & s' & m & E' & _); [simpl; lia | reflexivity |]. congruence.
Defined.

(** ** [forward] with [embedding=True] *)



(** ** [forward] on less than a block *)

(** X19. The model takes full blocks only: on a non-empty batch of valid
    ids whose sequences are shorter than [block_size], every call of
    [forward], with or without targets and with or without
    [embedding=True], raises a RuntimeError (the flattened encoder states
    do not fit the bottleneck layer). *)
Theorem forward_short_sequence_raises (m : GPT.t) itos (d : GPT.Draws) (idx : LongTensor)
    (targets : option LongTensor) (embedding : bool) :
  GPT.wf m → wf_long idx → valid_ids (GPTConfig.vocab_size (GPT.config m)) idx →
  valid_ins m d → 0 < size0 idx → 0 < GPTConfig.n_embd (GPT.config m) →
  size1 idx < GPTConfig.block_size (GPT.config m) →
  GPT.forward m itos d idx targets embedding = Raise RuntimeError.
Proof.
  intros Hwf Hidx Hids Hins Hb HC Ht. unfold GPT.forward. cbv zeta.
  destruct (decide _) as [_|Hn]; [|lia].
  rewrite (encode_short_raises m d idx Hwf Hidx Hids Hins Hb HC Ht). reflexivity.
Qed.

Lemma forward_short_sequence_raises_witness :
  GPT.forward tiny_model tiny_itos (GPT.forward_draws (start_draws (1 / 2) (1 / 2) 0))
    start_prefix None true = Raise RuntimeError.
Proof.
  apply forward_short_sequence_raises.
  - apply tiny_model_wf.
  - split; [reflexivity|]. repeat constructor.
  - repeat constructor; simpl; lia.
  - unfold valid_ins. simpl. repeat constructor; lia.
  - simpl. lia.
  - simpl. lia.
  - simpl. lia.
Defined.

(** ** prepare.py *)

Lemma pad_line_ok (tokens : list string) :
  ∃ row, prepare.pad_line tokens = Ok row ∧ length row = prepare.BLOCK_SIZE ∧
         take (length tokens `min` prepare.BLOCK_SIZE) row = take prepare.BLOCK_SIZE tokens ∧
         Forall (λ t, t = prepare.PAD) (drop (length tokens `min` prepare.BLOCK_SIZE) row).
Proof.
  unfold prepare.pad_line. cbv zeta.
  set (d := take prepare.BLOCK_SIZE tokens).
  assert (Hd : length d = length tokens `min` prepare.BLOCK_SIZE).
  { unfold d. rewrite length_take. lia. }
  assert (Hlen : length (d ++ replicate (prepare.BLOCK_SIZE - length d) prepare.PAD)
                 = prepare.BLOCK_SIZE).
  { rewrite length_app, length_replicate. lia. }
  destruct (decide _) as [_|Hne]; [|contradiction].
  eexists. split; [reflexivity|]. split; [exact Hlen|]. rewrite <- Hd. split.
  - rewrite take_app_length. reflexivity.
  - rewrite drop_app_length. apply Forall_replicate. reflexivity.
Qed.

Lemma pad_lines_ok (lines : list (list string)) :
  ∃ data, prepare.pad_lines lines = Ok data ∧
    Forall2 (λ tokens row,
      length row = prepare.BLOCK_SIZE ∧
      take (length tokens `min` prepare.BLOCK_SIZE) row = take prepare.BLOCK_SIZE tokens ∧
      Forall (λ t, t = prepare.PAD) (drop (length tokens `min` prepare.BLOCK_SIZE) row))
      lines data.
Proof.
  unfold prepare.pad_lines. induction lines as [|tokens lines (data & Hd & IH)]; simpl.
  - exists []. split; [reflexivity | constructor].
  - destruct (pad_line_ok tokens) as (row & -> & Hrow). simpl. rewrite Hd. simpl.
    exists (row :: data). split; [reflexivity|]. constructor; assumption.
Qed.

(** X20. The padding of [prepare.py] never trips its assertion: every
    line becomes a row of exactly [BLOCK_SIZE] tokens, the first tokens
    of the line (at most [BLOCK_SIZE] of them) followed by [PAD] only. *)
Theorem prepare_rows_padded (lines : list (list string)) :
  ∃ data, prepare.pad_lines lines = Ok data ∧
    Forall2 (λ tokens row,
      length row = prepare.BLOCK_SIZE ∧
      take (length tokens `min` prepare.BLOCK_SIZE) row = take prepare.BLOCK_SIZE tokens ∧
      Forall (λ t, t = prepare.PAD) (drop (length tokens `min` prepare.BLOCK_SIZE) row))
      lines data.
Proof. apply pad_lines_ok. Qed.

Lemma dict_lookup_acc {K V} `{Countable K} (items : list (K * V)) (m0 : gmap K V) k v :
  NoDup items.*1 → (∀ k', k' ∈ items.*1 → m0 !! k' = None) →
  foldl (λ m kv, <[kv.1 := kv.2]> m) m0 items !! k = Some v
  ↔ (k, v) ∈ items ∨ m0 !! k = Some v.
Proof.
  revert m0. induction items as [|[k0 v0] items IH]; intros m0 Hnd Hm0; simpl.
  - rewrite elem_of_nil. tauto.
  - csimpl in Hnd. apply NoDup_cons in Hnd as [Hk0 Hnd].
    rewrite IH; [|exact Hnd|].
    + rewrite elem_of_cons. destruct (decide (k = k0)) as [->|Hne].
      * rewrite lookup_insert_eq. rewrite (Hm0 k0) by (csimpl; left).
        split; [|intros [[Heq|Hin]|Hm]].
        -- intros [Hin|Hv]; [auto|]. left. left. congruence.
        -- right. congruence.
        -- auto.
        -- discriminate.
      * rewrite lookup_insert_ne by congruence.
        split; [intros [?|?]; auto|]. intros [[Heq|?]|?]; auto. congruence.
    + intros k' Hk'. rewrite lookup_insert_ne.
      * apply Hm0. csimpl. right. exact Hk'.
      * intros <-. contradiction.
Qed.

Lemma dict_lookup {K V} `{Countable K} (items : list (K * V)) k v :
  NoDup items.*1 → prepare.dict items !! k = Some v ↔ (k, v) ∈ items.
Proof.
  intros Hnd. unfold prepare.dict. rewrite dict_lookup_acc; [|exact Hnd|].
  - rewrite lookup_empty. split; [intros [?|?]; [assumption | discriminate] | auto].
  - intros k' _. apply lookup_empty.
Qed.

Lemma elem_of_enumerate {A} (l : list A) i x :
  (i, x) ∈ prepare.enumerate l ↔ l !! i = Some x.
Proof.
  unfold prepare.enumerate. rewrite elem_of_lookup_imap. split.
  - intros (j & y & Heq & Hy). injection Heq as -> ->. exact Hy.
  - intros Hx. eauto.
Qed.

Lemma imap_index {A} (n : nat) (l : list A) : imap (λ i _, n + i) l = seq n (length l).
Proof.
  revert n. induction l as [|x l IH]; intros n; [reflexivity|].
  simpl. rewrite Nat.add_0_r. f_equal. rewrite <- IH. apply imap_ext.
  intros i y _. simpl. lia.
Qed.

Lemma enumerate_keys {A} (l : list A) : (prepare.enumerate l).*1 = seq 0 (length l).
Proof.
  unfold prepare.enumerate. rewrite fmap_imap, <- (imap_index 0 l).
  apply imap_ext. reflexivity.
Qed.

Lemma enumerate_values {A} (l : list A) : (prepare.enumerate l).*2 = l.
Proof.
  unfold prepare.enumerate. rewrite fmap_imap. induction l as [|x l IH]; [reflexivity|].
  simpl. f_equal. rewrite <- IH at 2. apply imap_ext. reflexivity.
Qed.

Lemma itos_lookup (chars : list string) i ch :
  prepare.itos chars !! i = Some ch ↔ chars !! i = Some ch.
Proof.
  unfold prepare.itos. rewrite dict_lookup, elem_of_enumerate; [reflexivity|].
  rewrite enumerate_keys. apply NoDup_seq.
Qed.

Lemma stoi_lookup (chars : list string) i ch :
  NoDup chars → prepare.stoi chars !! ch = Some i ↔ chars !! i = Some ch.
Proof.
  intros Hnd. unfold prepare.stoi. rewrite dict_lookup.
  - rewrite list_elem_of_fmap. split.
    + intros ([j c] & Heq & Hin). injection Heq as -> ->. apply elem_of_enumerate, Hin.
    + intros Hi. exists (i, ch). split; [reflexivity | apply elem_of_enumerate, Hi].
  - rewrite <- list_fmap_compose.
    replace ((fst ∘ (λ ich : nat * string, (ich.2, ich.1))) <$> prepare.enumerate chars)
      with (prepare.enumerate chars).*2 by (apply list_fmap_ext; intros ? [? ?] ?; reflexivity).
    rewrite enumerate_values. exact Hnd.
Qed.

Lemma sorted_perm (l : list string) : prepare.sorted l ≡ₚ l.
Proof. unfold prepare.sorted. apply merge_sort_Permutation. Qed.

Lemma chars_NoDup (data : list (list string)) : NoDup (prepare.chars data).
Proof.
  unfold prepare.chars. constructor.
  - rewrite sorted_perm, elem_of_remove_dups, list_elem_of_filter. tauto.
  - rewrite sorted_perm. apply NoDup_remove_dups.
Qed.

Lemma elem_of_chars (data : list (list string)) (t : string) :
  t ∈ prepare.chars data ↔ t = prepare.PAD ∨ t ∈ concat data.
Proof.
  unfold prepare.chars.
  rewrite elem_of_cons, sorted_perm, elem_of_remove_dups, list_elem_of_filter.
  destruct (decide (t = prepare.PAD)); tauto.
Qed.

(** X21. The tables of [meta.pkl]: [stoi] and [itos] are inverse to each
    other and list the vocabulary in order; [PAD] has id 0 (the
    [padding_idx] of the model's embeddings); a token has an id exactly
    when it is [PAD] or occurs in the data, and every id is below
    [vocab_size]. *)
Theorem prepare_vocabulary (data : list (list string)) :
  let chars := prepare.chars data in
  prepare.stoi chars !! prepare.PAD = Some 0 ∧
  (∀ ch i, prepare.stoi chars !! ch = Some i ↔ prepare.itos chars !! i = Some ch) ∧
  (∀ ch i, prepare.itos chars !! i = Some ch ↔ chars !! i = Some ch) ∧
  (∀ ch, is_Some (prepare.stoi chars !! ch) ↔ ch = prepare.PAD ∨ ch ∈ concat data) ∧
  (∀ ch i, prepare.stoi chars !! ch = Some i → i < length chars).
Proof.
  intros chars. pose proof (chars_NoDup data) as Hnd. fold chars in Hnd. split_and!.
  - apply stoi_lookup; [exact Hnd | reflexivity].
  - intros ch i. rewrite stoi_lookup, itos_lookup; [reflexivity | exact Hnd].
  - intros ch i. apply itos_lookup.
  - intros ch. rewrite <- elem_of_chars. fold chars. split.
    + intros [i Hi]. apply stoi_lookup in Hi; [|exact Hnd]. eapply list_elem_of_lookup_2, Hi.
    + intros Hin. apply list_elem_of_lookup_1 in Hin as [i Hi]. exists i.
      apply stoi_lookup; assumption.
  - intros ch i Hi. apply stoi_lookup in Hi; [|exact Hnd]. eapply lookup_lt_Some, Hi.
Qed.

Lemma prepare_encode_ok (data : list (list string)) (s : list string) :
  Forall (λ t, t = prepare.PAD ∨ t ∈ concat data) s →
  ∃ ids, prepare.encode (prepare.stoi (prepare.chars data)) s = Ok ids ∧
         Forall2 (λ t i, prepare.chars data !! i = Some t) s ids.
Proof.
  intros Hs. unfold prepare.encode. induction Hs as [|t s Ht _ (ids & Hids & IH)]; simpl.
  - exists []. split; [reflexivity | constructor].
  - apply elem_of_chars, list_elem_of_lookup_1 in Ht as [i Hi].
    rewrite (proj2 (stoi_lookup _ i t (chars_NoDup data)) Hi). simpl. rewrite Hids. simpl.
    exists (i :: ids). split; [reflexivity|]. constructor; assumption.
Qed.

Lemma prepare_decode_ok (chars : list string) (s : list string) (ids : list nat) :
  Forall2 (λ t i, chars !! i = Some t) s ids →
  prepare.decode (prepare.itos chars) ids = Ok (String.concat " " s).
Proof.
  intros H. unfold prepare.decode.
  assert (Hm : mapR (λ i, match prepare.itos chars !! i with
                          | Some ch => Ok ch
                          | None => Raise KeyError
                          end) ids = Ok s).
  { induction H as [|t i s ids Hi _ IH]; [reflexivity|]. simpl.
    rewrite (proj2 (itos_lookup chars i t) Hi). simpl. rewrite IH. reflexivity. }
  rewrite Hm. reflexivity.
Qed.

(** X22. [encode] and [decode] of [prepare.py] fit together: a sequence
    of tokens that are [PAD] or occur in the data is encoded without a
    KeyError into as many ids, all below [vocab_size], and decoding these
    ids gives back the tokens joined by single blanks. *)
Theorem prepare_encode_decode (data : list (list string)) (s : list string) :
  Forall (λ t, t = prepare.PAD ∨ t ∈ concat data) s →
  ∃ ids, prepare.encode (prepare.stoi (prepare.chars data)) s = Ok ids ∧
         length ids = length s ∧
         Forall (λ i, i < length (prepare.chars data)) ids ∧
         prepare.decode (prepare.itos (prepare.chars data)) ids = Ok (String.concat " " s).
Proof.
  intros Hs. destruct (prepare_encode_ok data s Hs) as (ids & Hids & H2).
  exists ids. split; [exact Hids|]. split; [symmetry; exact (Forall2_length _ _ _ H2)|].
  split; [|exact (prepare_decode_ok _ _ _ H2)].
  clear Hids Hs. induction H2 as [|t i s ids Hi _ IH]; constructor; [|exact IH].
  eapply lookup_lt_Some, Hi.
Qed.

Lemma prepare_encode_decode_witness :
  ∃ ids, prepare.encode (prepare.stoi (prepare.chars [["p-2"; "m-1"]; ["m-1"]]%string))
           ["m-1"; "[PAD]"; "p-2"]%string = Ok ids ∧
         length ids = 3 ∧
         Forall (λ i, i < length (prepare.chars [["p-2"; "m-1"]; ["m-1"]]%string)) ids ∧
         prepare.decode (prepare.itos (prepare.chars [["p-2"; "m-1"]; ["m-1"]]%string)) ids
         = Ok "m-1 [PAD] p-2"%string.
Proof.
  apply (prepare_encode_decode [["p-2"; "m-1"]; ["m-1"]]%string ["m-1"; "[PAD]"; "p-2"]%string).
  apply Forall_cons. split; [right; simpl; rewrite !elem_of_cons; auto|].
  apply Forall_cons. split; [left; reflexivity|].
  apply Forall_cons. split; [right; simpl; rewrite !elem_of_cons; auto|].
  apply Forall_nil. exact I.
Defined.

(** X23. [encode] refuses exactly the unknown tokens: a sequence with a
    token that is neither [PAD] nor a token of the data raises a
    KeyError. *)
Theorem prepare_encode_unknown_token (data : list (list string)) (s : list string) :
  Exists (λ t, t ≠ prepare.PAD ∧ t ∉ concat data) s →
  prepare.encode (prepare.stoi (prepare.chars data)) s = Raise KeyError.
Proof.
  intros Hs. unfold prepare.encode. induction s as [|t s IH]; [inversion Hs|]. simpl.
  destruct (prepare.stoi (prepare.chars data) !! t) as [i|] eqn:Hi; [|reflexivity]. simpl.
  apply Exists_cons in Hs as [[Hp Hd]|Hs].
  - exfalso. apply stoi_lookup in Hi; [|apply chars_NoDup].
    apply list_elem_of_lookup_2, elem_of_chars in Hi. tauto.
  - rewrite (IH Hs). reflexivity.
Qed.

Lemma prepare_encode_unknown_token_witness :
  prepare.encode (prepare.stoi (prepare.chars [["p-2"; "m-1"]]%string)) ["m-1"; "m-7"]%string
  = Raise KeyError.
Proof.
  apply prepare_encode_unknown_token. apply Exists_cons. right. apply Exists_cons. left.
  split; [discriminate|]. simpl. rewrite !elem_of_cons, elem_of_nil.
  intros [H|[H|[]]]; discriminate.
Defined.

(** X24. What [prepare.py] does, on every input.  No line trips the
    assertion and no token the KeyError of [encode]: the script always
    reaches the conversion to [np.uint16].  The ids it converts are those
    of the first [int(0.9 n)] rows, [BLOCK_SIZE] per row and each below
    [vocab_size].  The conversion raises OverflowError exactly when one of
    them does not fit 16 bits, which needs a vocabulary of more than 65536
    tokens; otherwise the script writes these ids to [train.bin] and the
    very same ids to [val.bin] (the last tenth of the rows, set aside as
    [val_data], is never encoded), and [meta] with block size 128 and
    [PAD] at id 0. *)
Theorem prepare_main_returns (lines : list (list string)) :
  ∃ data ids,
    prepare.pad_lines lines = Ok data ∧
    prepare.encode (prepare.stoi (prepare.chars data))
      (concat (take (prepare.split_point (length data)) data)) = Ok ids ∧
    length ids = prepare.split_point (length lines) * prepare.BLOCK_SIZE ∧
    Forall (λ i, i < length (prepare.chars data)) ids ∧
    prepare.stoi (prepare.chars data) !! prepare.PAD = Some 0 ∧
    prepare.main lines
    = (if decide (Forall (λ i, Z.of_nat i < 65536)%Z ids) then
         Ok {| prepare.train_ids := ids; prepare.val_ids := ids;
               prepare.meta_vocab_size := length (prepare.chars data);
               prepare.meta_itos := prepare.itos (prepare.chars data);
               prepare.meta_stoi := prepare.stoi (prepare.chars data);
               prepare.meta_block_size := 128 |}
       else Raise OverflowError) ∧
    ((Z.of_nat (length (prepare.chars data)) ≤ 65536)%Z → Forall (λ i, Z.of_nat i < 65536)%Z ids).
Proof.
  destruct (pad_lines_ok lines) as (data & Hdata & Hrows).
  pose proof (Forall2_length _ _ _ Hrows) as Hlen.
  set (k := prepare.split_point (length data)).
  assert (Hin : Forall (λ t, t = prepare.PAD ∨ t ∈ concat data) (concat (take k data))).
  { apply Forall_forall. intros t Ht. right.
    rewrite <- (take_drop k data), concat_app. apply elem_of_app. left. exact Ht. }
  destruct (prepare_encode_ok data _ Hin) as (ids & Hids & H2).
  assert (Hlt : Forall (λ i, i < length (prepare.chars data)) ids).
  { clear -H2. induction H2 as [|t i s ids Hi _ IH]; constructor; [|exact IH].
    eapply lookup_lt_Some, Hi. }
  exists data, ids. split_and!.
  - exact Hdata.
  - exact Hids.
  - rewrite <- (Forall2_length _ _ _ H2).
    rewrite (concat_length_const _ prepare.BLOCK_SIZE).
    + rewrite length_take. unfold k. rewrite <- Hlen.
      assert (prepare.split_point (length lines) ≤ length lines).
      { unfold prepare.split_point. apply Nat.Div0.div_le_upper_bound; lia. }
      rewrite Nat.min_l by assumption. reflexivity.
    + apply Forall_take. clear -Hrows. induction Hrows as [|? ? ? ? [H _] _ IH]; constructor; auto.
  - exact Hlt.
  - apply stoi_lookup; [apply chars_NoDup | reflexivity].
  - unfold prepare.main. rewrite Hdata. cbn [bind]. cbv zeta. fold k. rewrite Hids. cbn [bind].
    unfold prepare.to_uint16. destruct (decide _) as [Hfit|Hfit]; reflexivity.
  - intros HV. eapply Forall_impl; [exact Hlt|]. intros i Hi. cbv beta in Hi. lia.
Qed.

(** ** create_real.py *)

Lemma collect_rows_id (data : list (list R)) (rows : list create_real.row) :
  create_real.collect_rows data rows = data.
Proof.
  unfold create_real.collect_rows. revert data.
  induction rows as [|r rows IH]; intros data; simpl; [reflexivity|].
  destruct (Rlt_dec _ _); apply IH.
Qed.

Lemma collect_from_empty (groups : list (Z * (create_real.row * list create_real.row)))
    (acc : list (list R)) :
  Forall (λ d, d = []) acc →
  Forall (λ d, d = [])
    (foldl (λ data g,
              let rows := g.2.1 :: g.2.2 in
              let first := g.2.1 in
              if Rlt_dec 200 (create_real.precursor_mz first) then
                if Rlt_dec (create_real.precursor_mz first) 1000
                then create_real.collect_rows (data ++ [[]]) rows
                else data
              else data) acc groups).
Proof.
  revert acc. induction groups as [|g groups IH]; intros acc Hacc; cbn [foldl]; [exact Hacc|].
  apply IH. cbv zeta. destruct (Rlt_dec _ _); [|exact Hacc]. destruct (Rlt_dec _ _); [|exact Hacc].
  rewrite collect_rows_id. apply Forall_app. split; [exact Hacc|]. repeat constructor.
Qed.

Lemma collect_empty (groups : list (Z * (create_real.row * list create_real.row))) :
  Forall (λ d, d = []) (create_real.collect groups).
Proof. apply collect_from_empty. constructor. Qed.

(** X25. [create_real.py] keeps no peak: the only statement that would
    store a mass stands behind a [continue], so every spectrum that
    passes the precursor filter stays an empty list and the final filter
    removes it.  Whatever the table holds, [data] ends empty. *)
Theorem create_real_data_empty (groups : list (Z * (create_real.row * list create_real.row))) :
  Forall (λ d, d = []) (create_real.collect groups) ∧ create_real.data groups = [].
Proof.
  split; [apply collect_empty|]. unfold create_real.data.
  induction (collect_empty groups) as [|d l -> _ IH]; [reflexivity|].
  rewrite filter_cons. destruct (decide _) as [Hd|_]; [simpl in Hd; lia | exact IH].
Qed.
